(** * NewsService: article ingestion, parsing and deduplication

    A shallow embedding of [src/services/newsService.ts] and the properties
    of its ingestion pipeline: the content fingerprint, the line-oriented
    feed parser, feed discovery, and the store operations.

    JavaScript strings are sequences of UTF-16 code units; they are modelled
    as lists of integers.  Calls to the hosted backend (authentication, the
    document store, scraping) may throw and may answer differently at each
    call; they are modelled by oracles indexed by a call counter that the
    world carries, inside a small state-and-exception monad. *)

From Stdlib Require Import ZArith List Bool Lia String Ascii Arith.
From Stdlib Require Import Numbers.DecimalString.
Import ListNotations.

Local Open Scope Z_scope.

(** ** JavaScript strings *)

Module JS.

(** A string is the list of its UTF-16 code units. *)
Definition code_unit := Z.
Definition jsstring := list code_unit.

(** The code units of a literal written in Basic Latin. *)
Definition lit (s : string) : jsstring :=
  map (fun a => Z.of_N (N_of_ascii a)) (list_ascii_of_string s).

Fixpoint eqb (s t : jsstring) : bool :=
  match s, t with
  | [], [] => true
  | c :: s', d :: t' => (c =? d) && eqb s' t'
  | _, _ => false
  end.

(** [s.startsWith(p)] *)
Fixpoint startsWith (s p : jsstring) : bool :=
  match p, s with
  | [], _ => true
  | d :: p', c :: s' => (c =? d) && startsWith s' p'
  | _ :: _, [] => false
  end.

(** [s.includes(sub)] *)
Fixpoint includes (s sub : jsstring) : bool :=
  startsWith s sub ||
  match s with
  | [] => false
  | _ :: s' => includes s' sub
  end.

(** [s.split('\n')]: the pieces between line feeds; never empty. *)
Fixpoint split_lf (s : jsstring) : list jsstring :=
  match s with
  | [] => [[]]
  | c :: s' =>
      if c =? 10 then [] :: split_lf s'
      else match split_lf s' with
           | [] => [[c]]
           | l :: ls => (c :: l) :: ls
           end
  end.

(** White space and line terminators removed by [trim]. *)
Definition is_space (c : code_unit) : bool :=
  ((9 <=? c) && (c <=? 13)) || (c =? 32) || (c =? 160) || (c =? 5760) ||
  ((8192 <=? c) && (c <=? 8202)) || (c =? 8232) || (c =? 8233) ||
  (c =? 8239) || (c =? 8287) || (c =? 12288) || (c =? 65279).

Fixpoint trimStart (s : jsstring) : jsstring :=
  match s with
  | [] => []
  | c :: s' => if is_space c then trimStart s' else s
  end.

Definition trimEnd (s : jsstring) : jsstring := rev (trimStart (rev s)).

Definition trim (s : jsstring) : jsstring := trimEnd (trimStart s).

(** [s.replace(/<[^>]*>/g, '')].  A match starts at a [<] and extends to
    the first [>] after it; a [<] that no [>] follows matches nothing and
    is kept, together with the rest of the string.  [pending] holds, in
    reverse, the text read since an open [<] whose [>] is not yet seen. *)
Fixpoint strip_tags_from (pending : option jsstring) (s : jsstring) : jsstring :=
  match s with
  | [] => match pending with
          | None => []
          | Some buf => rev buf
          end
  | c :: s' =>
      match pending with
      | None =>
          if c =? 60 then strip_tags_from (Some [c]) s'
          else c :: strip_tags_from None s'
      | Some buf =>
          if c =? 62 then strip_tags_from None s'
          else strip_tags_from (Some (c :: buf)) s'
      end
  end.

Definition strip_tags (s : jsstring) : jsstring := strip_tags_from None s.

(** [s.substring(0, n)] *)
Definition substring0 (n : nat) (s : jsstring) : jsstring := firstn n s.

(** [s.substr(start, len)] for non-negative arguments. *)
Definition substr (start len : nat) (s : jsstring) : jsstring :=
  firstn len (skipn start s).

(** Truthiness of a string: the empty string is falsy. *)
Definition truthy (s : jsstring) : bool :=
  match s with [] => false | _ :: _ => true end.

(** Truthiness of an optional (possibly [undefined]) string. *)
Definition otruthy (o : option jsstring) : bool :=
  match o with Some s => truthy s | None => false end.

(** [o || d] for an optional string. *)
Definition or_else (o : option jsstring) (d : jsstring) : jsstring :=
  match o with
  | Some (c :: s) => c :: s
  | _ => d
  end.

(** [s || d] for a string. *)
Definition or_str (s d : jsstring) : jsstring :=
  match s with
  | [] => d
  | _ :: _ => s
  end.

(** [ToInt32]: reduction modulo 2^32 into the signed 32-bit range. *)
Definition ToInt32 (z : Z) : Z :=
  let m := z mod 2 ^ 32 in
  if m <? 2 ^ 31 then m else m - 2 ^ 32.

(** [a << n] *)
Definition shl (a n : Z) : Z :=
  ToInt32 (Z.shiftl (ToInt32 a) (n mod 32)).

(** [a & b] *)
Definition band (a b : Z) : Z :=
  ToInt32 (Z.land (ToInt32 a) (ToInt32 b)).

(** [n.toString()] for an integer-valued number. *)
Definition Number_toString (z : Z) : jsstring :=
  lit (NilZero.string_of_int (Z.to_int z)).

End JS.

Import JS.

(** ** The content fingerprint *)

(** One iteration of the loop of [generateContentHash]. *)
Definition hash_step (hash : Z) (char : code_unit) : Z :=
  let hash := (shl hash 5 - hash) + char in
  band hash hash.

(** [generateContentHash], lines 374-383. *)
Definition generateContentHash (content : jsstring) : jsstring :=
  Number_toString (fold_left hash_step content 0).

(** The fingerprint of a candidate: [generateContentHash(title + description)]. *)
Definition fingerprint (title description : jsstring) : jsstring :=
  generateContentHash (title ++ description).

(** The reference hash in the words of the specification:
    [hash = (hash*31 + charCode) mod 2^32], left to right from 0, reduced
    to a signed 32-bit integer at each step. *)
Definition spec_hash_step (hash : Z) (charCode : code_unit) : Z :=
  let m := (hash * 31 + charCode) mod 2 ^ 32 in
  if m <? 2 ^ 31 then m else m - 2 ^ 32.

Definition spec_rolling_hash (s : jsstring) : Z :=
  fold_left spec_hash_step s 0.

Definition spec_fingerprint (title description : jsstring) : jsstring :=
  Number_toString (spec_rolling_hash (title ++ description)).

(** ** Records *)

(** The authenticated user returned by [blink.auth.me()]. *)
Record User := { user_id : jsstring }.

Record Link := { href : option jsstring; text : option jsstring }.

(** The [Article] objects the service hands to the user interface. *)
Module Article.
Record t := mk {
  id : jsstring; userId : jsstring; sourceId : jsstring;
  title : jsstring; description : jsstring; content : jsstring;
  url : jsstring; imageUrl : jsstring; publishedAt : jsstring;
  category : jsstring; isBookmarked : bool; isRead : bool;
  contentHash : jsstring; createdAt : jsstring }.
End Article.

(** The [NewsSource] objects the service hands to the user interface. *)
Module NewsSource.
Record t := mk {
  id : jsstring; userId : jsstring; name : jsstring; url : jsstring;
  rssUrl : option jsstring; category : jsstring; isActive : bool;
  createdAt : jsstring; updatedAt : jsstring }.
End NewsSource.

(** [Partial<Article>]: the in-progress candidate of the parser, of which
    the scan assigns these four fields. *)
Module Partial.
Record t := mk {
  title : option jsstring; description : option jsstring;
  url : option jsstring; publishedAt : option jsstring }.
Definition empty : t := mk None None None None.
Definition with_title (v : jsstring) (p : t) : t :=
  mk (Some v) (description p) (url p) (publishedAt p).
Definition with_description (v : jsstring) (p : t) : t :=
  mk (title p) (Some v) (url p) (publishedAt p).
Definition with_url (v : jsstring) (p : t) : t :=
  mk (title p) (description p) (Some v) (publishedAt p).
Definition with_publishedAt (v : jsstring) (p : t) : t :=
  mk (title p) (description p) (url p) (Some v).
End Partial.

(** Rows of the [articles] collection; flags are the strings "0" and "1". *)
Module ArticleRow.
Record t := mk {
  id : jsstring; userId : jsstring; sourceId : jsstring;
  title : jsstring; description : jsstring; content : jsstring;
  url : jsstring; imageUrl : jsstring; publishedAt : jsstring;
  category : jsstring; isBookmarked : jsstring; isRead : jsstring;
  contentHash : jsstring; createdAt : jsstring }.

Inductive field :=
| Fid | FuserId | FsourceId | Ftitle | Fdescription | Fcontent | Furl
| FimageUrl | FpublishedAt | Fcategory | FisBookmarked | FisRead
| FcontentHash | FcreatedAt.

Definition get (f : field) (r : t) : jsstring :=
  match f with
  | Fid => id r | FuserId => userId r | FsourceId => sourceId r
  | Ftitle => title r | Fdescription => description r
  | Fcontent => content r | Furl => url r | FimageUrl => imageUrl r
  | FpublishedAt => publishedAt r | Fcategory => category r
  | FisBookmarked => isBookmarked r | FisRead => isRead r
  | FcontentHash => contentHash r | FcreatedAt => createdAt r
  end.

Definition set (f : field) (v : jsstring) (r : t) : t :=
  match f with
  | Fid => mk v (userId r) (sourceId r) (title r) (description r) (content r) (url r) (imageUrl r) (publishedAt r) (category r) (isBookmarked r) (isRead r) (contentHash r) (createdAt r)
  | FuserId => mk (id r) v (sourceId r) (title r) (description r) (content r) (url r) (imageUrl r) (publishedAt r) (category r) (isBookmarked r) (isRead r) (contentHash r) (createdAt r)
  | FsourceId => mk (id r) (userId r) v (title r) (description r) (content r) (url r) (imageUrl r) (publishedAt r) (category r) (isBookmarked r) (isRead r) (contentHash r) (createdAt r)
  | Ftitle => mk (id r) (userId r) (sourceId r) v (description r) (content r) (url r) (imageUrl r) (publishedAt r) (category r) (isBookmarked r) (isRead r) (contentHash r) (createdAt r)
  | Fdescription => mk (id r) (userId r) (sourceId r) (title r) v (content r) (url r) (imageUrl r) (publishedAt r) (category r) (isBookmarked r) (isRead r) (contentHash r) (createdAt r)
  | Fcontent => mk (id r) (userId r) (sourceId r) (title r) (description r) v (url r) (imageUrl r) (publishedAt r) (category r) (isBookmarked r) (isRead r) (contentHash r) (createdAt r)
  | Furl => mk (id r) (userId r) (sourceId r) (title r) (description r) (content r) v (imageUrl r) (publishedAt r) (category r) (isBookmarked r) (isRead r) (contentHash r) (createdAt r)
  | FimageUrl => mk (id r) (userId r) (sourceId r) (title r) (description r) (content r) (url r) v (publishedAt r) (category r) (isBookmarked r) (isRead r) (contentHash r) (createdAt r)
  | FpublishedAt => mk (id r) (userId r) (sourceId r) (title r) (description r) (content r) (url r) (imageUrl r) v (category r) (isBookmarked r) (isRead r) (contentHash r) (createdAt r)
  | Fcategory => mk (id r) (userId r) (sourceId r) (title r) (description r) (content r) (url r) (imageUrl r) (publishedAt r) v (isBookmarked r) (isRead r) (contentHash r) (createdAt r)
  | FisBookmarked => mk (id r) (userId r) (sourceId r) (title r) (description r) (content r) (url r) (imageUrl r) (publishedAt r) (category r) v (isRead r) (contentHash r) (createdAt r)
  | FisRead => mk (id r) (userId r) (sourceId r) (title r) (description r) (content r) (url r) (imageUrl r) (publishedAt r) (category r) (isBookmarked r) v (contentHash r) (createdAt r)
  | FcontentHash => mk (id r) (userId r) (sourceId r) (title r) (description r) (content r) (url r) (imageUrl r) (publishedAt r) (category r) (isBookmarked r) (isRead r) v (createdAt r)
  | FcreatedAt => mk (id r) (userId r) (sourceId r) (title r) (description r) (content r) (url r) (imageUrl r) (publishedAt r) (category r) (isBookmarked r) (isRead r) (contentHash r) v
  end.

(** An object literal used as a [where] clause or as an update patch. *)
Definition fields := list (field * jsstring).

Definition matches (where_ : fields) (r : t) : bool :=
  forallb (fun fv => JS.eqb (get (fst fv) r) (snd fv)) where_.

Definition patch (p : fields) (r : t) : t :=
  fold_left (fun r fv => set (fst fv) (snd fv) r) p r.
End ArticleRow.

(** Rows of the [newsSources] collection. *)
Module SourceRow.
Record t := mk {
  id : jsstring; userId : jsstring; name : jsstring; url : jsstring;
  rssUrl : option jsstring; category : jsstring; isActive : jsstring;
  createdAt : jsstring; updatedAt : jsstring }.

Inductive field :=
| Fid | FuserId | Fname | Furl | FrssUrl | Fcategory | FisActive
| FcreatedAt | FupdatedAt.

Definition get (f : field) (r : t) : option jsstring :=
  match f with
  | Fid => Some (id r) | FuserId => Some (userId r)
  | Fname => Some (name r) | Furl => Some (url r) | FrssUrl => rssUrl r
  | Fcategory => Some (category r) | FisActive => Some (isActive r)
  | FcreatedAt => Some (createdAt r) | FupdatedAt => Some (updatedAt r)
  end.

Definition fields := list (field * jsstring).

Definition matches (where_ : fields) (r : t) : bool :=
  forallb (fun fv => match get (fst fv) r with
                     | Some v => JS.eqb v (snd fv)
                     | None => false
                     end) where_.
End SourceRow.

(** ** The world, exceptions and the monad of service calls *)

Inductive exn := Error (message : jsstring).

Inductive outcome (A : Type) :=
| Ret (a : A)
| Throw (e : exn).
Arguments Ret {A} a.
Arguments Throw {A} e.

Inductive direction := asc | desc.

(** The calls a service function makes on [blink.db]. *)
Inductive DbCall :=
| SourcesList (where_ : SourceRow.fields)
              (orderBy : option (SourceRow.field * direction))
| SourcesCreate (row : SourceRow.t)
| ArticlesList (where_ : ArticleRow.fields)
               (orderBy : option (ArticleRow.field * direction))
               (limit : option nat)
| ArticlesCreate (row : ArticleRow.t)
| ArticlesUpdate (id : jsstring) (patch : ArticleRow.fields).

(** The two collections of the store, the counter of calls made on the
    platform so far, the console, and the store calls made so far. *)
Record World := mkWorld {
  newsSources : list SourceRow.t;
  articles : list ArticleRow.t;
  tick : nat;
  console : list (jsstring * exn);
  calls : list DbCall }.

(** Built-ins of the language runtime.  The first four are functions of
    their arguments; the clock and the random generator answer by call. *)
Record Runtime := {
  toLowerCase : jsstring -> jsstring;
  (** [Number(s) > 0] *)
  Number_gt0 : jsstring -> bool;
  (** [new URL(rel, base).toString()] *)
  URL_toString : jsstring -> jsstring -> outcome jsstring;
  (** [new Date(s).toISOString()] *)
  Date_toISOString : jsstring -> outcome jsstring;
  (** [new Date().toISOString()] *)
  now_toISOString : nat -> jsstring;
  (** [Date.now()], as interpolated in a template literal *)
  Date_now : nat -> jsstring;
  (** [Math.random()], as interpolated in a template literal *)
  Math_random : nat -> jsstring;
  (** [Math.random().toString(36)] *)
  Math_random_toString36 : nat -> jsstring }.

(** The hosted backend: what each call answers, by call number.  A store
    call for which [db_fault] gives an exception throws it and has no
    effect on the store. *)
Record Backend := {
  auth_me : nat -> outcome (option User);
  data_scrape : nat -> jsstring -> outcome (list Link);
  data_extractFromUrl : nat -> jsstring -> outcome jsstring;
  db_fault : nat -> option exn }.

Definition M (A : Type) : Type := World -> outcome A * World.

Definition ret {A} (a : A) : M A := fun w => (Ret a, w).

Definition throw {A} (e : exn) : M A := fun w => (Throw e, w).

Definition bind {A B} (m : M A) (k : A -> M B) : M B :=
  fun w => match m w with
           | (Ret a, w') => k a w'
           | (Throw e, w') => (Throw e, w')
           end.

(** [try { m } catch (error) { handler error }] *)
Definition try_catch {A} (m : M A) (handler : exn -> M A) : M A :=
  fun w => match m w with
           | (Ret a, w') => (Ret a, w')
           | (Throw e, w') => handler e w'
           end.

Declare Scope js_scope.
Delimit Scope js_scope with js_m.
Notation "x <- m ;; k" := (bind m (fun x => k))
  (at level 61, m at next level, right associativity) : js_scope.
Notation "m ;; k" := (bind m (fun _ => k))
  (at level 61, right associativity) : js_scope.
Local Open Scope js_scope.

(** [for (const x of l) { s = body s x }] with the loop's variables in [s]. *)
Fixpoint for_of {A S} (l : list A) (body : S -> A -> M S) (s : S) : M S :=
  match l with
  | [] => ret s
  | x :: l' => s' <- body s x ;; for_of l' body s'
  end.

Definition lift {A} (o : outcome A) : M A := fun w => (o, w).

(** The number of this call; the counter advances. *)
Definition next_tick : M nat :=
  fun w => (Ret (tick w),
            mkWorld (newsSources w) (articles w) (S (tick w)) (console w) (calls w)).

(** [console.error(label, error)] *)
Definition console_error (label : jsstring) (error : exn) : M unit :=
  fun w => (Ret tt,
            mkWorld (newsSources w) (articles w) (tick w)
                    (console w ++ [(label, error)]) (calls w)).

Definition set_newsSources (f : list SourceRow.t -> list SourceRow.t) : M unit :=
  fun w => (Ret tt,
            mkWorld (f (newsSources w)) (articles w) (tick w) (console w) (calls w)).

Definition set_articles (f : list ArticleRow.t -> list ArticleRow.t) : M unit :=
  fun w => (Ret tt,
            mkWorld (newsSources w) (f (articles w)) (tick w) (console w) (calls w)).

Definition record_call (c : DbCall) : M unit :=
  fun w => (Ret tt,
            mkWorld (newsSources w) (articles w) (tick w) (console w) (calls w ++ [c])).

(** Order of strings by code units, as the store sorts a text column. *)
Fixpoint ltb (s t : jsstring) : bool :=
  match s, t with
  | _, [] => false
  | [], _ :: _ => true
  | c :: s', d :: t' => (c <? d) || ((c =? d) && ltb s' t')
  end.

Section OrderBy.
Context {R : Type} (key : R -> option jsstring) (dir : direction).

(** [a] may stay before [b]. *)
Definition in_order (a b : R) : bool :=
  match key a, key b with
  | Some x, Some y => match dir with
                      | asc => negb (ltb y x)
                      | desc => negb (ltb x y)
                      end
  | _, _ => true
  end.

Fixpoint insert_sorted (a : R) (l : list R) : list R :=
  match l with
  | [] => [a]
  | b :: l' => if in_order a b then a :: l else b :: insert_sorted a l'
  end.

Definition sort_rows (l : list R) : list R :=
  fold_right insert_sorted [] l.
End OrderBy.

Definition order_rows {R F} (get : F -> R -> option jsstring)
    (orderBy : option (F * direction)) (l : list R) : list R :=
  match orderBy with
  | Some (f, dir) => sort_rows (get f) dir l
  | None => l
  end.

Definition limit_rows {R} (limit : option nat) (l : list R) : list R :=
  match limit with
  | Some n => firstn n l
  | None => l
  end.

(** ** The service *)

Section Service.

Context (rt : Runtime) (bk : Backend).

(** *** Platform calls *)

Definition new_Date_toISOString : M jsstring :=
  t <- next_tick ;; ret (now_toISOString rt t).

Definition Date_now_string : M jsstring :=
  t <- next_tick ;; ret (Date_now rt t).

Definition Math_random_string : M jsstring :=
  t <- next_tick ;; ret (Math_random rt t).

Definition Math_random_base36 : M jsstring :=
  t <- next_tick ;; ret (Math_random_toString36 rt t).

(** [blink.auth.me()] *)
Definition blink_auth_me : M (option User) :=
  t <- next_tick ;; lift (auth_me bk t).

(** [blink.data.scrape(url)] *)
Definition blink_data_scrape (url : jsstring) : M (list Link) :=
  t <- next_tick ;; lift (data_scrape bk t url).

(** [blink.data.extractFromUrl(url)] *)
Definition blink_data_extractFromUrl (url : jsstring) : M jsstring :=
  t <- next_tick ;; lift (data_extractFromUrl bk t url).

(** Modelled from the spec: the document store of the hosted backend,
    which the repository only calls (section 6: [list(collection, {where,
    orderBy, limit})], [create(collection, record)], [update(collection,
    id, patch)]).  A collection is the list of its rows in the order of
    their creation.  Every call is recorded; it throws, and does nothing
    else, when the backend faults at this call. *)
Definition db_call (c : DbCall) : M unit :=
  record_call c ;;
  t <- next_tick ;;
  match db_fault bk t with
  | Some e => throw e
  | None => ret tt
  end.

(** Modelled from the spec: [blink.db.newsSources.list({ where, orderBy })]
    returns the rows that have every field of [where], sorted when
    [orderBy] is given. *)
Definition db_newsSources_list (where_ : SourceRow.fields)
    (orderBy : option (SourceRow.field * direction)) : M (list SourceRow.t) :=
  db_call (SourcesList where_ orderBy) ;;
  fun w => (Ret (order_rows SourceRow.get orderBy
                   (filter (SourceRow.matches where_) (newsSources w))), w).

(** Modelled from the spec: [blink.db.newsSources.create(row)] adds the
    row. *)
Definition db_newsSources_create (row : SourceRow.t) : M unit :=
  db_call (SourcesCreate row) ;;
  set_newsSources (fun l => l ++ [row]).

(** Modelled from the spec: [blink.db.articles.list({ where, orderBy,
    limit })] returns the rows that have every field of [where], sorted
    when [orderBy] is given, and at most [limit] of them. *)
Definition db_articles_list (where_ : ArticleRow.fields)
    (orderBy : option (ArticleRow.field * direction)) (limit : option nat)
    : M (list ArticleRow.t) :=
  db_call (ArticlesList where_ orderBy limit) ;;
  fun w => (Ret (limit_rows limit
                   (order_rows (fun f r => Some (ArticleRow.get f r)) orderBy
                      (filter (ArticleRow.matches where_) (articles w)))), w).

(** Modelled from the spec: [blink.db.articles.create(row)] adds the
    row. *)
Definition db_articles_create (row : ArticleRow.t) : M unit :=
  db_call (ArticlesCreate row) ;;
  set_articles (fun l => l ++ [row]).

(** Modelled from the spec: [blink.db.articles.update(id, patch)]; the
    rows with this id take the fields of the patch, and the call carries
    nothing else than the id and the patch. *)
Definition db_articles_update (id : jsstring) (patch : ArticleRow.fields) : M unit :=
  db_call (ArticlesUpdate id patch) ;;
  set_articles (map (fun r => if JS.eqb (ArticleRow.id r) id
                              then ArticleRow.patch patch r else r)).

(** *** parseRSSContent, lines 305-372 *)

(** Lines 316-321. *)
Definition scan_title (line : jsstring) (currentArticle : Partial.t) : Partial.t :=
  if includes line (lit "<title>") && negb (includes line (lit "<![CDATA[")) then
    let title := trim (strip_tags line) in
    if truthy title && negb (JS.eqb title (lit "RSS")) && (10 <? List.length title)%nat
    then Partial.with_title title currentArticle
    else currentArticle
  else currentArticle.

(** Lines 323-328. *)
Definition scan_description (line : jsstring) (currentArticle : Partial.t) : Partial.t :=
  if includes line (lit "<description>") || includes line (lit "<summary>") then
    let description := trim (strip_tags line) in
    if truthy description && (20 <? List.length description)%nat
    then Partial.with_description (substring0 300 description) currentArticle
    else currentArticle
  else currentArticle.

(** Lines 330-335. *)
Definition scan_link (line : jsstring) (currentArticle : Partial.t) : Partial.t :=
  if includes line (lit "<link>") && negb (includes line (lit "</link>")) then
    let url := trim (strip_tags line) in
    if startsWith url (lit "http")
    then Partial.with_url url currentArticle
    else currentArticle
  else currentArticle.

(** Lines 337-344. *)
Definition scan_date (line : jsstring) (currentArticle : Partial.t) : M Partial.t :=
  if includes line (lit "<pubDate>") || includes line (lit "<published>") then
    let dateStr := trim (strip_tags line) in
    try_catch
      (iso <- lift (Date_toISOString rt dateStr) ;;
       ret (Partial.with_publishedAt iso currentArticle))
      (fun _ =>
       iso <- new_Date_toISOString ;;
       ret (Partial.with_publishedAt iso currentArticle))
  else ret currentArticle.

(** Lines 347-365. *)
Definition emit (st : Partial.t * list Article.t) : M (Partial.t * list Article.t) :=
  let (currentArticle, articles) := st in
  if otruthy (Partial.title currentArticle) && otruthy (Partial.url currentArticle)
     && (List.length articles <? 20)%nat
  then
    now_ <- Date_now_string ;;
    rnd <- Math_random_string ;;
    publishedAt <- (if otruthy (Partial.publishedAt currentArticle)
                    then ret (or_else (Partial.publishedAt currentArticle) [])
                    else new_Date_toISOString) ;;
    createdAt <- new_Date_toISOString ;;
    ret (Partial.empty,
         articles ++
         [Article.mk (lit "temp_" ++ now_ ++ lit "_" ++ rnd) [] []
            (or_else (Partial.title currentArticle) [])
            (or_else (Partial.description currentArticle) [])
            []
            (or_else (Partial.url currentArticle) [])
            []
            publishedAt
            (lit "general") false false [] createdAt])
  else ret st.

(** The body of the loop over the lines, lines 315-366. *)
Definition scan_line (st : Partial.t * list Article.t) (line : jsstring)
    : M (Partial.t * list Article.t) :=
  let (currentArticle, articles) := st in
  let currentArticle := scan_title line currentArticle in
  let currentArticle := scan_description line currentArticle in
  let currentArticle := scan_link line currentArticle in
  currentArticle <- scan_date line currentArticle ;;
  emit (currentArticle, articles).

(** The loop of lines 315-366 inside its [try]: the variables of the loop
    as they stand when the loop ends or when an iteration throws, with the
    exception in the second case. *)
Fixpoint scan_lines (lines : list jsstring) (st : Partial.t * list Article.t)
    (w : World) : (Partial.t * list Article.t) * option exn * World :=
  match lines with
  | [] => (st, None, w)
  | line :: lines' =>
      match scan_line st line w with
      | (Ret st', w') => scan_lines lines' st' w'
      | (Throw error, w') => (st, Some error, w')
      end
  end.

Definition parseRSSContent (content sourceUrl : jsstring) : M (list Article.t) :=
  fun w =>
    match scan_lines (split_lf content) (Partial.empty, []) w with
    | (st, None, w') => (Ret (snd st), w')
    | (st, Some error, w') =>
        (console_error (lit "Error parsing RSS content:") error ;;
         ret (snd st)) w'
    end.

(** *** fetchRSSFeed, lines 6-18 *)

Definition fetchRSSFeed (url : jsstring) : M (list Article.t) :=
  try_catch
    (rssContent <- blink_data_extractFromUrl url ;;
     articles <- parseRSSContent rssContent url ;;
     ret articles)
    (fun error =>
     console_error (lit "Error fetching RSS feed:") error ;;
     ret []).

(** *** discoverRSSFeed, lines 21-57 *)

(** [h?.includes(sub)] *)
Definition opt_includes (o : option jsstring) (sub : jsstring) : bool :=
  match o with
  | Some s => includes s sub
  | None => false
  end.

(** The predicate given to [links.find], lines 26-32. *)
Definition is_rss_link (link : Link) : bool :=
  opt_includes (href link) (lit "rss") ||
  opt_includes (href link) (lit "feed") ||
  opt_includes (href link) (lit "atom") ||
  opt_includes (option_map (toLowerCase rt) (text link)) (lit "rss") ||
  opt_includes (option_map (toLowerCase rt) (text link)) (lit "feed").

Definition commonPaths : list jsstring :=
  [lit "/rss"; lit "/feed"; lit "/rss.xml"; lit "/feed.xml"; lit "/atom.xml"].

(** The loop of lines 42-50; [Some testUrl] is the [return] inside it. *)
Fixpoint probe_paths (paths : list jsstring) (websiteUrl : jsstring)
    : M (option jsstring) :=
  match paths with
  | [] => ret None
  | path :: paths' =>
      found <- try_catch
                 (testUrl <- lift (URL_toString rt path websiteUrl) ;;
                  blink_data_extractFromUrl testUrl ;;
                  ret (Some testUrl))
                 (fun _ => ret None) ;;
      match found with
      | Some testUrl => ret (Some testUrl)
      | None => probe_paths paths' websiteUrl
      end
  end.

Definition discoverRSSFeed (websiteUrl : jsstring) : M (option jsstring) :=
  try_catch
    (links <- blink_data_scrape websiteUrl ;;
     let rssLink := find is_rss_link links in
     if otruthy (match rssLink with Some l => href l | None => None end) then
       url <- lift (URL_toString rt
                      (or_else (match rssLink with Some l => href l | None => None end) [])
                      websiteUrl) ;;
       ret (Some url)
     else
       probe_paths commonPaths websiteUrl)
    (fun error =>
     console_error (lit "Error discovering RSS feed:") error ;;
     ret None).

(** *** refreshSourceArticles, lines 175-224 *)

(** The body of the loop over the new articles, lines 193-219. *)
Definition save_if_new (user : User) (source : SourceRow.t) (article : Article.t)
    : M unit :=
  let contentHash :=
    generateContentHash (Article.title article ++ Article.description article) in
  existing <- db_articles_list
                [(ArticleRow.FuserId, user_id user);
                 (ArticleRow.FcontentHash, contentHash)] None None ;;
  if (List.length existing =? 0)%nat then
    now_ <- Date_now_string ;;
    rnd <- Math_random_base36 ;;
    let articleId := lit "article_" ++ now_ ++ lit "_" ++ substr 2 9 rnd in
    publishedAt <- (if truthy (Article.publishedAt article)
                    then ret (Article.publishedAt article)
                    else new_Date_toISOString) ;;
    createdAt <- new_Date_toISOString ;;
    db_articles_create
      (ArticleRow.mk articleId (user_id user) (SourceRow.id source)
         (Article.title article)
         (or_str (Article.description article) [])
         (or_str (Article.content article) [])
         (Article.url article)
         (or_str (Article.imageUrl article) [])
         publishedAt
         (SourceRow.category source)
         (lit "0") (lit "0") contentHash createdAt)
  else ret tt.

(** The loop of lines 192-220. *)
Definition save_new_articles (user : User) (source : SourceRow.t)
    (newArticles : list Article.t) : M unit :=
  for_of newArticles (fun _ article => save_if_new user source article) tt.

Definition refreshSourceArticles (sourceId : jsstring) : M unit :=
  try_catch
    (user <- blink_auth_me ;;
     match user with
     | None => ret tt
     | Some user =>
         sources <- db_newsSources_list
                      [(SourceRow.Fid, sourceId);
                       (SourceRow.FuserId, user_id user)] None ;;
         match sources with
         | [] => ret tt
         | source :: _ =>
             if negb (otruthy (SourceRow.rssUrl source)) then ret tt
             else
               newArticles <- fetchRSSFeed (or_else (SourceRow.rssUrl source) []) ;;
               save_new_articles user source newArticles
         end
     end)
    (fun error =>
     console_error (lit "Error refreshing source articles:") error).

(** *** addNewsSource, lines 60-105 *)

Definition addNewsSource (name url category : jsstring) : M NewsSource.t :=
  try_catch
    (user <- blink_auth_me ;;
     match user with
     | None => throw (Error (lit "User not authenticated"))
     | Some user =>
         rssUrl <- discoverRSSFeed url ;;
         if negb (otruthy rssUrl) then
           throw (Error (lit "Could not find RSS feed for this website"))
         else
           now_ <- Date_now_string ;;
           rnd <- Math_random_base36 ;;
           let sourceId := lit "source_" ++ now_ ++ lit "_" ++ substr 2 9 rnd in
           createdAt <- new_Date_toISOString ;;
           updatedAt <- new_Date_toISOString ;;
           let source :=
             NewsSource.mk sourceId (user_id user) name url rssUrl category true
               createdAt updatedAt in
           rowCreatedAt <- new_Date_toISOString ;;
           rowUpdatedAt <- new_Date_toISOString ;;
           db_newsSources_create
             (SourceRow.mk sourceId (user_id user) name url rssUrl category
                (lit "1") rowCreatedAt rowUpdatedAt) ;;
           refreshSourceArticles sourceId ;;
           ret source
     end)
    (fun error =>
     console_error (lit "Error adding news source:") error ;;
     throw error).

(** *** getUserSources, lines 108-133 *)

Definition to_NewsSource (source : SourceRow.t) : NewsSource.t :=
  NewsSource.mk (SourceRow.id source) (SourceRow.userId source)
    (SourceRow.name source) (SourceRow.url source) (SourceRow.rssUrl source)
    (SourceRow.category source) (Number_gt0 rt (SourceRow.isActive source))
    (SourceRow.createdAt source) (SourceRow.updatedAt source).

Definition getUserSources : M (list NewsSource.t) :=
  try_catch
    (user <- blink_auth_me ;;
     match user with
     | None => ret []
     | Some user =>
         sources <- db_newsSources_list
                      [(SourceRow.FuserId, user_id user);
                       (SourceRow.FisActive, lit "1")]
                      (Some (SourceRow.FcreatedAt, desc)) ;;
         ret (map to_NewsSource sources)
     end)
    (fun error =>
     console_error (lit "Error getting user sources:") error ;;
     ret []).

(** *** getUserArticles, lines 136-172 *)

Definition to_Article (article : ArticleRow.t) : Article.t :=
  Article.mk (ArticleRow.id article) (ArticleRow.userId article)
    (ArticleRow.sourceId article) (ArticleRow.title article)
    (ArticleRow.description article) (ArticleRow.content article)
    (ArticleRow.url article) (ArticleRow.imageUrl article)
    (ArticleRow.publishedAt article) (ArticleRow.category article)
    (Number_gt0 rt (ArticleRow.isBookmarked article))
    (Number_gt0 rt (ArticleRow.isRead article))
    (ArticleRow.contentHash article) (ArticleRow.createdAt article).

(** [category] and [limit] are optional; [limit] defaults to 50. *)
Definition getUserArticles (category : option jsstring) (limit : option nat)
    : M (list Article.t) :=
  let limit := match limit with Some n => n | None => 50%nat end in
  try_catch
    (user <- blink_auth_me ;;
     match user with
     | None => ret []
     | Some user =>
         let whereClause := [(ArticleRow.FuserId, user_id user)] in
         let whereClause :=
           if otruthy category && negb (JS.eqb (or_else category []) (lit "all"))
           then whereClause ++ [(ArticleRow.Fcategory, or_else category [])]
           else whereClause in
         articles <- db_articles_list whereClause
                       (Some (ArticleRow.FpublishedAt, desc)) (Some limit) ;;
         ret (map to_Article articles)
     end)
    (fun error =>
     console_error (lit "Error getting user articles:") error ;;
     ret []).

(** *** toggleBookmark, lines 227-247 *)

Definition toggleBookmark (articleId : jsstring) : M unit :=
  try_catch
    (user <- blink_auth_me ;;
     match user with
     | None => ret tt
     | Some user =>
         articles <- db_articles_list
                       [(ArticleRow.Fid, articleId);
                        (ArticleRow.FuserId, user_id user)] None None ;;
         match articles with
         | article :: _ =>
             let newBookmarkStatus :=
               if Number_gt0 rt (ArticleRow.isBookmarked article)
               then lit "0" else lit "1" in
             db_articles_update articleId
               [(ArticleRow.FisBookmarked, newBookmarkStatus)]
         | [] => ret tt
         end
     end)
    (fun error =>
     console_error (lit "Error toggling bookmark:") error).

(** *** markAsRead, lines 250-261 *)

Definition markAsRead (articleId : jsstring) : M unit :=
  try_catch
    (user <- blink_auth_me ;;
     match user with
     | None => ret tt
     | Some user =>
         db_articles_update articleId [(ArticleRow.FisRead, lit "1")]
     end)
    (fun error =>
     console_error (lit "Error marking article as read:") error).

(** *** searchArticles, lines 264-302 *)

Definition searchArticles (query : jsstring) : M (list Article.t) :=
  try_catch
    (user <- blink_auth_me ;;
     match user with
     | None => ret []
     | Some user =>
         articles <- db_articles_list
                       [(ArticleRow.FuserId, user_id user)]
                       (Some (ArticleRow.FpublishedAt, desc)) (Some 100%nat) ;;
         let searchTerm := toLowerCase rt query in
         ret (map to_Article
                (filter (fun article =>
                           includes (toLowerCase rt (ArticleRow.title article)) searchTerm ||
                           includes (toLowerCase rt (ArticleRow.description article)) searchTerm)
                        articles))
     end)
    (fun error =>
     console_error (lit "Error searching articles:") error ;;
     ret []).

(** A sequence of ingestion calls, one after the other. *)
Fixpoint refresh_all (sourceIds : list jsstring) (w : World) : World :=
  match sourceIds with
  | [] => w
  | sourceId :: rest => refresh_all rest (snd (refreshSourceArticles sourceId w))
  end.

End Service.

Arguments refresh_all rt bk sourceIds w : simpl nomatch.

(** ** The discoverer in the words of the specification *)

Section SpecDiscover.

Context (rt : Runtime) (bk : Backend).

(** A link whose target or visible text contains, whatever the case, one
    of "rss", "feed", "atom". *)
Definition spec_is_feed_link (link : Link) : bool :=
  existsb (fun word =>
             opt_includes (option_map (toLowerCase rt) (href link)) word ||
             opt_includes (option_map (toLowerCase rt) (text link)) word)
          [lit "rss"; lit "feed"; lit "atom"].

(** Step 1 returns the first such link, resolved against the site; an
    error on one candidate means the next candidate is tried; step 2
    probes the conventional paths in order; NotFound only once every
    candidate is exhausted. *)
Definition spec_discover (siteUrl : jsstring) : M (option jsstring) :=
  found <- try_catch
             (links <- blink_data_scrape bk siteUrl ;;
              match find spec_is_feed_link links with
              | Some link =>
                  feed <- lift (URL_toString rt (or_else (href link) []) siteUrl) ;;
                  ret (Some feed)
              | None => ret None
              end)
             (fun _ => ret None) ;;
  match found with
  | Some feed => ret (Some feed)
  | None => probe_paths rt bk commonPaths siteUrl
  end.

End SpecDiscover.

(** ** A concrete platform, for running the service on examples *)

Module Sample.

(** Lower case on Basic Latin; enough for the examples, which use no
    other letters. *)
Definition latin_toLowerCase (s : jsstring) : jsstring :=
  map (fun c => if (65 <=? c) && (c <=? 90) then c + 32 else c) s.

(** [Number(s) > 0] on strings of decimal digits. *)
Definition digits_gt0 (s : jsstring) : bool :=
  forallb (fun c => (48 <=? c) && (c <=? 57)) s &&
  existsb (fun c => negb (c =? 48)) s.

(** Absolute references stand; a path is appended to the base, which is
    what [new URL] gives for a base that is an origin with no path of its
    own, as in the examples. *)
Definition join_URL (rel base : jsstring) : outcome jsstring :=
  if startsWith rel (lit "http") then Ret rel else Ret (base ++ rel).

(** Every date string is taken as it is. *)
Definition echo_Date (s : jsstring) : outcome jsstring :=
  match s with
  | [] => Throw (Error (lit "Invalid time value"))
  | _ :: _ => Ret s
  end.

Definition runtime : Runtime :=
  {| toLowerCase := latin_toLowerCase;
     Number_gt0 := digits_gt0;
     URL_toString := join_URL;
     Date_toISOString := echo_Date;
     now_toISOString := fun t => lit "2024-01-01T00:00:00.000Z";
     Date_now := fun t => Number_toString (Z.of_nat t);
     Math_random := fun t => lit "0.5";
     Math_random_toString36 := fun t => lit "0.i" ++ Number_toString (Z.of_nat t) |}.

Definition alice : User := {| user_id := lit "alice" |}.
Definition bob : User := {| user_id := lit "bob" |}.

(** A backend on which [me] is signed in, every page has the links
    [links], every URL serves [feed], and the store never faults. *)
Definition backend (me : option User) (links : outcome (list Link))
    (feed : jsstring -> outcome jsstring) : Backend :=
  {| auth_me := fun _ => Ret me;
     data_scrape := fun _ _ => links;
     data_extractFromUrl := fun _ url => feed url;
     db_fault := fun _ => None |}.

Definition empty_world : World := mkWorld [] [] 0 [] [].

Definition source_row (id userId : string) (rssUrl : option jsstring) : SourceRow.t :=
  SourceRow.mk (lit id) (lit userId) (lit "Example") (lit "https://example.org")
    rssUrl (lit "technology") (lit "1") [] [].

Definition article_row (id userId : string) (h : jsstring) (flag : jsstring)
    : ArticleRow.t :=
  ArticleRow.mk (lit id) (lit userId) (lit "s1") (lit "A title long enough")
    [] [] (lit "http://x.com/a") [] [] (lit "technology") flag (lit "0") h [].

Definition lf : jsstring := [10].

(** Scenario 1 of the specification: one line and nothing else. *)
Definition scenario1 : jsstring :=
  lit "<title>Example Article Title</title><link>http://x.com/a</link>".

(** The same title and link on lines of their own, the link line
    without its closing tag. *)
Definition two_lines : jsstring :=
  lit "<title>Example Article Title</title>" ++ lf ++ lit "<link>http://x.com/a".

End Sample.

(** ** Predicates used in the statements *)

(** A title the noise filter rejects: exactly "RSS", or shorter than 11
    code units. *)
Definition noise_title (t : jsstring) : Prop :=
  t = lit "RSS" \/ (List.length t < 11)%nat.

(** A candidate as the parser bound promises it. *)
Definition well_formed_candidate (a : Article.t) : Prop :=
  Article.title a <> [] /\ startsWith (Article.url a) (lit "http") = true.

(** What the deduplication reads of a candidate. *)
Definition candidate_key (a : Article.t) : jsstring * jsstring :=
  (Article.title a, Article.description a).

(** The part of the in-progress candidate that decides what is emitted. *)
Definition partial_key (p : Partial.t)
    : option jsstring * option jsstring * option jsstring :=
  (Partial.title p, Partial.description p, Partial.url p).

(** The in-progress candidate holds no noise title and no url that is not
    an http url. *)
Definition clean_partial (p : Partial.t) : Prop :=
  (forall t, Partial.title p = Some t ->
             (10 < List.length t)%nat /\ t <> lit "RSS") /\
  (forall u, Partial.url p = Some u -> startsWith u (lit "http") = true).

Definition clean_candidate (a : Article.t) : Prop :=
  (10 < List.length (Article.title a))%nat /\ Article.title a <> lit "RSS" /\
  startsWith (Article.url a) (lit "http") = true.

Definition clean_state (st : Partial.t * list Article.t) : Prop :=
  clean_partial (fst st) /\ (List.length (snd st) <= 20)%nat /\
  Forall clean_candidate (snd st).

(** Two scanner states that agree on what decides the candidates. *)
Definition state_sim (st1 st2 : Partial.t * list Article.t) : Prop :=
  partial_key (fst st1) = partial_key (fst st2) /\
  map candidate_key (snd st1) = map candidate_key (snd st2).

(** The world after one call on the platform. *)
Definition ticked (w : World) : World :=
  mkWorld (newsSources w) (articles w) (S (tick w)) (console w) (calls w).

(** The world after the store call [c] was issued. *)
Definition called (c : DbCall) (w : World) : World :=
  mkWorld (newsSources w) (articles w) (S (tick w)) (console w) (calls w ++ [c]).

(** The rows of the two collections are the same. *)
Definition same_rows (w w' : World) : Prop :=
  newsSources w' = newsSources w /\ articles w' = articles w.

(** The sources with this id that this user owns. *)
Definition owned_sources (sourceId uid : jsstring) (l : list SourceRow.t)
    : list SourceRow.t :=
  filter (fun r => JS.eqb (SourceRow.id r) sourceId &&
                   JS.eqb (SourceRow.userId r) uid) l.

(** The articles of this user with this fingerprint. *)
Definition owned_with_hash (uid h : jsstring) (l : list ArticleRow.t)
    : list ArticleRow.t :=
  filter (fun r => JS.eqb (ArticleRow.userId r) uid &&
                   JS.eqb (ArticleRow.contentHash r) h) l.

(** The articles with this id that this user owns. *)
Definition owned_articles (articleId uid : jsstring) (l : list ArticleRow.t)
    : list ArticleRow.t :=
  filter (fun r => JS.eqb (ArticleRow.id r) articleId &&
                   JS.eqb (ArticleRow.userId r) uid) l.

(** A backend whose store never faults. *)
Definition store_reliable (bk : Backend) : Prop :=
  forall t, db_fault bk t = None.

(** A backend on which the same user stays signed in and every url keeps
    serving the same content. *)
Definition static_backend (bk : Backend) (me : option User)
    (feed : jsstring -> outcome jsstring) : Prop :=
  (forall t, auth_me bk t = Ret me) /\
  (forall t url, data_extractFromUrl bk t url = feed url) /\
  store_reliable bk.

(** The articles that belong to other users than [uid]. *)
Definition foreign_rows (uid : jsstring) (l : list ArticleRow.t)
    : list ArticleRow.t :=
  filter (fun r => negb (JS.eqb (ArticleRow.userId r) uid)) l.

(** The other value of a stored flag. *)
Definition flipped (flag : jsstring) : jsstring :=
  if JS.eqb flag (lit "0") then lit "1" else lit "0".

(** The world after an error was logged under [label]. *)
Definition logged (label : jsstring) (error : exn) (w : World) : World :=
  mkWorld (newsSources w) (articles w) (tick w)
          (console w ++ [(label, error)]) (calls w).

(** The world after [n] more calls on the platform. *)
Definition ticked_by (n : nat) (w : World) : World :=
  mkWorld (newsSources w) (articles w) (n + tick w) (console w) (calls w).

(** The paths taken in order, from the call numbered [t] on: a path that
    does not resolve against the site is passed over with no fetch; a path
    that resolves is fetched, and the first whose fetch succeeds is the
    answer; there is no answer when the paths are exhausted.  The answer,
    and the number of fetches made. *)
Fixpoint first_fetched (rt : Runtime) (bk : Backend) (paths : list jsstring)
    (websiteUrl : jsstring) (t : nat) : option jsstring * nat :=
  match paths with
  | [] => (None, 0%nat)
  | path :: rest =>
      match URL_toString rt path websiteUrl with
      | Ret testUrl =>
          match data_extractFromUrl bk t testUrl with
          | Ret _ => (Some testUrl, 1%nat)
          | Throw _ =>
              let (found, fetches) :=
                first_fetched rt bk rest websiteUrl (S t) in
              (found, S fetches)
          end
      | Throw _ => first_fetched rt bk rest websiteUrl t
      end
  end.

(** What a candidate takes from the feed text: its title, description
    and url.  Its id and dates come from the clock and the random
    generator. *)
Definition candidate_fields (a : Article.t) : jsstring * jsstring * jsstring :=
  (Article.title a, Article.description a, Article.url a).

(** Two scanner states that agree on what is taken from the text. *)
Definition fields_sim (st1 st2 : Partial.t * list Article.t) : Prop :=
  partial_key (fst st1) = partial_key (fst st2) /\
  map candidate_fields (snd st1) = map candidate_fields (snd st2).

(** The three words of the link scan. *)
Definition feed_words : list jsstring := [lit "rss"; lit "feed"; lit "atom"].

(** A lower-casing under which a string that contains one of the words,
    written in lower case, still contains it. *)
Definition lower_keeps (rt : Runtime) (words : list jsstring) : Prop :=
  forall s word, In word words ->
    includes s word = true -> includes (toLowerCase rt s) word = true.

(** The message of the error that [addNewsSource] raises when no feed is
    found. *)
Definition feed_not_found : exn :=
  Error (lit "Could not find RSS feed for this website").

(** The row a candidate is saved as: owner, fingerprint and the fields
    copied from the candidate. *)
Definition row_of (user : User) (a : Article.t) (row : ArticleRow.t) : Prop :=
  ArticleRow.userId row = user_id user /\
  ArticleRow.contentHash row =
    fingerprint (Article.title a) (Article.description a) /\
  ArticleRow.title row = Article.title a /\
  ArticleRow.description row = Article.description a /\
  ArticleRow.url row = Article.url a.

(** The two collections and the record of store calls are the same. *)
Definition same_store (w w' : World) : Prop :=
  newsSources w' = newsSources w /\ articles w' = articles w /\
  calls w' = calls w.

(** A computation that leaves the store and the record of calls alone. *)
Definition store_free {A} (m : M A) : Prop :=
  forall w, same_store w (snd (m w)).

(** A computation that never throws. *)
Definition total {A} (m : M A) : Prop :=
  forall w, exists a, fst (m w) = Ret a.

(** The fingerprints of the articles a user owns. *)
Definition hashes_of (uid : jsstring) (l : list ArticleRow.t) : list jsstring :=
  map ArticleRow.contentHash
      (filter (fun r => JS.eqb (ArticleRow.userId r) uid) l).

(** The deduplication invariant: no user owns two articles with the same
    fingerprint. *)
Definition dedup_invariant (l : list ArticleRow.t) : Prop :=
  forall uid, NoDup (hashes_of uid l).

(** ** The application component and the share text *)

(** The state of the application component that its handlers read and
    set: the user as the component knows it, the sources and the articles
    on display, the search results, the refresh indicator, the toasts
    shown so far (title and description), and the windows opened so far
    (url and target). *)
Record AppState := mkAppState {
  app_user : option User;
  app_sources : list NewsSource.t;
  app_articles : list Article.t;
  app_searchResults : list Article.t;
  app_isRefreshing : bool;
  app_toasts : list (jsstring * jsstring);
  app_opened : list (jsstring * jsstring) }.

Definition setSources (sources : list NewsSource.t) (st : AppState) : AppState :=
  mkAppState (app_user st) sources (app_articles st) (app_searchResults st)
    (app_isRefreshing st) (app_toasts st) (app_opened st).

Definition setArticles (articles : list Article.t) (st : AppState) : AppState :=
  mkAppState (app_user st) (app_sources st) articles (app_searchResults st)
    (app_isRefreshing st) (app_toasts st) (app_opened st).

Definition setSearchResults (results : list Article.t) (st : AppState) : AppState :=
  mkAppState (app_user st) (app_sources st) (app_articles st) results
    (app_isRefreshing st) (app_toasts st) (app_opened st).

Definition setIsRefreshing (b : bool) (st : AppState) : AppState :=
  mkAppState (app_user st) (app_sources st) (app_articles st)
    (app_searchResults st) b (app_toasts st) (app_opened st).

Definition toast (title description : jsstring) (st : AppState) : AppState :=
  mkAppState (app_user st) (app_sources st) (app_articles st)
    (app_searchResults st) (app_isRefreshing st)
    (app_toasts st ++ [(title, description)]) (app_opened st).

(** [window.open(url, target)] *)
Definition window_open (url target : jsstring) (st : AppState) : AppState :=
  mkAppState (app_user st) (app_sources st) (app_articles st)
    (app_searchResults st) (app_isRefreshing st) (app_toasts st)
    (app_opened st ++ [(url, target)]).

(** [error.message]; every exception of the model is an [Error] object. *)
Definition error_message (error : exn) : jsstring :=
  match error with Error message => message end.

(** [{ ...a, isRead: true }] *)
Definition set_isRead (a : Article.t) : Article.t :=
  Article.mk (Article.id a) (Article.userId a) (Article.sourceId a)
    (Article.title a) (Article.description a) (Article.content a)
    (Article.url a) (Article.imageUrl a) (Article.publishedAt a)
    (Article.category a) (Article.isBookmarked a) true
    (Article.contentHash a) (Article.createdAt a).

(** The update given to [setArticles] by [handleReadArticle]. *)
Definition read_mark_of (articleId : jsstring) (prev : list Article.t)
    : list Article.t :=
  map (fun a => if JS.eqb (Article.id a) articleId then set_isRead a else a)
      prev.

(** [{ ...article, isBookmarked: !article.isBookmarked }] *)
Definition flip_isBookmarked (article : Article.t) : Article.t :=
  Article.mk (Article.id article) (Article.userId article)
    (Article.sourceId article) (Article.title article)
    (Article.description article) (Article.content article)
    (Article.url article) (Article.imageUrl article)
    (Article.publishedAt article) (Article.category article)
    (negb (Article.isBookmarked article)) (Article.isRead article)
    (Article.contentHash article) (Article.createdAt article).

(** The update given to [setArticles] and [setSearchResults] by
    [handleBookmark]. *)
Definition flip_bookmark_of (articleId : jsstring) (prev : list Article.t)
    : list Article.t :=
  map (fun article => if JS.eqb (Article.id article) articleId
                      then flip_isBookmarked article else article) prev.

Section App.

Context (rt : Runtime) (bk : Backend).

(** [handleBookmark] of the application component, lines 134-161: the
    service call, then the update of the articles on display and, when
    there are any, of the search results. *)
Definition handleBookmark (articleId : jsstring) (st : AppState) : M AppState :=
  try_catch
    (toggleBookmark rt bk articleId ;;
     let st1 := setArticles (flip_bookmark_of articleId (app_articles st)) st in
     let st2 :=
       if (0 <? List.length (app_searchResults st))%nat
       then setSearchResults
              (flip_bookmark_of articleId (app_searchResults st1)) st1
       else st1 in
     ret st2)
    (fun error =>
     console_error (lit "Error toggling bookmark:") error ;;
     ret (toast (lit "Error") (lit "Failed to update bookmark") st)).

(** [handleRefresh] of the application component, lines 104-132: nothing
    without a user; otherwise one ingestion per source on display, one
    after the other, then the articles are read again; the indicator is
    set before and cleared in [finally]. *)
Definition handleRefresh (st : AppState) : M AppState :=
  match app_user st with
  | None => ret st
  | Some _ =>
      let st := setIsRefreshing true st in
      st' <- try_catch
               (for_of (app_sources st)
                  (fun _ source =>
                     refreshSourceArticles rt bk (NewsSource.id source)) tt ;;
                updatedArticles <- getUserArticles rt bk None None ;;
                ret (toast (lit "Refreshed")
                       (lit "Your news feed has been updated")
                       (setArticles updatedArticles st)))
               (fun error =>
                console_error (lit "Error refreshing:") error ;;
                ret (toast (lit "Refresh Error")
                       (lit "Failed to refresh news feed") st)) ;;
      ret (setIsRefreshing false st')
  end.

(** [handleReadArticle] of the application component, lines 188-203: the
    read mark in the store, then on display; whatever happened, the
    article is opened in a new tab. *)
Definition handleReadArticle (article : Article.t) (st : AppState) : M AppState :=
  st <- try_catch
          (markAsRead bk (Article.id article) ;;
           ret (setArticles
                  (read_mark_of (Article.id article) (app_articles st)) st))
          (fun error =>
           console_error (lit "Error marking article as read:") error ;;
           ret st) ;;
  ret (window_open (Article.url article) (lit "_blank") st).

(** [handleAddSource] of the application component, lines 205-233.  The
    source returned by the service is an object, hence truthy.  An error
    of the service call finds the component as it was; an error of the
    reload finds it with the new source on display. *)
Definition handleAddSource (name url category : jsstring) (st : AppState)
    : M AppState :=
  let on_error (st : AppState) (error : exn) : M AppState :=
    console_error (lit "Error adding source:") error ;;
    ret (toast (lit "Error") (error_message error) st) in
  try_catch
    (newSource <- addNewsSource rt bk name url category ;;
     let st := setSources (app_sources st ++ [newSource]) st in
     try_catch
       (updatedArticles <- getUserArticles rt bk None None ;;
        ret (toast (lit "Source Added")
               (name ++ lit " has been added to your news sources")
               (setArticles updatedArticles st)))
       (on_error st))
    (on_error st).

(** [SocialShareService.generateShareText], lines 85-121 of
    [socialShareService.ts].  The [switch] compares the platform in lower
    case with each label in turn. *)
Definition generateShareText (article : Article.t) (platform : jsstring)
    (customMessage : option jsstring) : jsstring :=
  let baseMessage := or_else customMessage (Article.title article) in
  let url := or_str (Article.url article) [] in
  let nl := [10] in
  let news := [240; 376; 8220; 176] in
  let p := toLowerCase rt platform in
  if JS.eqb p (lit "twitter") then
    let maxLength := 280 - Z.of_nat (List.length url) - 3 in
    let truncatedMessage :=
      if maxLength <? Z.of_nat (List.length baseMessage)
      then substring0 (Z.to_nat (maxLength - 3)) baseMessage ++ lit "..."
      else baseMessage in
    truncatedMessage ++ lit " " ++ url
  else if JS.eqb p (lit "linkedin") then
    if otruthy customMessage
    then or_else customMessage [] ++ nl ++ nl ++ Article.title article ++ nl ++ url
    else lit "Interesting read: " ++ Article.title article ++ nl ++ nl ++
         or_str (Article.description article) [] ++ nl ++ nl ++ url
  else if JS.eqb p (lit "facebook") then
    if otruthy customMessage
    then or_else customMessage [] ++ nl ++ nl ++ url
    else Article.title article ++ nl ++ nl ++ url
  else if JS.eqb p (lit "whatsapp") || JS.eqb p (lit "telegram") then
    if otruthy customMessage
    then or_else customMessage [] ++ nl ++ nl ++ news ++ lit " " ++
         Article.title article ++ nl ++ nl ++ url
    else news ++ lit " " ++ Article.title article ++ nl ++ nl ++
         or_str (Article.description article) [] ++ nl ++ nl ++ url
  else baseMessage ++ nl ++ nl ++ url.

End App.

(** ** Further predicates *)

(** A line from which the scan takes a url. *)
Definition is_link_line (line : jsstring) : bool :=
  includes line (lit "<link>") && negb (includes line (lit "</link>")) &&
  startsWith (trim (strip_tags line)) (lit "http").

(** A line from which the scan takes a title. *)
Definition is_title_line (line : jsstring) : bool :=
  includes line (lit "<title>") && negb (includes line (lit "<![CDATA[")) &&
  (truthy (trim (strip_tags line)) &&
   negb (JS.eqb (trim (strip_tags line)) (lit "RSS")) &&
   (10 <? List.length (trim (strip_tags line)))%nat).

(** The number of lines that satisfy a test. *)
Definition count_lines (f : jsstring -> bool) (lines : list jsstring) : nat :=
  List.length (filter f lines).

(** What ingestion fixes in a row it creates, beside the fields copied
    from the candidate. *)
Definition ingested_row (user : User) (source : SourceRow.t)
    (row : ArticleRow.t) : Prop :=
  ArticleRow.userId row = user_id user /\
  ArticleRow.sourceId row = SourceRow.id source /\
  ArticleRow.category row = SourceRow.category source /\
  ArticleRow.isBookmarked row = lit "0" /\
  ArticleRow.isRead row = lit "0" /\
  ArticleRow.contentHash row =
    generateContentHash (ArticleRow.title row ++ ArticleRow.description row).

(** The description of a candidate: none, or between 21 and 300 code
    units. *)
Definition bounded_description (a : Article.t) : Prop :=
  Article.description a = [] \/
  (20 < List.length (Article.description a) <= 300)%nat.

(** The fields every candidate of the parser has. *)
Definition blank_candidate (a : Article.t) : Prop :=
  Article.userId a = [] /\ Article.sourceId a = [] /\
  Article.content a = [] /\ Article.imageUrl a = [] /\
  Article.category a = lit "general" /\
  Article.isBookmarked a = false /\ Article.isRead a = false /\
  Article.contentHash a = [].

(** The in-progress description is within the bound. *)
Definition bounded_partial (p : Partial.t) : Prop :=
  forall d, Partial.description p = Some d ->
            (20 < List.length d <= 300)%nat.

(** The fingerprint ingestion computes for a candidate. *)
Definition candidate_fingerprint (a : Article.t) : jsstring :=
  fingerprint (Article.title a) (Article.description a).

(** The fingerprints of a batch that are new: not among [seen] and not
    earlier in the batch, in the order of the batch. *)
Fixpoint first_new (seen hs : list jsstring) : list jsstring :=
  match hs with
  | [] => []
  | h :: hs' =>
      if existsb (JS.eqb h) seen then first_new seen hs'
      else h :: first_new (seen ++ [h]) hs'
  end.

(** The source that [addNewsSource] returns and the row it has persisted. *)
Definition persisted_as (source : NewsSource.t) (row : SourceRow.t) : Prop :=
  SourceRow.id row = NewsSource.id source /\
  SourceRow.userId row = NewsSource.userId source /\
  SourceRow.name row = NewsSource.name source /\
  SourceRow.url row = NewsSource.url source /\
  SourceRow.rssUrl row = NewsSource.rssUrl source /\
  SourceRow.category row = NewsSource.category source /\
  SourceRow.isActive row = lit "1" /\ NewsSource.isActive source = true.

(** A row with its bookmark flag blanked: what [toggleBookmark] must
    leave alone. *)
Definition without_bookmark (r : ArticleRow.t) : ArticleRow.t :=
  ArticleRow.set ArticleRow.FisBookmarked [] r.

(** A row with its read flag blanked: what [markAsRead] must leave alone. *)
Definition without_read (r : ArticleRow.t) : ArticleRow.t :=
  ArticleRow.set ArticleRow.FisRead [] r.

(** The rows after [markAsRead] went through. *)
Definition marked_read (articleId : jsstring) (l : list ArticleRow.t)
    : list ArticleRow.t :=
  map (fun r => if JS.eqb (ArticleRow.id r) articleId
                then ArticleRow.set ArticleRow.FisRead (lit "1") r else r) l.

(** ** The fingerprint is the reference rolling hash *)

Section Fingerprint.

Lemma ToInt32_mod (z : Z) : ToInt32 z mod 2 ^ 32 = z mod 2 ^ 32.
Proof.
  unfold ToInt32. cbv zeta.
  destruct (z mod 2 ^ 32 <? 2 ^ 31).
  - apply Z.mod_mod. lia.
  - rewrite <- (Z.mod_mod z (2 ^ 32)) at 2 by lia.
    rewrite <- (Z_mod_plus_full (z mod 2 ^ 32 - 2 ^ 32) 1 (2 ^ 32)).
    f_equal. lia.
Qed.

Lemma ToInt32_congr (a b : Z) :
  a mod 2 ^ 32 = b mod 2 ^ 32 -> ToInt32 a = ToInt32 b.
Proof. unfold ToInt32. cbv zeta. intros ->. reflexivity. Qed.

Lemma ToInt32_idem (z : Z) : ToInt32 (ToInt32 z) = ToInt32 z.
Proof. apply ToInt32_congr, ToInt32_mod. Qed.

Lemma band_diag (z : Z) : band z z = ToInt32 z.
Proof. unfold band. rewrite Z.land_diag. apply ToInt32_idem. Qed.

Lemma shl5_mod (h : Z) : shl h 5 mod 2 ^ 32 = (h * 32) mod 2 ^ 32.
Proof.
  unfold shl. rewrite ToInt32_mod.
  change (5 mod 32) with 5. rewrite Z.shiftl_mul_pow2 by lia.
  change (2 ^ 5) with 32.
  rewrite Z.mul_mod by lia. rewrite ToInt32_mod.
  rewrite <- Z.mul_mod by lia. reflexivity.
Qed.

(** One iteration of the loop is one step of the reference hash, for
    every accumulator and every code unit. *)
Lemma hash_step_reference (h : Z) (c : code_unit) :
  hash_step h c = spec_hash_step h c.
Proof.
  unfold hash_step, spec_hash_step. cbv zeta. rewrite band_diag.
  change (ToInt32 (shl h 5 - h + c) = ToInt32 (h * 31 + c)).
  apply ToInt32_congr.
  rewrite Z.add_mod by lia. rewrite Zminus_mod. rewrite shl5_mod.
  rewrite <- Zminus_mod. rewrite <- Z.add_mod by lia.
  f_equal. lia.
Qed.

Lemma fold_hash_reference (s : jsstring) (h : Z) :
  fold_left hash_step s h = fold_left spec_hash_step s h.
Proof.
  revert h. induction s as [|c s IH]; intro h; simpl.
  - reflexivity.
  - rewrite hash_step_reference. apply IH.
Qed.

(** The accumulator stays a signed 32-bit integer. *)
Lemma ToInt32_range (z : Z) : - 2 ^ 31 <= ToInt32 z < 2 ^ 31.
Proof.
  unfold ToInt32. cbv zeta.
  pose proof (Z.mod_pos_bound z (2 ^ 32) ltac:(lia)) as Hb.
  destruct (z mod 2 ^ 32 <? 2 ^ 31) eqn:E.
  - apply Z.ltb_lt in E. lia.
  - apply Z.ltb_ge in E. lia.
Qed.

End Fingerprint.

(** C2.  For every title and description the fingerprint computed by
    [generateContentHash] on their concatenation is the reference 32-bit
    rolling hash [hash = (hash*31 + charCode) mod 2^32] over the code
    units, left to right from 0, reduced to a signed 32-bit integer at
    each step and rendered in decimal; equal inputs give equal
    fingerprints; the empty string gives "0". *)
Theorem fingerprint_is_reference_hash :
  (forall title description : jsstring,
     fingerprint title description = spec_fingerprint title description) /\
  (forall t d t' d' : jsstring,
     t = t' -> d = d' -> fingerprint t d = fingerprint t' d') /\
  fingerprint [] [] = lit "0" /\
  generateContentHash [] = lit "0".
Proof.
  split; [|split; [|split]].
  - intros title description.
    unfold fingerprint, spec_fingerprint, generateContentHash, spec_rolling_hash.
    rewrite fold_hash_reference. reflexivity.
  - intros t d t' d' -> ->. reflexivity.
  - reflexivity.
  - reflexivity.
Qed.

Lemma fingerprint_is_reference_hash_witness :
  fingerprint (lit "Example Article Title") [] =
  fingerprint (lit "Example Article Title") [] /\
  fingerprint (lit "ab") (lit "c") = lit "96354".
Proof.
  split.
  - apply (proj1 (proj2 fingerprint_is_reference_hash)); reflexivity.
  - rewrite (proj1 fingerprint_is_reference_hash). reflexivity.
Defined.

(** ** Generalities on the monad *)

Section MonadFacts.

Lemma same_store_refl w : same_store w w.
Proof. repeat split. Qed.

Lemma same_store_trans w1 w2 w3 :
  same_store w1 w2 -> same_store w2 w3 -> same_store w1 w3.
Proof.
  unfold same_store. intros (a & b & c) (d & e & f).
  repeat split; congruence.
Qed.

Lemma store_free_ret {A} (a : A) : store_free (ret a).
Proof. intro w. apply same_store_refl. Qed.

Lemma store_free_throw {A} e : store_free (@throw A e).
Proof. intro w. apply same_store_refl. Qed.

Lemma store_free_lift {A} (o : outcome A) : store_free (lift o).
Proof. intro w. apply same_store_refl. Qed.

Lemma store_free_next_tick : store_free next_tick.
Proof. intro w. repeat split. Qed.

Lemma store_free_console_error l e : store_free (console_error l e).
Proof. intro w. repeat split. Qed.

Lemma store_free_bind {A B} (m : M A) (k : A -> M B) :
  store_free m -> (forall a, store_free (k a)) -> store_free (bind m k).
Proof.
  intros Hm Hk w. unfold bind. specialize (Hm w).
  destruct (m w) as [[a|e] w']; simpl in *.
  - eapply same_store_trans; [exact Hm | apply Hk].
  - exact Hm.
Qed.

Lemma store_free_try_catch {A} (m : M A) (h : exn -> M A) :
  store_free m -> (forall e, store_free (h e)) -> store_free (try_catch m h).
Proof.
  intros Hm Hh w. unfold try_catch. specialize (Hm w).
  destruct (m w) as [[a|e] w']; simpl in *.
  - exact Hm.
  - eapply same_store_trans; [exact Hm | apply Hh].
Qed.

Lemma total_ret {A} (a : A) : total (ret a).
Proof. intro w. exists a. reflexivity. Qed.

Lemma total_next_tick : total next_tick.
Proof. intro w. eexists. reflexivity. Qed.

Lemma total_console_error l e : total (console_error l e).
Proof. intro w. exists tt. reflexivity. Qed.

Lemma total_bind {A B} (m : M A) (k : A -> M B) :
  total m -> (forall a, total (k a)) -> total (bind m k).
Proof.
  intros Hm Hk w. unfold bind. destruct (Hm w) as [a Ha].
  destruct (m w) as [[a'|e] w']; simpl in Ha; [|discriminate].
  apply Hk.
Qed.

(** A [try] whose handler never throws never throws. *)
Lemma total_try_catch {A} (m : M A) (h : exn -> M A) :
  (forall e, total (h e)) -> total (try_catch m h).
Proof.
  intros Hh w. unfold try_catch.
  destruct (m w) as [[a|e] w']; [exists a; reflexivity | apply Hh].
Qed.

End MonadFacts.

Create HintDb svc.

#[local] Hint Resolve store_free_ret store_free_throw store_free_lift
  store_free_next_tick store_free_console_error total_ret total_next_tick
  total_console_error same_store_refl : svc.

Ltac store_free_step :=
  repeat first
    [ apply store_free_bind; [|intro]
    | apply store_free_try_catch; [|intro]
    | solve [auto with svc] ].

Ltac total_step :=
  repeat first
    [ apply total_bind; [|intro]
    | apply total_try_catch; intro
    | solve [auto with svc] ].

(** ** The parser *)

Section Parser.

Context (rt : Runtime).

Lemma truthy_nonempty (s : jsstring) : truthy s = true -> s <> [].
Proof. destruct s; [discriminate | discriminate]. Qed.

Lemma otruthy_some (o : option jsstring) :
  otruthy o = true -> exists s, o = Some s /\ s <> [] /\ or_else o [] = s.
Proof.
  destruct o as [[|c s]|]; simpl; try discriminate.
  intros _. exists (c :: s). repeat split. discriminate.
Qed.

Lemma eqb_eq (s t : jsstring) : JS.eqb s t = true <-> s = t.
Proof.
  revert t. induction s as [|c s IH]; intros [|d t]; simpl;
    try (split; (discriminate || reflexivity)).
  rewrite andb_true_iff, Z.eqb_eq, IH. split.
  - intros [-> ->]. reflexivity.
  - intros [= -> ->]. split; reflexivity.
Qed.

Lemma eqb_refl (s : jsstring) : JS.eqb s s = true.
Proof. apply eqb_eq. reflexivity. Qed.

Lemma eqb_neq (s t : jsstring) : JS.eqb s t = false <-> s <> t.
Proof.
  split.
  - intros H E. apply eqb_eq in E. congruence.
  - intros H. destruct (JS.eqb s t) eqn:E; [|reflexivity].
    apply eqb_eq in E. contradiction.
Qed.

(** The title scan either leaves the candidate as it is or gives it the
    stripped line as title, which is then long enough and not "RSS". *)
Lemma scan_title_cases (line : jsstring) (cur : Partial.t) :
  scan_title line cur = cur \/
  (scan_title line cur = Partial.with_title (trim (strip_tags line)) cur /\
   (10 < List.length (trim (strip_tags line)))%nat /\
   trim (strip_tags line) <> lit "RSS").
Proof.
  unfold scan_title.
  destruct (includes line (lit "<title>") && negb (includes line (lit "<![CDATA[")));
    [|left; reflexivity].
  cbv zeta.
  destruct (truthy (trim (strip_tags line))); [|left; reflexivity].
  destruct (JS.eqb (trim (strip_tags line)) (lit "RSS")) eqn:E; [left; reflexivity|].
  destruct (10 <? List.length (trim (strip_tags line)))%nat eqn:L; [|left; reflexivity].
  right. split; [reflexivity|]. split.
  - apply Nat.ltb_lt. exact L.
  - apply eqb_neq. exact E.
Qed.

Lemma scan_link_cases (line : jsstring) (cur : Partial.t) :
  scan_link line cur = cur \/
  (scan_link line cur = Partial.with_url (trim (strip_tags line)) cur /\
   startsWith (trim (strip_tags line)) (lit "http") = true).
Proof.
  unfold scan_link.
  destruct (includes line (lit "<link>") && negb (includes line (lit "</link>")));
    [|left; reflexivity].
  cbv zeta.
  destruct (startsWith (trim (strip_tags line)) (lit "http")) eqn:E;
    [right; split; reflexivity | left; reflexivity].
Qed.

Lemma scan_description_cases (line : jsstring) (cur : Partial.t) :
  scan_description line cur = cur \/
  scan_description line cur =
    Partial.with_description (substring0 300 (trim (strip_tags line))) cur.
Proof.
  unfold scan_description.
  destruct (includes line (lit "<description>") || includes line (lit "<summary>"));
    [|left; reflexivity].
  cbv zeta.
  destruct (truthy (trim (strip_tags line)) && (20 <? List.length (trim (strip_tags line)))%nat);
    [right | left]; reflexivity.
Qed.

Lemma clean_partial_empty : clean_partial Partial.empty.
Proof. split; intros ? H; discriminate H. Qed.

Lemma clean_scan_title line cur :
  clean_partial cur -> clean_partial (scan_title line cur).
Proof.
  intros [Ht Hu]. destruct (scan_title_cases line cur) as [->|(-> & L & N)].
  - split; assumption.
  - split; [|exact Hu]. simpl. intros t [= <-]. split; assumption.
Qed.

Lemma clean_scan_description line cur :
  clean_partial cur -> clean_partial (scan_description line cur).
Proof.
  intros [Ht Hu]. destruct (scan_description_cases line cur) as [->| ->];
    split; assumption.
Qed.

Lemma clean_scan_link line cur :
  clean_partial cur -> clean_partial (scan_link line cur).
Proof.
  intros [Ht Hu]. destruct (scan_link_cases line cur) as [->|(-> & L)].
  - split; assumption.
  - split; [exact Ht|]. simpl. intros u [= <-]. exact L.
Qed.

(** The date scan never throws and touches only the published date. *)
Lemma scan_date_returns (line : jsstring) (cur : Partial.t) (w : World) :
  exists cur' w',
    scan_date rt line cur w = (Ret cur', w') /\
    partial_key cur' = partial_key cur /\ same_store w w'.
Proof.
  unfold scan_date.
  destruct (includes line (lit "<pubDate>") || includes line (lit "<published>")).
  - cbv zeta. unfold try_catch, bind, lift.
    destruct (Date_toISOString rt (trim (strip_tags line))) as [iso|e]; simpl.
    + do 2 eexists. split; [reflexivity|]. split; [reflexivity|].
      apply same_store_refl.
    + do 2 eexists. split; [reflexivity|]. split; [reflexivity|].
      repeat split.
  - do 2 eexists. split; [reflexivity|]. split; [reflexivity|].
    apply same_store_refl.
Qed.

(** [emit] never throws; it either leaves the state as it is, or appends
    one candidate built from the in-progress title, description and url
    and resets the in-progress candidate. *)
Lemma emit_returns (cur : Partial.t) (arts : list Article.t) (w : World) :
  exists st' w',
    emit rt (cur, arts) w = (Ret st', w') /\ same_store w w' /\
    ((st' = (cur, arts) /\
      otruthy (Partial.title cur) && otruthy (Partial.url cur)
        && (List.length arts <? 20)%nat = false) \/
     (otruthy (Partial.title cur) && otruthy (Partial.url cur)
        && (List.length arts <? 20)%nat = true /\
      exists a, st' = (Partial.empty, arts ++ [a]) /\
                Partial.title cur = Some (Article.title a) /\
                Partial.url cur = Some (Article.url a) /\
                Article.description a = or_else (Partial.description cur) [])).
Proof.
  unfold emit.
  destruct (otruthy (Partial.title cur) && otruthy (Partial.url cur)
            && (List.length arts <? 20)%nat) eqn:C.
  - apply andb_true_iff in C as C'. destruct C' as [C' _].
    apply andb_true_iff in C'. destruct C' as [T U].
    destruct (otruthy_some _ T) as (t & Et & _ & Ot).
    destruct (otruthy_some _ U) as (u & Eu & _ & Ou).
    unfold bind, Date_now_string, Math_random_string, new_Date_toISOString,
      next_tick, ret.
    destruct (otruthy (Partial.publishedAt cur)); simpl;
      (do 2 eexists; split; [reflexivity|]; split; [repeat split|];
       right; split; [reflexivity|]; eexists; split; [reflexivity|]; simpl;
       rewrite Ot, Ou; repeat split; assumption).
  - do 2 eexists. split; [reflexivity|]. split; [apply same_store_refl|].
    left. split; reflexivity.
Qed.

End Parser.

Section ParserLoop.

Context (rt : Runtime).

(** One line: the scan never throws, keeps the state clean and leaves the
    store alone. *)
Lemma scan_line_returns (st : Partial.t * list Article.t) (line : jsstring)
    (w : World) :
  clean_state st ->
  exists st' w',
    scan_line rt st line w = (Ret st', w') /\ clean_state st' /\
    same_store w w'.
Proof.
  destruct st as [cur arts]. intros (Hc & Hl & Hf). simpl in Hc, Hl, Hf.
  unfold scan_line, bind.
  destruct (scan_date_returns rt line
              (scan_link line (scan_description line (scan_title line cur))) w)
    as (cur' & w1 & E1 & K1 & S1).
  rewrite E1.
  destruct (emit_returns rt cur' arts w1) as (st' & w2 & E2 & S2 & Hcase).
  exists st', w2. split; [exact E2|].
  split; [|eapply same_store_trans; eassumption].
  assert (Hc' : clean_partial cur').
  { pose proof (clean_scan_link line _
                  (clean_scan_description line _ (clean_scan_title line _ Hc)))
      as [Ht Hu].
    unfold partial_key in K1. injection K1 as K1t K1d K1u.
    split; [rewrite K1t | rewrite K1u]; assumption. }
  destruct Hcase as [[-> _] | (C & a & -> & Ea & Eu & _)].
  - split; [exact Hc' | split; assumption].
  - apply andb_true_iff in C. destruct C as [_ C]. apply Nat.ltb_lt in C.
    split; [apply clean_partial_empty|]. simpl. split.
    + rewrite length_app. simpl. lia.
    + apply Forall_app. split; [exact Hf|]. constructor; [|constructor].
      destruct Hc' as [Ht Hu]. destruct (Ht _ Ea). repeat split; auto.
Qed.

(** The whole scan: no exception, a clean final state, the store alone. *)
Lemma scan_lines_returns (lines : list jsstring)
    (st : Partial.t * list Article.t) (w : World) :
  clean_state st ->
  exists st' w',
    scan_lines rt lines st w = (st', None, w') /\ clean_state st' /\
    same_store w w'.
Proof.
  revert st w. induction lines as [|line lines IH]; intros st w Hst; simpl.
  - exists st, w. split; [reflexivity|]. split; [exact Hst|].
    apply same_store_refl.
  - destruct (scan_line_returns st line w Hst) as (st1 & w1 & E1 & H1 & S1).
    rewrite E1. destruct (IH st1 w1 H1) as (st2 & w2 & E2 & H2 & S2).
    exists st2, w2. split; [exact E2|]. split; [exact H2|].
    eapply same_store_trans; eassumption.
Qed.

Lemma clean_state_initial : clean_state (Partial.empty, []).
Proof.
  split; [apply clean_partial_empty|]. simpl. split; [lia | constructor].
Qed.

Lemma parseRSSContent_returns (content sourceUrl : jsstring) (w : World) :
  exists arts w',
    parseRSSContent rt content sourceUrl w = (Ret arts, w') /\
    (List.length arts <= 20)%nat /\ Forall clean_candidate arts /\
    same_store w w'.
Proof.
  unfold parseRSSContent.
  destruct (scan_lines_returns (split_lf content) _ w clean_state_initial)
    as ([cur arts] & w' & E & (Hc & Hl & Hf) & S).
  rewrite E. exists arts, w'. split; [reflexivity|].
  split; [exact Hl|]. split; [exact Hf | exact S].
Qed.

End ParserLoop.

(** C3.  For every input string [parseRSSContent] returns, and returns at
    most 20 candidates, each with a non-empty title and a url that starts
    with "http". *)
Theorem parseRSSContent_bound (rt : Runtime) (content sourceUrl : jsstring)
    (w : World) :
  exists arts,
    fst (parseRSSContent rt content sourceUrl w) = Ret arts /\
    (List.length arts <= 20)%nat /\
    Forall well_formed_candidate arts.
Proof.
  destruct (parseRSSContent_returns rt content sourceUrl w)
    as (arts & w' & E & Hl & Hf & _).
  exists arts. rewrite E. split; [reflexivity|]. split; [exact Hl|].
  eapply Forall_impl; [|exact Hf].
  intros a (L & _ & U). split; [|exact U].
  intro E0. rewrite E0 in L. simpl in L. lia.
Qed.

(** C9.  A line whose tag-stripped, trimmed text is exactly "RSS" or is
    shorter than 11 code units never populates the in-progress title: the
    title scan leaves the candidate as it is, and after the whole line the
    in-progress title is the one before the line or none; and no candidate
    that [parseRSSContent] emits, on any input, has such a title. *)
Theorem noise_title_never_populates (rt : Runtime) :
  (forall (line : jsstring) (cur : Partial.t),
     noise_title (trim (strip_tags line)) -> scan_title line cur = cur) /\
  (forall (line : jsstring) (cur : Partial.t) (arts : list Article.t)
          (w : World),
     noise_title (trim (strip_tags line)) ->
     exists cur' arts' w',
       scan_line rt (cur, arts) line w = (Ret (cur', arts'), w') /\
       (Partial.title cur' = Partial.title cur \/ Partial.title cur' = None)) /\
  (forall (content sourceUrl : jsstring) (w : World),
     exists arts,
       fst (parseRSSContent rt content sourceUrl w) = Ret arts /\
       Forall (fun a => ~ noise_title (Article.title a)) arts).
Proof.
  assert (Hscan : forall line cur,
             noise_title (trim (strip_tags line)) -> scan_title line cur = cur).
  { intros line cur Hn.
    destruct (scan_title_cases line cur) as [E | (_ & L & N)]; [exact E|].
    destruct Hn as [Hn | Hn]; [contradiction | lia]. }
  split; [exact Hscan|]. split.
  - intros line cur arts w Hn. unfold scan_line, bind.
    rewrite (Hscan line cur Hn).
    destruct (scan_date_returns rt line
                (scan_link line (scan_description line cur)) w)
      as (cur1 & w1 & E1 & K1 & _).
    rewrite E1.
    destruct (emit_returns rt cur1 arts w1) as ([cur2 arts2] & w2 & E2 & _ & Hcase).
    exists cur2, arts2, w2. split; [exact E2|].
    destruct Hcase as [[[= -> ->] _] | (_ & a & [= -> ->] & _)].
    + left. unfold partial_key in K1. injection K1 as K1t _ _.
      rewrite K1t.
      destruct (scan_link_cases line (scan_description line cur)) as [-> | [-> _]];
        destruct (scan_description_cases line cur) as [-> | ->]; reflexivity.
    + right. reflexivity.
  - intros content sourceUrl w.
    destruct (parseRSSContent_returns rt content sourceUrl w)
      as (arts & w' & E & _ & Hf & _).
    exists arts. rewrite E. split; [reflexivity|].
    eapply Forall_impl; [|exact Hf].
    intros a (L & N & _) [Hn | Hn]; [contradiction | lia].
Qed.

Lemma noise_title_never_populates_witness :
  scan_title (lit "<title>RSS</title>") Partial.empty = Partial.empty /\
  scan_title (lit "<title>Too short</title>")
    (Partial.with_title (lit "An earlier headline") Partial.empty) =
  Partial.with_title (lit "An earlier headline") Partial.empty.
Proof.
  split.
  - apply (proj1 (noise_title_never_populates Sample.runtime)).
    left. reflexivity.
  - apply (proj1 (noise_title_never_populates Sample.runtime)).
    right. simpl. lia.
Defined.

(** C8, as the specification states it, fails on the code: parsing the
    single line of scenario 1 does not yield one candidate with that title
    and url. *)
Lemma scenario1_single_line_counterexample :
  ~ exists a,
      fst (parseRSSContent Sample.runtime Sample.scenario1 []
             Sample.empty_world) = Ret [a] /\
      Article.title a = lit "Example Article Title" /\
      Article.url a = lit "http://x.com/a" /\
      Article.description a = [].
Proof.
  intros (a & E & _). vm_compute in E. discriminate E.
Qed.

(** C8, amended.  Parsing the single line
    [<title>Example Article Title</title><link>http://x.com/a</link>]
    yields no candidate: the line holds a closing [</link>], so no url is
    taken from it, and the in-progress title is the whole line without its
    tags.  With the title on a line of its own and the link on the next
    line without its closing tag, the parser yields exactly one candidate,
    with title "Example Article Title", url "http://x.com/a" and the empty
    description. *)
Theorem scenario1_parse (rt : Runtime) (sourceUrl : jsstring) (w : World) :
  fst (parseRSSContent rt Sample.scenario1 sourceUrl w) = Ret [] /\
  fst (fst (scan_lines rt [Sample.scenario1] (Partial.empty, []) w)) =
    (Partial.mk (Some (lit "Example Article Titlehttp://x.com/a")) None None None,
     []) /\
  exists a,
    fst (parseRSSContent rt Sample.two_lines sourceUrl w) = Ret [a] /\
    Article.title a = lit "Example Article Title" /\
    Article.url a = lit "http://x.com/a" /\
    Article.description a = [].
Proof.
  split; [|split].
  - vm_compute. reflexivity.
  - vm_compute. reflexivity.
  - eexists. split; [vm_compute; reflexivity|].
    split; [|split]; reflexivity.
Qed.

(** ** What each platform call does to the world *)

Section Effects.

Context (rt : Runtime) (bk : Backend).

Lemma blink_auth_me_run (w : World) :
  blink_auth_me bk w = (auth_me bk (tick w), ticked w).
Proof. reflexivity. Qed.

Lemma blink_data_extractFromUrl_run (url : jsstring) (w : World) :
  blink_data_extractFromUrl bk url w =
  (data_extractFromUrl bk (tick w) url, ticked w).
Proof. reflexivity. Qed.

Lemma blink_data_scrape_run (url : jsstring) (w : World) :
  blink_data_scrape bk url w = (data_scrape bk (tick w) url, ticked w).
Proof. reflexivity. Qed.

Lemma db_call_run (c : DbCall) (w : World) :
  db_call bk c w =
  (match db_fault bk (tick w) with Some e => Throw e | None => Ret tt end,
   called c w).
Proof.
  unfold db_call, bind, record_call, next_tick, throw, ret. simpl.
  destruct (db_fault bk (tick w)); reflexivity.
Qed.

Lemma matches_source (sourceId uid : jsstring) (r : SourceRow.t) :
  SourceRow.matches [(SourceRow.Fid, sourceId); (SourceRow.FuserId, uid)] r =
  JS.eqb (SourceRow.id r) sourceId && JS.eqb (SourceRow.userId r) uid.
Proof. simpl. rewrite andb_true_r. reflexivity. Qed.

Lemma matches_hash (uid h : jsstring) (r : ArticleRow.t) :
  ArticleRow.matches
    [(ArticleRow.FuserId, uid); (ArticleRow.FcontentHash, h)] r =
  JS.eqb (ArticleRow.userId r) uid && JS.eqb (ArticleRow.contentHash r) h.
Proof. simpl. rewrite andb_true_r. reflexivity. Qed.

Lemma matches_article (articleId uid : jsstring) (r : ArticleRow.t) :
  ArticleRow.matches
    [(ArticleRow.Fid, articleId); (ArticleRow.FuserId, uid)] r =
  JS.eqb (ArticleRow.id r) articleId && JS.eqb (ArticleRow.userId r) uid.
Proof. simpl. rewrite andb_true_r. reflexivity. Qed.

Lemma list_owned_sources_run (sourceId uid : jsstring) (w : World) :
  db_newsSources_list bk
    [(SourceRow.Fid, sourceId); (SourceRow.FuserId, uid)] None w =
  (match db_fault bk (tick w) with
   | Some e => Throw e
   | None => Ret (owned_sources sourceId uid (newsSources w))
   end,
   called (SourcesList [(SourceRow.Fid, sourceId); (SourceRow.FuserId, uid)] None) w).
Proof.
  unfold db_newsSources_list, bind. rewrite db_call_run.
  destruct (db_fault bk (tick w)); [reflexivity|].
  simpl. unfold owned_sources. f_equal. f_equal.
  apply filter_ext. intro r. apply matches_source.
Qed.

Lemma list_owned_with_hash_run (uid h : jsstring) (w : World) :
  db_articles_list bk
    [(ArticleRow.FuserId, uid); (ArticleRow.FcontentHash, h)] None None w =
  (match db_fault bk (tick w) with
   | Some e => Throw e
   | None => Ret (owned_with_hash uid h (articles w))
   end,
   called (ArticlesList
             [(ArticleRow.FuserId, uid); (ArticleRow.FcontentHash, h)]
             None None) w).
Proof.
  unfold db_articles_list, bind. rewrite db_call_run.
  destruct (db_fault bk (tick w)); [reflexivity|].
  simpl. unfold owned_with_hash. f_equal. f_equal.
  apply filter_ext. intro r. apply matches_hash.
Qed.

Lemma list_owned_articles_run (articleId uid : jsstring) (w : World) :
  db_articles_list bk
    [(ArticleRow.Fid, articleId); (ArticleRow.FuserId, uid)] None None w =
  (match db_fault bk (tick w) with
   | Some e => Throw e
   | None => Ret (owned_articles articleId uid (articles w))
   end,
   called (ArticlesList
             [(ArticleRow.Fid, articleId); (ArticleRow.FuserId, uid)]
             None None) w).
Proof.
  unfold db_articles_list, bind. rewrite db_call_run.
  destruct (db_fault bk (tick w)); [reflexivity|].
  simpl. unfold owned_articles. f_equal. f_equal.
  apply filter_ext. intro r. apply matches_article.
Qed.

Lemma db_articles_create_run (row : ArticleRow.t) (w : World) :
  db_articles_create bk row w =
  match db_fault bk (tick w) with
  | Some e => (Throw e, called (ArticlesCreate row) w)
  | None =>
      (Ret tt,
       mkWorld (newsSources w) (articles w ++ [row]) (S (tick w)) (console w)
               (calls w ++ [ArticlesCreate row]))
  end.
Proof.
  unfold db_articles_create, bind. rewrite db_call_run.
  destruct (db_fault bk (tick w)); reflexivity.
Qed.

Lemma db_articles_update_run (id : jsstring) (p : ArticleRow.fields) (w : World) :
  db_articles_update bk id p w =
  match db_fault bk (tick w) with
  | Some e => (Throw e, called (ArticlesUpdate id p) w)
  | None =>
      (Ret tt,
       mkWorld (newsSources w)
               (map (fun r => if JS.eqb (ArticleRow.id r) id
                              then ArticleRow.patch p r else r) (articles w))
               (S (tick w)) (console w)
               (calls w ++ [ArticlesUpdate id p]))
  end.
Proof.
  unfold db_articles_update, bind. rewrite db_call_run.
  destruct (db_fault bk (tick w)); reflexivity.
Qed.

(** The parser, the fetch and the discovery never throw and leave the
    store alone. *)
Lemma store_free_parseRSSContent content sourceUrl :
  store_free (parseRSSContent rt content sourceUrl).
Proof.
  intro w. destruct (parseRSSContent_returns rt content sourceUrl w)
    as (arts & w' & E & _ & _ & S).
  rewrite E. exact S.
Qed.

Lemma store_free_extract url : store_free (blink_data_extractFromUrl bk url).
Proof. intro w. repeat split. Qed.

Lemma store_free_fetchRSSFeed url : store_free (fetchRSSFeed rt bk url).
Proof.
  unfold fetchRSSFeed.
  apply store_free_try_catch; [|intro; store_free_step].
  apply store_free_bind; [apply store_free_extract|intro].
  apply store_free_bind; [apply store_free_parseRSSContent|intro].
  apply store_free_ret.
Qed.

Lemma total_fetchRSSFeed url : total (fetchRSSFeed rt bk url).
Proof. unfold fetchRSSFeed. total_step. Qed.

Lemma store_free_probe_paths paths websiteUrl :
  store_free (probe_paths rt bk paths websiteUrl).
Proof.
  induction paths as [|path paths IH]; simpl.
  - apply store_free_ret.
  - apply store_free_bind.
    + apply store_free_try_catch; [|intro; apply store_free_ret].
      apply store_free_bind; [apply store_free_lift|intro].
      apply store_free_bind; [apply store_free_extract|intro].
      apply store_free_ret.
    + intros [u|]; [apply store_free_ret | exact IH].
Qed.

Lemma store_free_discoverRSSFeed websiteUrl :
  store_free (discoverRSSFeed rt bk websiteUrl).
Proof.
  unfold discoverRSSFeed.
  apply store_free_try_catch; [|intro; store_free_step].
  apply store_free_bind; [intro w; repeat split|intro links].
  destruct (otruthy _).
  - store_free_step.
  - apply store_free_probe_paths.
Qed.

Lemma total_discoverRSSFeed websiteUrl :
  total (discoverRSSFeed rt bk websiteUrl).
Proof. unfold discoverRSSFeed. total_step. Qed.

End Effects.

(** ** Ingestion never raises *)

Section Ingestion.

Context (rt : Runtime) (bk : Backend).

Lemma total_refreshSourceArticles sourceId :
  total (refreshSourceArticles rt bk sourceId).
Proof. unfold refreshSourceArticles. total_step. Qed.

(** Up to the fetch, a call of [refreshSourceArticles] by a signed-in user
    whose source is found with a feed url runs as follows. *)
Lemma refreshSourceArticles_run (sourceId : jsstring) (w : World) :
  refreshSourceArticles rt bk sourceId w =
  try_catch
    (match auth_me bk (tick w) with
     | Throw e => throw e
     | Ret None => ret tt
     | Ret (Some user) =>
         fun w1 =>
         match db_fault bk (tick w1) with
         | Some e =>
             (Throw e,
              called (SourcesList [(SourceRow.Fid, sourceId);
                                   (SourceRow.FuserId, user_id user)] None) w1)
         | None =>
             match owned_sources sourceId (user_id user) (newsSources w1) with
             | [] => ret tt
             | source :: _ =>
                 if negb (otruthy (SourceRow.rssUrl source)) then ret tt
                 else
                   bind (fetchRSSFeed rt bk (or_else (SourceRow.rssUrl source) []))
                        (save_new_articles rt bk user source)
             end (called (SourcesList [(SourceRow.Fid, sourceId);
                                       (SourceRow.FuserId, user_id user)] None) w1)
         end
     end)
    (fun error => console_error (lit "Error refreshing source articles:") error)
    (ticked w).
Proof.
  unfold refreshSourceArticles, try_catch. unfold bind at 1.
  rewrite blink_auth_me_run.
  destruct (auth_me bk (tick w)) as [[user|]|e]; try reflexivity.
  unfold bind at 1. rewrite list_owned_sources_run.
  destruct (db_fault bk (tick (ticked w))); reflexivity.
Qed.

(** When nobody is signed in, the call makes no store call. *)
Lemma refreshSourceArticles_signed_out (sourceId : jsstring) (w : World) :
  auth_me bk (tick w) = Ret None ->
  same_store w (snd (refreshSourceArticles rt bk sourceId w)).
Proof.
  intro Hme. rewrite refreshSourceArticles_run, Hme.
  unfold try_catch, ret. simpl. repeat split.
Qed.

(** When the user owns no such source, or the source has no feed url, the
    lookup of the source is the only store call and no row changes. *)
Lemma refreshSourceArticles_no_feed (sourceId : jsstring) (w : World)
    (user : User) :
  auth_me bk (tick w) = Ret (Some user) ->
  (owned_sources sourceId (user_id user) (newsSources w) = [] \/
   exists source rest,
     owned_sources sourceId (user_id user) (newsSources w) = source :: rest /\
     otruthy (SourceRow.rssUrl source) = false) ->
  same_rows w (snd (refreshSourceArticles rt bk sourceId w)) /\
  calls (snd (refreshSourceArticles rt bk sourceId w)) =
    calls w ++ [SourcesList [(SourceRow.Fid, sourceId);
                             (SourceRow.FuserId, user_id user)] None].
Proof.
  intros Hme Hsrc. rewrite refreshSourceArticles_run, Hme.
  unfold try_catch. cbv beta.
  change (newsSources (ticked w)) with (newsSources w).
  change (tick (ticked w)) with (S (tick w)).
  destruct (db_fault bk (S (tick w))).
  - simpl. repeat split.
  - destruct Hsrc as [-> | (source & rest & -> & Hurl)].
    + simpl. repeat split.
    + rewrite Hurl. simpl. repeat split.
Qed.

End Ingestion.

(** C7.  [refreshSourceArticles] never raises: whatever the backend
    answers or throws, the call returns normally.  When no user is signed
    in it issues no store call and changes no row; when the signed-in user
    owns no source with the given id, or the source found has no feed url,
    it changes no row and its only store call is the lookup of the
    source. *)
Theorem refreshSourceArticles_never_raises (rt : Runtime) (bk : Backend)
    (sourceId : jsstring) (w : World) :
  fst (refreshSourceArticles rt bk sourceId w) = Ret tt /\
  (auth_me bk (tick w) = Ret None ->
   same_store w (snd (refreshSourceArticles rt bk sourceId w))) /\
  (forall user,
     auth_me bk (tick w) = Ret (Some user) ->
     (owned_sources sourceId (user_id user) (newsSources w) = [] \/
      exists source rest,
        owned_sources sourceId (user_id user) (newsSources w) = source :: rest /\
        otruthy (SourceRow.rssUrl source) = false) ->
     same_rows w (snd (refreshSourceArticles rt bk sourceId w)) /\
     calls (snd (refreshSourceArticles rt bk sourceId w)) =
       calls w ++ [SourcesList [(SourceRow.Fid, sourceId);
                                (SourceRow.FuserId, user_id user)] None]).
Proof.
  split; [|split].
  - destruct (total_refreshSourceArticles rt bk sourceId w) as [[] E]. exact E.
  - apply refreshSourceArticles_signed_out.
  - intros user. apply refreshSourceArticles_no_feed.
Qed.

Lemma refreshSourceArticles_never_raises_witness :
  same_store Sample.empty_world
    (snd (refreshSourceArticles Sample.runtime
            (Sample.backend None (Ret []) (fun _ => Ret Sample.two_lines))
            (lit "s1") Sample.empty_world)) /\
  same_rows
    (mkWorld [Sample.source_row "s1" "alice" None] [] 0 [] [])
    (snd (refreshSourceArticles Sample.runtime
            (Sample.backend (Some Sample.alice) (Ret [])
               (fun _ => Ret Sample.two_lines))
            (lit "s1")
            (mkWorld [Sample.source_row "s1" "alice" None] [] 0 [] []))).
Proof.
  split.
  - apply (proj1 (proj2 (refreshSourceArticles_never_raises Sample.runtime
             (Sample.backend None (Ret []) (fun _ => Ret Sample.two_lines))
             (lit "s1") Sample.empty_world))).
    reflexivity.
  - apply (proj2 (proj2 (refreshSourceArticles_never_raises Sample.runtime
             (Sample.backend (Some Sample.alice) (Ret [])
                (fun _ => Ret Sample.two_lines))
             (lit "s1")
             (mkWorld [Sample.source_row "s1" "alice" None] [] 0 [] []))) Sample.alice).
    + reflexivity.
    + right. do 2 eexists. split; reflexivity.
Defined.

(** ** Adding a source when no feed is found *)

(** C6.  When the user is signed in and feed discovery returns no feed,
    [addNewsSource] raises the error "Could not find RSS feed for this
    website" to its caller, issues no store call and leaves both
    collections as they were: no source is persisted. *)
Theorem addNewsSource_feed_not_found (rt : Runtime) (bk : Backend)
    (name url category : jsstring) (user : User) (w : World) :
  auth_me bk (tick w) = Ret (Some user) ->
  fst (discoverRSSFeed rt bk url (ticked w)) = Ret None ->
  fst (addNewsSource rt bk name url category w) = Throw feed_not_found /\
  same_store w (snd (addNewsSource rt bk name url category w)).
Proof.
  intros Hme Hd.
  pose proof (store_free_discoverRSSFeed rt bk url (ticked w)) as Hs.
  destruct (discoverRSSFeed rt bk url (ticked w)) as [[[u|]|e] w1] eqn:Ed;
    simpl in Hd; try discriminate Hd.
  assert (E : addNewsSource rt bk name url category w =
              (Throw feed_not_found,
               snd (console_error (lit "Error adding news source:")
                      feed_not_found w1))).
  { unfold addNewsSource, try_catch. unfold bind at 1.
    rewrite blink_auth_me_run, Hme. unfold bind at 1. rewrite Ed.
    reflexivity. }
  rewrite E. split; [reflexivity|].
  unfold same_store in *. simpl in *. exact Hs.
Qed.

Lemma addNewsSource_feed_not_found_witness :
  fst (addNewsSource Sample.runtime
         (Sample.backend (Some Sample.alice) (Ret [])
            (fun _ => Throw (Error (lit "404"))))
         (lit "Test") (lit "https://no-feed-site.example") (lit "general")
         Sample.empty_world) = Throw feed_not_found /\
  same_store Sample.empty_world
    (snd (addNewsSource Sample.runtime
            (Sample.backend (Some Sample.alice) (Ret [])
               (fun _ => Throw (Error (lit "404"))))
            (lit "Test") (lit "https://no-feed-site.example") (lit "general")
            Sample.empty_world)).
Proof.
  apply (addNewsSource_feed_not_found Sample.runtime
           (Sample.backend (Some Sample.alice) (Ret [])
              (fun _ => Throw (Error (lit "404"))))
           (lit "Test") (lit "https://no-feed-site.example") (lit "general")
           Sample.alice Sample.empty_world).
  - reflexivity.
  - vm_compute. reflexivity.
Defined.

(** ** Bookmarks and read marks *)

Section Bookmarks.

Context (rt : Runtime) (bk : Backend).

Lemma filter_none {A} (f : A -> bool) (l : list A) :
  (forall x, In x l -> f x = false) -> filter f l = [].
Proof.
  induction l as [|x l IH]; intro H; simpl; [reflexivity|].
  rewrite (H x (or_introl eq_refl)). apply IH.
  intros y Hy. apply H. right. exact Hy.
Qed.

Lemma map_unchanged {A} (f : A -> A) (l : list A) :
  (forall x, In x l -> f x = x) -> map f l = l.
Proof.
  induction l as [|x l IH]; intro H; simpl; [reflexivity|].
  rewrite (H x (or_introl eq_refl)). f_equal. apply IH.
  intros y Hy. apply H. right. exact Hy.
Qed.

(** In a store whose ids are unique, the rows around a row have other ids. *)
Lemma unique_id_elsewhere (pre post : list ArticleRow.t) (a : ArticleRow.t) :
  NoDup (map ArticleRow.id (pre ++ a :: post)) ->
  forall r, In r pre \/ In r post ->
            JS.eqb (ArticleRow.id r) (ArticleRow.id a) = false.
Proof.
  intros Hnd r Hr. rewrite map_app in Hnd. simpl in Hnd.
  apply NoDup_remove_2 in Hnd. apply eqb_neq. intro E. apply Hnd.
  rewrite <- E. apply in_or_app.
  destruct Hr as [Hr | Hr]; [left | right]; apply in_map; exact Hr.
Qed.

Lemma set_same_flag (a : ArticleRow.t) :
  ArticleRow.set ArticleRow.FisBookmarked (ArticleRow.isBookmarked a) a = a.
Proof. destruct a. reflexivity. Qed.

Lemma set_flag_twice (v v' : jsstring) (a : ArticleRow.t) :
  ArticleRow.set ArticleRow.FisBookmarked v'
    (ArticleRow.set ArticleRow.FisBookmarked v a) =
  ArticleRow.set ArticleRow.FisBookmarked v' a.
Proof. destruct a. reflexivity. Qed.

(** One call of [toggleBookmark] by a signed-in user on a reliable store. *)
Lemma toggleBookmark_run (articleId : jsstring) (user : User) (w : World) :
  auth_me bk (tick w) = Ret (Some user) ->
  store_reliable bk ->
  toggleBookmark rt bk articleId w =
  match owned_articles articleId (user_id user) (articles w) with
  | article :: _ =>
      let newBookmarkStatus :=
        if Number_gt0 rt (ArticleRow.isBookmarked article)
        then lit "0" else lit "1" in
      (Ret tt,
       mkWorld (newsSources w)
         (map (fun r => if JS.eqb (ArticleRow.id r) articleId
                        then ArticleRow.patch
                               [(ArticleRow.FisBookmarked, newBookmarkStatus)] r
                        else r) (articles w))
         (S (S (S (tick w)))) (console w)
         (calls w ++
          [ArticlesList [(ArticleRow.Fid, articleId);
                         (ArticleRow.FuserId, user_id user)] None None;
           ArticlesUpdate articleId
             [(ArticleRow.FisBookmarked, newBookmarkStatus)]]))
  | [] =>
      (Ret tt,
       called (ArticlesList [(ArticleRow.Fid, articleId);
                             (ArticleRow.FuserId, user_id user)] None None)
              (ticked w))
  end.
Proof.
  intros Hme Hrel.
  unfold toggleBookmark, try_catch. unfold bind at 1.
  rewrite blink_auth_me_run, Hme. unfold bind at 1.
  rewrite list_owned_articles_run, Hrel.
  change (articles (called _ (ticked w))) with (articles w).
  change (articles (ticked w)) with (articles w).
  destruct (owned_articles articleId (user_id user) (articles w)) as [|article rest].
  - reflexivity.
  - cbv zeta. rewrite db_articles_update_run, Hrel. simpl.
    rewrite <- app_assoc. reflexivity.
Qed.

End Bookmarks.

(** C10.  For an article that is in the store (whose ids are unique) and
    that the signed-in user owns, with its bookmark flag "0" or "1", one
    call of [toggleBookmark] on a reliable store issues one lookup scoped
    by the article id and the user id and one update whose patch holds the
    bookmark flag alone; it replaces the flag of that article by the other
    value and changes nothing else, neither in that row nor in any other
    row nor in the sources; a second call gives back the store's articles
    as they were. *)
Theorem toggleBookmark_flips_and_restores (rt : Runtime) (bk : Backend)
    (user : User) (pre post : list ArticleRow.t) (a : ArticleRow.t)
    (w : World) :
  Number_gt0 rt (lit "0") = false ->
  Number_gt0 rt (lit "1") = true ->
  (forall t, auth_me bk t = Ret (Some user)) ->
  store_reliable bk ->
  articles w = pre ++ a :: post ->
  NoDup (map ArticleRow.id (articles w)) ->
  ArticleRow.userId a = user_id user ->
  ArticleRow.isBookmarked a = lit "0" \/ ArticleRow.isBookmarked a = lit "1" ->
  let w1 := snd (toggleBookmark rt bk (ArticleRow.id a) w) in
  let w2 := snd (toggleBookmark rt bk (ArticleRow.id a) w1) in
  articles w1 =
    pre ++ ArticleRow.set ArticleRow.FisBookmarked
             (flipped (ArticleRow.isBookmarked a)) a :: post /\
  newsSources w1 = newsSources w /\
  calls w1 =
    calls w ++
    [ArticlesList [(ArticleRow.Fid, ArticleRow.id a);
                   (ArticleRow.FuserId, user_id user)] None None;
     ArticlesUpdate (ArticleRow.id a)
       [(ArticleRow.FisBookmarked, flipped (ArticleRow.isBookmarked a))]] /\
  articles w2 = articles w.
Proof.
  intros H0 H1 Hme Hrel Hw Hnd Hown Hflag.
  assert (Hstep : forall (flag : jsstring) (w0 : World),
            flag = lit "0" \/ flag = lit "1" ->
            articles w0 =
              pre ++ ArticleRow.set ArticleRow.FisBookmarked flag a :: post ->
            toggleBookmark rt bk (ArticleRow.id a) w0 =
            (Ret tt,
             mkWorld (newsSources w0)
               (pre ++ ArticleRow.set ArticleRow.FisBookmarked (flipped flag) a
                    :: post)
               (S (S (S (tick w0)))) (console w0)
               (calls w0 ++
                [ArticlesList [(ArticleRow.Fid, ArticleRow.id a);
                               (ArticleRow.FuserId, user_id user)] None None;
                 ArticlesUpdate (ArticleRow.id a)
                   [(ArticleRow.FisBookmarked, flipped flag)]]))).
  { intros flag w0 Hf Hw0.
    set (a' := ArticleRow.set ArticleRow.FisBookmarked flag a) in *.
    assert (Hid : ArticleRow.id a' = ArticleRow.id a) by reflexivity.
    assert (Hnd' : NoDup (map ArticleRow.id (pre ++ a' :: post))).
    { rewrite Hw in Hnd. rewrite map_app in Hnd |- *. exact Hnd. }
    pose proof (unique_id_elsewhere pre post a' Hnd') as Hother.
    rewrite Hid in Hother.
    rewrite (toggleBookmark_run rt bk _ user w0 (Hme _) Hrel).
    assert (Hfilter : owned_articles (ArticleRow.id a) (user_id user)
                        (articles w0) = [a']).
    { rewrite Hw0. unfold owned_articles. rewrite filter_app. simpl.
      rewrite eqb_refl, Hown, eqb_refl. simpl.
      rewrite !filter_none; [reflexivity | |];
        intros r Hr; rewrite Hother by auto; reflexivity. }
    rewrite Hfilter. cbv zeta.
    assert (Hnew : (if Number_gt0 rt (ArticleRow.isBookmarked a')
                    then lit "0" else lit "1") = flipped flag).
    { change (ArticleRow.isBookmarked a') with flag.
      destruct Hf as [-> | ->]; [rewrite H0 | rewrite H1]; reflexivity. }
    rewrite Hnew. f_equal. f_equal. rewrite Hw0, map_app. cbn [map].
    change (ArticleRow.id a') with (ArticleRow.id a). rewrite eqb_refl.
    unfold ArticleRow.patch. cbn [fold_left fst snd].
    unfold a'. rewrite set_flag_twice.
    rewrite !map_unchanged; [reflexivity | |];
      intros r Hr; rewrite Hother by auto; reflexivity. }
  intros w1 w2.
  assert (E1 := Hstep (ArticleRow.isBookmarked a) w Hflag).
  rewrite set_same_flag in E1. specialize (E1 Hw).
  assert (Hflag' : flipped (ArticleRow.isBookmarked a) = lit "0" \/
                   flipped (ArticleRow.isBookmarked a) = lit "1").
  { destruct Hflag as [-> | ->]; [right | left]; reflexivity. }
  assert (E2 := Hstep (flipped (ArticleRow.isBookmarked a)) w1 Hflag').
  unfold w2, w1 in *. rewrite E1 in *. simpl in *.
  specialize (E2 eq_refl). rewrite E2. simpl.
  repeat split.
  rewrite Hw. f_equal. f_equal.
  replace (flipped (flipped (ArticleRow.isBookmarked a)))
    with (ArticleRow.isBookmarked a).
  - apply set_same_flag.
  - destruct Hflag as [-> | ->]; reflexivity.
Qed.

Lemma toggleBookmark_flips_and_restores_witness :
  let bk := Sample.backend (Some Sample.alice) (Ret [])
              (fun _ => Ret Sample.two_lines) in
  let a := Sample.article_row "a1" "alice" (lit "1") (lit "0") in
  let b := Sample.article_row "a2" "bob" (lit "1") (lit "1") in
  let w := mkWorld [] [a; b] 0 [] [] in
  articles (snd (toggleBookmark Sample.runtime bk (lit "a1") w)) =
    [Sample.article_row "a1" "alice" (lit "1") (lit "1"); b] /\
  articles (snd (toggleBookmark Sample.runtime bk (lit "a1")
                   (snd (toggleBookmark Sample.runtime bk (lit "a1") w)))) =
    [a; b].
Proof.
  intros bk a b w.
  destruct (toggleBookmark_flips_and_restores Sample.runtime bk
              Sample.alice [] [b] a w) as (H1 & _ & _ & H2).
  - reflexivity.
  - reflexivity.
  - intro t. reflexivity.
  - intro t. reflexivity.
  - reflexivity.
  - simpl. constructor.
    + simpl. intros [E | []]. discriminate E.
    + constructor; [intros [] | constructor].
  - reflexivity.
  - left. reflexivity.
  - split; [exact H1 | exact H2].
Defined.

(** ** Scoping by the owner *)

Section Ownership.

Context (rt : Runtime) (bk : Backend).

(** [toggleBookmark] looks the article up under the user's id before it
    updates: in a store with unique ids it never changes a row of another
    user, whatever the backend does. *)
Lemma toggleBookmark_keeps_foreign_rows (articleId : jsstring) (w : World) :
  NoDup (map ArticleRow.id (articles w)) ->
  forall user,
    auth_me bk (tick w) = Ret (Some user) ->
    foreign_rows (user_id user) (articles (snd (toggleBookmark rt bk articleId w))) =
    foreign_rows (user_id user) (articles w).
Proof.
  intros Hnd user Hme.
  unfold toggleBookmark, try_catch. unfold bind at 1.
  rewrite blink_auth_me_run, Hme. unfold bind at 1.
  rewrite list_owned_articles_run.
  change (tick (ticked w)) with (S (tick w)).
  destruct (db_fault bk (S (tick w))); [reflexivity|].
  change (articles (ticked w)) with (articles w).
  destruct (owned_articles articleId (user_id user) (articles w))
    as [|article rest] eqn:Eo; [reflexivity|].
  cbv zeta. rewrite db_articles_update_run.
  destruct (db_fault bk _); [reflexivity|].
  cbn [snd articles called ticked].
  assert (Hin : In article (owned_articles articleId (user_id user) (articles w)))
    by (rewrite Eo; left; reflexivity).
  unfold owned_articles in Hin. apply filter_In in Hin.
  destruct Hin as [Hin Hm]. apply andb_true_iff in Hm.
  destruct Hm as [Hid Huid]. apply eqb_eq in Hid. apply eqb_eq in Huid.
  (* every row with this id is the row found, which the user owns *)
  assert (Hrows : forall r, In r (articles w) ->
                    JS.eqb (ArticleRow.id r) articleId = true -> r = article).
  { intros r Hr Hrid. apply eqb_eq in Hrid.
    apply in_split in Hin. destruct Hin as (pre & post & Hsplit).
    rewrite Hsplit in Hnd, Hr.
    pose proof (unique_id_elsewhere pre post article Hnd r) as Hother.
    apply in_app_or in Hr. destruct Hr as [Hr | [Hr | Hr]].
    - rewrite Hid, <- Hrid, eqb_refl in Hother.
      discriminate (Hother (or_introl Hr)).
    - symmetry. exact Hr.
    - rewrite Hid, <- Hrid, eqb_refl in Hother.
      discriminate (Hother (or_intror Hr)). }
  clear Eo Hnd Hin. unfold foreign_rows.
  induction (articles w) as [|r l IH]; [reflexivity|].
  cbn [map filter].
  assert (IH' := IH (fun r' Hr' => Hrows r' (or_intror Hr'))).
  destruct (JS.eqb (ArticleRow.id r) articleId) eqn:Er.
  - rewrite (Hrows r (or_introl eq_refl) Er).
    unfold ArticleRow.patch. cbn [fold_left fst snd].
    change (ArticleRow.userId (ArticleRow.set _ _ article))
      with (ArticleRow.userId article).
    rewrite Huid, eqb_refl. cbn [negb]. exact IH'.
  - rewrite IH'. reflexivity.
Qed.

(** [markAsRead] updates by id alone: on a reliable store every article
    with this id is marked, whoever owns it. *)
Lemma markAsRead_run (articleId : jsstring) (user : User) (w : World) :
  auth_me bk (tick w) = Ret (Some user) ->
  db_fault bk (S (tick w)) = None ->
  markAsRead bk articleId w =
  (Ret tt,
   mkWorld (newsSources w)
     (map (fun r => if JS.eqb (ArticleRow.id r) articleId
                    then ArticleRow.set ArticleRow.FisRead (lit "1") r else r)
          (articles w))
     (S (S (tick w))) (console w)
     (calls w ++ [ArticlesUpdate articleId [(ArticleRow.FisRead, lit "1")]])).
Proof.
  intros Hme Hrel.
  unfold markAsRead, try_catch. unfold bind at 1.
  rewrite blink_auth_me_run, Hme.
  rewrite db_articles_update_run.
  change (tick (ticked w)) with (S (tick w)). rewrite Hrel. reflexivity.
Qed.

End Ownership.

(** C4 fails on [markAsRead].  With alice signed in and an article "a1"
    that bob owns in the store, [markAsRead("a1")] issues a single store
    call, an update by id with no user in it, and bob's article is marked
    as read; [toggleBookmark("a1")] in the same world looks the article up
    under alice's id, finds none and leaves bob's article as it was. *)
Theorem markAsRead_writes_foreign_article :
  let bk := Sample.backend (Some Sample.alice) (Ret [])
              (fun _ => Ret Sample.two_lines) in
  let bobs := Sample.article_row "a1" "bob" (lit "1") (lit "0") in
  let w := mkWorld [] [bobs] 0 [] [] in
  calls (snd (markAsRead bk (lit "a1") w)) =
    [ArticlesUpdate (lit "a1") [(ArticleRow.FisRead, lit "1")]] /\
  articles (snd (markAsRead bk (lit "a1") w)) =
    [ArticleRow.set ArticleRow.FisRead (lit "1") bobs] /\
  foreign_rows (user_id Sample.alice) (articles (snd (markAsRead bk (lit "a1") w)))
    <> foreign_rows (user_id Sample.alice) (articles w) /\
  articles (snd (toggleBookmark Sample.runtime bk (lit "a1") w)) = [bobs].
Proof.
  intros bk bobs w. split; [|split; [|split]].
  - reflexivity.
  - reflexivity.
  - vm_compute. discriminate.
  - reflexivity.
Qed.

(** ** Feed discovery *)

Section Discovery.

Context (rt : Runtime) (bk : Backend).

Lemma ticked_by_0 (w : World) : ticked_by 0 w = w.
Proof. destruct w. reflexivity. Qed.

Lemma ticked_by_S (n : nat) (w : World) :
  ticked_by (S n) w = ticked_by n (ticked w).
Proof.
  unfold ticked_by, ticked. cbn [newsSources articles tick console calls].
  rewrite Nat.add_succ_r. reflexivity.
Qed.

(** The probes, whatever the backend does: the answer and the calls made
    are those of [first_fetched]; nothing is logged. *)
Lemma probe_paths_run (paths : list jsstring) (websiteUrl : jsstring)
    (w : World) :
  probe_paths rt bk paths websiteUrl w =
  (Ret (fst (first_fetched rt bk paths websiteUrl (tick w))),
   ticked_by (snd (first_fetched rt bk paths websiteUrl (tick w))) w).
Proof.
  revert w. induction paths as [|path paths IH]; intro w.
  - cbn [probe_paths first_fetched fst snd]. rewrite ticked_by_0. reflexivity.
  - cbn [probe_paths first_fetched]. unfold bind at 1. unfold try_catch.
    unfold bind at 1. unfold lift at 1.
    destruct (URL_toString rt path websiteUrl) as [testUrl|e].
    + unfold bind at 1. rewrite blink_data_extractFromUrl_run.
      destruct (data_extractFromUrl bk (tick w) testUrl) as [c|e].
      * cbn [ret fst snd]. rewrite ticked_by_S, ticked_by_0. reflexivity.
      * cbn [ret]. rewrite IH. change (tick (ticked w)) with (S (tick w)).
        destruct (first_fetched rt bk paths websiteUrl (S (tick w)))
          as [found fetches].
        cbn [fst snd]. rewrite ticked_by_S. reflexivity.
    + cbn [ret]. apply IH.
Qed.

(** What the link test accepts for certain. *)
Lemma is_rss_link_href (link : Link) (h : jsstring) :
  href link = Some h ->
  includes h (lit "rss") = true \/ includes h (lit "feed") = true \/
  includes h (lit "atom") = true ->
  is_rss_link rt link = true.
Proof.
  intros Hh H. unfold is_rss_link. rewrite Hh. cbn [opt_includes].
  rewrite !orb_true_iff. destruct H as [H|[H|H]]; auto 6.
Qed.

Lemma is_rss_link_text (link : Link) (x : jsstring) :
  text link = Some x ->
  includes (toLowerCase rt x) (lit "rss") = true \/
  includes (toLowerCase rt x) (lit "feed") = true ->
  is_rss_link rt link = true.
Proof.
  intros Hx H. unfold is_rss_link. rewrite Hx. cbn [opt_includes option_map].
  rewrite !orb_true_iff. destruct H as [H|H]; auto 6.
Qed.

(** What the link test accepts is a feed link in the words of the
    specification. *)
Lemma is_rss_link_sound (link : Link) :
  lower_keeps rt feed_words ->
  is_rss_link rt link = true -> spec_is_feed_link rt link = true.
Proof.
  intros Hlow. destruct link as [hr tx].
  unfold is_rss_link, spec_is_feed_link. cbn [href text existsb].
  rewrite !orb_true_iff.
  intros [[[[H|H]|H]|H]|H].
  - destruct hr as [h|]; [|discriminate H]. cbn [opt_includes option_map] in *.
    left. left. apply Hlow; [left; reflexivity | exact H].
  - destruct hr as [h|]; [|discriminate H]. cbn [opt_includes option_map] in *.
    right. left. left. apply Hlow; [right; left; reflexivity | exact H].
  - destruct hr as [h|]; [|discriminate H]. cbn [opt_includes option_map] in *.
    right. right. left. left.
    apply Hlow; [right; right; left; reflexivity | exact H].
  - left. right. exact H.
  - right. left. right. exact H.
Qed.

End Discovery.

(** Lower-casing letter by letter keeps what a string contains, for a
    word that the lower-casing leaves as it is. *)
Lemma startsWith_map (f : code_unit -> code_unit) (s p : jsstring) :
  startsWith s p = true -> startsWith (map f s) (map f p) = true.
Proof.
  revert s. induction p as [|d p IH]; intros s H; [destruct s; reflexivity|].
  destruct s as [|c s]; [discriminate H|].
  cbn [startsWith map] in *. apply andb_true_iff in H. destruct H as [Hc Hs].
  apply Z.eqb_eq in Hc. subst d. rewrite Z.eqb_refl. apply IH. exact Hs.
Qed.

Lemma includes_map (f : code_unit -> code_unit) (s word : jsstring) :
  map f word = word ->
  includes s word = true -> includes (map f s) word = true.
Proof.
  intro Hw. induction s as [|c s IH]; intro H.
  - cbn [includes map] in *. rewrite orb_false_r in *.
    rewrite <- Hw. apply (startsWith_map f [] word). exact H.
  - cbn [includes map] in *. apply orb_true_iff in H. apply orb_true_iff.
    destruct H as [H|H].
    + left. rewrite <- Hw. apply (startsWith_map f (c :: s) word). exact H.
    + right. apply IH. exact H.
Qed.

Lemma latin_lower_keeps : lower_keeps Sample.runtime feed_words.
Proof.
  intros s word Hin H. cbn [toLowerCase Sample.runtime].
  unfold Sample.latin_toLowerCase. apply includes_map; [|exact H].
  destruct Hin as [<-|[<-|[<-|[]]]]; reflexivity.
Qed.

(** C5, as the specification states it, fails on the code.  On a page
    whose only link has the text "Atom" and a target without the three
    words, on a page whose only link targets "/RSS.XML", and on a site
    whose page cannot be scraped while "/rss" is served, the code answers
    otherwise than the discoverer of the specification. *)
Lemma discoverRSSFeed_counterexample :
  let site := lit "https://example.org" in
  let down := fun _ : jsstring => @Throw jsstring (Error (lit "404")) in
  let up := fun _ : jsstring => Ret Sample.two_lines in
  let atom_text := [{| href := Some (lit "/news"); text := Some (lit "Atom") |}] in
  let upper_href := [{| href := Some (lit "/RSS.XML"); text := Some (lit "Subscribe") |}] in
  (fst (discoverRSSFeed Sample.runtime
          (Sample.backend None (Ret atom_text) down) site Sample.empty_world)
     = Ret None /\
   fst (spec_discover Sample.runtime
          (Sample.backend None (Ret atom_text) down) site Sample.empty_world)
     = Ret (Some (lit "https://example.org/news"))) /\
  (fst (discoverRSSFeed Sample.runtime
          (Sample.backend None (Ret upper_href) down) site Sample.empty_world)
     = Ret None /\
   fst (spec_discover Sample.runtime
          (Sample.backend None (Ret upper_href) down) site Sample.empty_world)
     = Ret (Some (lit "https://example.org/RSS.XML"))) /\
  (fst (discoverRSSFeed Sample.runtime
          (Sample.backend None (Throw (Error (lit "timeout"))) up) site
          Sample.empty_world)
     = Ret None /\
   fst (spec_discover Sample.runtime
          (Sample.backend None (Throw (Error (lit "timeout"))) up) site
          Sample.empty_world)
     = Ret (Some (lit "https://example.org/rss"))).
Proof.
  intros site down up atom_text upper_href.
  repeat split; vm_compute; reflexivity.
Qed.

(** C5, amended.  [discoverRSSFeed] never raises.  It scrapes the page
    once and takes the first link that its link test accepts.  The test
    accepts every link whose target contains "rss", "feed" or "atom", and
    every link whose text in lower case contains "rss" or "feed"; under a
    lower-casing that keeps these words, it accepts only links whose
    target or text, in lower case, contains one of the three words.  When
    the link taken has a non-empty target, the target resolved against
    the site url is returned and no path is probed.  When no link is
    taken, or the link taken has no target, the paths /rss, /feed,
    /rss.xml, /feed.xml, /atom.xml are probed in that order, with one
    fetch for each path that resolves, up to the first fetch that
    succeeds: that url is returned, and null when no fetch succeeds.
    When the scrape throws, or the target of the link taken does not
    resolve, the error is logged and null is returned with no path
    probed: the scrape is the only call made. *)
Theorem discoverRSSFeed_behaviour (rt : Runtime) (bk : Backend)
    (websiteUrl : jsstring) (w : World) :
  (forall link h,
     href link = Some h ->
     includes h (lit "rss") = true \/ includes h (lit "feed") = true \/
     includes h (lit "atom") = true ->
     is_rss_link rt link = true) /\
  (forall link x,
     text link = Some x ->
     includes (toLowerCase rt x) (lit "rss") = true \/
     includes (toLowerCase rt x) (lit "feed") = true ->
     is_rss_link rt link = true) /\
  (lower_keeps rt feed_words ->
   forall link, is_rss_link rt link = true -> spec_is_feed_link rt link = true) /\
  commonPaths =
    [lit "/rss"; lit "/feed"; lit "/rss.xml"; lit "/feed.xml"; lit "/atom.xml"] /\
  discoverRSSFeed rt bk websiteUrl w =
  match data_scrape bk (tick w) websiteUrl with
  | Throw e =>
      (Ret None, logged (lit "Error discovering RSS feed:") e (ticked w))
  | Ret links =>
      match find (is_rss_link rt) links with
      | Some {| href := Some (c :: h) |} =>
          match URL_toString rt (c :: h) websiteUrl with
          | Ret url => (Ret (Some url), ticked w)
          | Throw e =>
              (Ret None,
               logged (lit "Error discovering RSS feed:") e (ticked w))
          end
      | _ =>
          let (found, fetches) :=
            first_fetched rt bk commonPaths websiteUrl (S (tick w)) in
          (Ret found, ticked_by fetches (ticked w))
      end
  end.
Proof.
  split; [intros link h; apply is_rss_link_href|].
  split; [intros link x; apply is_rss_link_text|].
  split; [intros Hlow link; apply is_rss_link_sound; exact Hlow|].
  split; [reflexivity|].
  unfold discoverRSSFeed, try_catch. unfold bind at 1.
  rewrite blink_data_scrape_run.
  destruct (data_scrape bk (tick w) websiteUrl) as [links|e]; [|reflexivity].
  pose proof (probe_paths_run rt bk commonPaths websiteUrl (ticked w)) as Hp.
  change (tick (ticked w)) with (S (tick w)) in Hp.
  destruct (find (is_rss_link rt) links) as [[[[|c h]|] x]|];
    cbn [otruthy truthy href].
  - rewrite Hp.
    destruct (first_fetched rt bk commonPaths websiteUrl (S (tick w)));
      reflexivity.
  - cbn [or_else]. unfold bind, lift.
    destruct (URL_toString rt (c :: h) websiteUrl); reflexivity.
  - rewrite Hp.
    destruct (first_fetched rt bk commonPaths websiteUrl (S (tick w)));
      reflexivity.
  - rewrite Hp.
    destruct (first_fetched rt bk commonPaths websiteUrl (S (tick w)));
      reflexivity.
Qed.

Lemma discoverRSSFeed_behaviour_witness :
  let site := lit "https://example.org" in
  let feed_link := {| href := Some (lit "/index.rss"); text := None |} in
  let links := [{| href := Some (lit "/blog"); text := Some (lit "Blog") |};
                feed_link] in
  let down := fun _ : jsstring => @Throw jsstring (Error (lit "404")) in
  let flaky := fun (t : nat) (u : jsstring) =>
                 if (t <? 3)%nat then @Throw jsstring (Error (lit "503"))
                 else Ret Sample.two_lines in
  let bk_flaky := {| auth_me := fun _ => Ret None;
                     data_scrape := fun _ _ => Ret [];
                     data_extractFromUrl := flaky;
                     db_fault := fun _ => None |} in
  spec_is_feed_link Sample.runtime feed_link = true /\
  discoverRSSFeed Sample.runtime (Sample.backend None (Ret links) down) site
    Sample.empty_world =
    (Ret (Some (lit "https://example.org/index.rss")),
     ticked Sample.empty_world) /\
  discoverRSSFeed Sample.runtime bk_flaky site Sample.empty_world =
    (Ret (Some (lit "https://example.org/rss.xml")),
     ticked_by 3 (ticked Sample.empty_world)) /\
  discoverRSSFeed Sample.runtime
    (Sample.backend None (Throw (Error (lit "timeout")))
       (fun _ => Ret Sample.two_lines)) site Sample.empty_world =
    (Ret None,
     logged (lit "Error discovering RSS feed:") (Error (lit "timeout"))
       (ticked Sample.empty_world)).
Proof.
  intros site feed_link links down flaky bk_flaky.
  split; [|split; [|split]].
  - apply (proj1 (proj2 (proj2
             (discoverRSSFeed_behaviour Sample.runtime
                (Sample.backend None (Ret links) down) site
                Sample.empty_world)))).
    + exact latin_lower_keeps.
    + vm_compute. reflexivity.
  - rewrite (proj2 (proj2 (proj2 (proj2
               (discoverRSSFeed_behaviour Sample.runtime
                  (Sample.backend None (Ret links) down) site
                  Sample.empty_world))))).
    vm_compute. reflexivity.
  - rewrite (proj2 (proj2 (proj2 (proj2
               (discoverRSSFeed_behaviour Sample.runtime bk_flaky site
                  Sample.empty_world))))).
    vm_compute. reflexivity.
  - rewrite (proj2 (proj2 (proj2 (proj2
               (discoverRSSFeed_behaviour Sample.runtime
                  (Sample.backend None (Throw (Error (lit "timeout")))
                     (fun _ => Ret Sample.two_lines)) site
                  Sample.empty_world))))).
    vm_compute. reflexivity.
Defined.

(** ** Deduplication *)

Section Dedup.

Context (rt : Runtime) (bk : Backend).

(** One candidate: whatever the backend does, the articles stay as they
    are, or no article of the user had the fingerprint and one row with
    it is appended. *)
Lemma save_if_new_articles (user : User) (source : SourceRow.t)
    (a : Article.t) (w : World) :
  let w' := snd (save_if_new rt bk user source a w) in
  articles w' = articles w \/
  (owned_with_hash (user_id user)
     (fingerprint (Article.title a) (Article.description a)) (articles w) = [] /\
   exists row, row_of user a row /\ articles w' = articles w ++ [row]).
Proof.
  cbv zeta.
  destruct (save_if_new rt bk user source a w) as [o w'] eqn:E. cbn [snd].
  unfold save_if_new in E. cbv zeta in E. unfold bind at 1 in E.
  rewrite list_owned_with_hash_run in E.
  fold (fingerprint (Article.title a) (Article.description a)) in E.
  destruct (db_fault bk (tick w)); [injection E as <- <-; left; reflexivity|].
  change (articles (called _ w)) with (articles w) in E.
  destruct (owned_with_hash _ _ (articles w)) as [|r l] eqn:Eo;
    [|injection E as <- <-; left; reflexivity].
  cbn [List.length Nat.eqb] in E.
  unfold Date_now_string, Math_random_base36, new_Date_toISOString in E.
  unfold bind, next_tick, ret in E.
  destruct (truthy (Article.publishedAt a)); cbv beta iota in E;
    rewrite db_articles_create_run in E;
    (match type of E with context [db_fault bk ?t] => destruct (db_fault bk t) end;
     [injection E as <- <-; left; reflexivity|]);
    injection E as <- <-;
    right; (split; [reflexivity|]); eexists; (split; [|reflexivity]);
    repeat split; cbn; destruct (Article.description a); reflexivity.
Qed.

(** On a reliable store the candidate is saved exactly when no article of
    the user has its fingerprint, and the call returns. *)
Lemma save_if_new_reliable (user : User) (source : SourceRow.t)
    (a : Article.t) (w : World) :
  store_reliable bk ->
  let w' := snd (save_if_new rt bk user source a w) in
  fst (save_if_new rt bk user source a w) = Ret tt /\
  match owned_with_hash (user_id user)
          (fingerprint (Article.title a) (Article.description a)) (articles w) with
  | [] => exists row, row_of user a row /\ articles w' = articles w ++ [row]
  | _ :: _ => articles w' = articles w
  end.
Proof.
  intro Hrel. cbv zeta.
  destruct (save_if_new rt bk user source a w) as [o w'] eqn:E. cbn [fst snd].
  unfold save_if_new in E. cbv zeta in E. unfold bind at 1 in E.
  rewrite list_owned_with_hash_run, Hrel in E.
  fold (fingerprint (Article.title a) (Article.description a)) in E.
  change (articles (called _ w)) with (articles w) in E.
  destruct (owned_with_hash _ _ (articles w)) as [|r l] eqn:Eo;
    [|injection E as <- <-; split; reflexivity].
  cbn [List.length Nat.eqb] in E.
  unfold Date_now_string, Math_random_base36, new_Date_toISOString in E.
  unfold bind, next_tick, ret in E.
  destruct (truthy (Article.publishedAt a)); cbv beta iota in E;
    rewrite db_articles_create_run, Hrel in E;
    injection E as <- <-;
    (split; [reflexivity|]); eexists; (split; [|reflexivity]);
    repeat split; cbn; destruct (Article.description a); reflexivity.
Qed.

End Dedup.

Section DedupInvariant.

Context (rt : Runtime) (bk : Backend).

Lemma hashes_of_app (uid : jsstring) (l l' : list ArticleRow.t) :
  hashes_of uid (l ++ l') = hashes_of uid l ++ hashes_of uid l'.
Proof. unfold hashes_of. rewrite filter_app, map_app. reflexivity. Qed.

Lemma owned_with_hash_none (uid h : jsstring) (l : list ArticleRow.t) :
  owned_with_hash uid h l = [] <-> ~ In h (hashes_of uid l).
Proof.
  unfold owned_with_hash, hashes_of.
  induction l as [|r l IH]; simpl; [tauto|].
  destruct (JS.eqb (ArticleRow.userId r) uid); simpl.
  - destruct (JS.eqb (ArticleRow.contentHash r) h) eqn:E.
    + apply eqb_eq in E. split; [discriminate | intro H; exfalso; apply H; auto].
    + apply eqb_neq in E. rewrite IH. tauto.
  - exact IH.
Qed.

Lemma owned_with_hash_some (uid h : jsstring) (l : list ArticleRow.t) :
  In h (hashes_of uid l) -> owned_with_hash uid h l <> [].
Proof. intros H E. apply owned_with_hash_none in E. contradiction. Qed.

Lemma NoDup_snoc {A} (x : A) (l : list A) :
  NoDup l -> ~ In x l -> NoDup (l ++ [x]).
Proof.
  induction l as [|y l IH]; intros Hnd Hx; simpl.
  - constructor; [intros [] | constructor].
  - inversion Hnd; subst. constructor.
    + intro Hin. apply in_app_or in Hin. destruct Hin as [Hin | [Hin | []]].
      * contradiction.
      * apply Hx. left. symmetry. exact Hin.
    + apply IH; [assumption|]. intro Hin. apply Hx. right. exact Hin.
Qed.

(** Appending a row whose fingerprint its owner does not have yet keeps
    the invariant. *)
Lemma dedup_invariant_append (l : list ArticleRow.t) (row : ArticleRow.t) :
  dedup_invariant l ->
  ~ In (ArticleRow.contentHash row) (hashes_of (ArticleRow.userId row) l) ->
  dedup_invariant (l ++ [row]).
Proof.
  intros Hinv Hfresh uid. rewrite hashes_of_app.
  unfold hashes_of at 2. simpl.
  destruct (JS.eqb (ArticleRow.userId row) uid) eqn:E; simpl.
  - apply eqb_eq in E. subst uid.
    apply NoDup_snoc; [apply Hinv | exact Hfresh].
  - rewrite app_nil_r. apply Hinv.
Qed.

Lemma dedup_invariant_nil : dedup_invariant [].
Proof. intro uid. constructor. Qed.

(** One candidate keeps the invariant, whatever the backend does. *)
Lemma save_if_new_invariant (user : User) (source : SourceRow.t)
    (a : Article.t) (w : World) :
  dedup_invariant (articles w) ->
  dedup_invariant (articles (snd (save_if_new rt bk user source a w))).
Proof.
  intro Hinv.
  destruct (save_if_new_articles rt bk user source a w)
    as [-> | (Hnone & row & (Hu & Hh & _) & ->)]; [exact Hinv|].
  apply dedup_invariant_append; [exact Hinv|].
  rewrite Hu, Hh. apply owned_with_hash_none. exact Hnone.
Qed.

(** A loop whose body keeps a property of the world keeps it. *)
Lemma for_of_invariant {A S} (P : World -> Prop) (body : S -> A -> M S) :
  (forall s x w, P w -> P (snd (body s x w))) ->
  forall l s w, P w -> P (snd (for_of l body s w)).
Proof.
  intros Hbody l. induction l as [|x l IH]; intros s w Hw; [exact Hw|].
  cbn [for_of]. unfold bind. specialize (Hbody s x w Hw).
  destruct (body s x w) as [[s'|e] w']; cbn [snd] in *.
  - apply IH. exact Hbody.
  - exact Hbody.
Qed.

Lemma save_new_articles_invariant (user : User) (source : SourceRow.t)
    (newArticles : list Article.t) (w : World) :
  dedup_invariant (articles w) ->
  dedup_invariant
    (articles (snd (save_new_articles rt bk user source newArticles w))).
Proof.
  unfold save_new_articles.
  apply (for_of_invariant (fun w => dedup_invariant (articles w))).
  intros [] a w0. apply save_if_new_invariant.
Qed.

(** What a call of [refreshSourceArticles] does to the rows: nothing, or
    what the loop over some candidates does, run by some user from a world
    with the same rows. *)
Lemma refreshSourceArticles_rows (sourceId : jsstring) (w : World) :
  same_rows w (snd (refreshSourceArticles rt bk sourceId w)) \/
  exists user source newArticles w1,
    same_rows w w1 /\
    same_rows (snd (save_new_articles rt bk user source newArticles w1))
              (snd (refreshSourceArticles rt bk sourceId w)).
Proof.
  rewrite refreshSourceArticles_run. unfold try_catch.
  destruct (auth_me bk (tick w)) as [[user|]|e];
    [|left; split; reflexivity|left; split; reflexivity].
  cbv beta. destruct (db_fault bk (tick (ticked w)));
    [left; split; reflexivity|].
  change (newsSources (ticked w)) with (newsSources w).
  destruct (owned_sources sourceId (user_id user) (newsSources w))
    as [|source rest]; [left; split; reflexivity|].
  destruct (negb (otruthy (SourceRow.rssUrl source)));
    [left; split; reflexivity|].
  right. unfold bind.
  set (w0 := called _ (ticked w)).
  pose proof (store_free_fetchRSSFeed rt bk
                (or_else (SourceRow.rssUrl source) []) w0) as Hs.
  destruct (total_fetchRSSFeed rt bk (or_else (SourceRow.rssUrl source) []) w0)
    as [arts Ha].
  destruct (fetchRSSFeed rt bk (or_else (SourceRow.rssUrl source) []) w0)
    as [[arts'|e] w1]; cbn [fst snd] in *; [|discriminate Ha].
  exists user, source, arts', w1. split.
  - destruct Hs as (Hs1 & Hs2 & _). split; [exact Hs1 | exact Hs2].
  - destruct (save_new_articles rt bk user source arts' w1) as [[[]|e] w2];
      split; reflexivity.
Qed.

Lemma refreshSourceArticles_invariant (sourceId : jsstring) (w : World) :
  dedup_invariant (articles w) ->
  dedup_invariant (articles (snd (refreshSourceArticles rt bk sourceId w))).
Proof.
  intro Hinv.
  destruct (refreshSourceArticles_rows sourceId w)
    as [[_ ->] | (user & source & arts & w1 & [_ E1] & [_ ->])]; [exact Hinv|].
  apply save_new_articles_invariant. rewrite E1. exact Hinv.
Qed.

Lemma refresh_all_invariant (sourceIds : list jsstring) (w : World) :
  dedup_invariant (articles w) ->
  dedup_invariant (articles (refresh_all rt bk sourceIds w)).
Proof.
  revert w. induction sourceIds as [|sourceId rest IH]; intros w Hinv;
    [exact Hinv|].
  cbn [refresh_all]. apply IH. apply refreshSourceArticles_invariant.
  exact Hinv.
Qed.

End DedupInvariant.

(** ** The candidates of a feed do not depend on the moment of the parse *)

Section ParserKeys.

Context (rt : Runtime).

Lemma scan_title_key line c1 c2 :
  partial_key c1 = partial_key c2 ->
  partial_key (scan_title line c1) = partial_key (scan_title line c2).
Proof.
  intro H. unfold scan_title.
  destruct (includes line (lit "<title>") && negb (includes line (lit "<![CDATA[")));
    [|exact H].
  cbv zeta. destruct (truthy _ && negb _ && _); [|exact H].
  unfold partial_key in *. simpl. injection H as Ht Hd Hu. congruence.
Qed.

Lemma scan_description_key line c1 c2 :
  partial_key c1 = partial_key c2 ->
  partial_key (scan_description line c1) = partial_key (scan_description line c2).
Proof.
  intro H. unfold scan_description.
  destruct (includes line (lit "<description>") || includes line (lit "<summary>"));
    [|exact H].
  cbv zeta. destruct (truthy _ && _); [|exact H].
  unfold partial_key in *. simpl. injection H as Ht Hd Hu. congruence.
Qed.

Lemma scan_link_key line c1 c2 :
  partial_key c1 = partial_key c2 ->
  partial_key (scan_link line c1) = partial_key (scan_link line c2).
Proof.
  intro H. unfold scan_link.
  destruct (includes line (lit "<link>") && negb (includes line (lit "</link>")));
    [|exact H].
  cbv zeta. destruct (startsWith _ _); [|exact H].
  unfold partial_key in *. simpl. injection H as Ht Hd Hu. congruence.
Qed.

Lemma scan_line_sim (st1 st2 : Partial.t * list Article.t) (line : jsstring)
    (w1 w2 : World) :
  state_sim st1 st2 ->
  exists st1' w1' st2' w2',
    scan_line rt st1 line w1 = (Ret st1', w1') /\
    scan_line rt st2 line w2 = (Ret st2', w2') /\
    state_sim st1' st2'.
Proof.
  destruct st1 as [c1 a1], st2 as [c2 a2]. intros [Hk Ha]. cbn [fst snd] in Hk, Ha.
  unfold scan_line, bind.
  pose proof (scan_link_key line _ _
                (scan_description_key line _ _ (scan_title_key line _ _ Hk)))
    as Hk'.
  destruct (scan_date_returns rt line
              (scan_link line (scan_description line (scan_title line c1))) w1)
    as (d1 & v1 & E1 & K1 & _).
  destruct (scan_date_returns rt line
              (scan_link line (scan_description line (scan_title line c2))) w2)
    as (d2 & v2 & E2 & K2 & _).
  rewrite E1, E2.
  assert (Hd : partial_key d1 = partial_key d2) by congruence.
  assert (Hlen : List.length a1 = List.length a2).
  { rewrite <- (length_map candidate_key a1), Ha. apply length_map. }
  destruct (emit_returns rt d1 a1 v1) as (s1 & x1 & F1 & _ & C1).
  destruct (emit_returns rt d2 a2 v2) as (s2 & x2 & F2 & _ & C2).
  exists s1, x1, s2, x2. split; [exact F1|]. split; [exact F2|].
  unfold partial_key in Hd. injection Hd as Ht Hdesc Hu.
  rewrite Ht, Hu, Hlen in C1.
  destruct C1 as [[-> N1] | (Y1 & b1 & -> & T1 & U1 & D1)];
    destruct C2 as [[-> N2] | (Y2 & b2 & -> & T2 & U2 & D2)];
    try congruence.
  - split; cbn [fst snd]; [|exact Ha]. unfold partial_key. congruence.
  - split; cbn [fst snd]; [reflexivity|].
    rewrite !map_app, Ha. f_equal. cbn [map]. f_equal.
    unfold candidate_key. f_equal; congruence.
Qed.

Lemma scan_lines_sim (lines : list jsstring)
    (st1 st2 : Partial.t * list Article.t) (w1 w2 : World) :
  state_sim st1 st2 ->
  exists st1' w1' st2' w2',
    scan_lines rt lines st1 w1 = (st1', None, w1') /\
    scan_lines rt lines st2 w2 = (st2', None, w2') /\
    state_sim st1' st2'.
Proof.
  revert st1 st2 w1 w2.
  induction lines as [|line lines IH]; intros st1 st2 w1 w2 Hsim.
  - exists st1, w1, st2, w2. repeat split; apply Hsim.
  - destruct (scan_line_sim st1 st2 line w1 w2 Hsim)
      as (s1 & v1 & s2 & v2 & E1 & E2 & Hs).
    cbn [scan_lines]. rewrite E1, E2. apply IH. exact Hs.
Qed.

(** Two parses of the same content give candidates with the same titles
    and descriptions, in the same order. *)
Lemma parseRSSContent_keys (content url1 url2 : jsstring) (w1 w2 : World) :
  exists arts1 w1' arts2 w2',
    parseRSSContent rt content url1 w1 = (Ret arts1, w1') /\
    parseRSSContent rt content url2 w2 = (Ret arts2, w2') /\
    map candidate_key arts1 = map candidate_key arts2.
Proof.
  unfold parseRSSContent.
  destruct (scan_lines_sim (split_lf content) (Partial.empty, [])
              (Partial.empty, []) w1 w2)
    as ([c1 a1] & v1 & [c2 a2] & v2 & E1 & E2 & [_ Ha]).
  { split; reflexivity. }
  rewrite E1, E2. exists a1, v1, a2, v2. repeat split. exact Ha.
Qed.

End ParserKeys.

Section FetchKeys.

Context (rt : Runtime) (bk : Backend) (me : option User)
        (feed : jsstring -> outcome jsstring).

Hypothesis static : static_backend bk me feed.

Lemma fetchRSSFeed_run (url : jsstring) (w : World) :
  fetchRSSFeed rt bk url w =
  match feed url with
  | Ret content => parseRSSContent rt content url (ticked w)
  | Throw e =>
      (Ret [], snd (console_error (lit "Error fetching RSS feed:") e (ticked w)))
  end.
Proof.
  destruct static as (_ & Hfeed & _).
  unfold fetchRSSFeed, try_catch. unfold bind at 1.
  rewrite blink_data_extractFromUrl_run, Hfeed.
  destruct (feed url) as [content|e]; [|reflexivity].
  unfold bind.
  destruct (parseRSSContent_returns rt content url (ticked w))
    as (arts & w' & E & _).
  rewrite E. reflexivity.
Qed.

(** Two fetches of an unchanged feed give candidates with the same titles
    and descriptions. *)
Lemma fetchRSSFeed_keys (url : jsstring) (w1 w2 : World) :
  exists arts1 w1' arts2 w2',
    fetchRSSFeed rt bk url w1 = (Ret arts1, w1') /\
    fetchRSSFeed rt bk url w2 = (Ret arts2, w2') /\
    map candidate_key arts1 = map candidate_key arts2.
Proof.
  rewrite !fetchRSSFeed_run.
  destruct (feed url) as [content|e].
  - apply parseRSSContent_keys.
  - do 4 eexists. repeat split.
Qed.

End FetchKeys.

Section DedupRuns.

Context (rt : Runtime) (bk : Backend).

Lemma save_new_articles_cons user source a rest w :
  save_new_articles rt bk user source (a :: rest) w =
  match save_if_new rt bk user source a w with
  | (Ret _, w') => save_new_articles rt bk user source rest w'
  | (Throw e, w') => (Throw e, w')
  end.
Proof.
  unfold save_new_articles. cbn [for_of]. unfold bind.
  destruct (save_if_new rt bk user source a w) as [[[]|e] w']; reflexivity.
Qed.

Lemma hashes_of_incl (uid : jsstring) (l added : list ArticleRow.t) h :
  In h (hashes_of uid l) -> In h (hashes_of uid (l ++ added)).
Proof. intro H. rewrite hashes_of_app. apply in_or_app. left. exact H. Qed.

(** On a reliable store the loop returns, only appends rows, and leaves
    the fingerprint of every candidate among those of the user. *)
Lemma save_new_articles_reliable (user : User) (source : SourceRow.t)
    (newArticles : list Article.t) (w : World) :
  store_reliable bk ->
  fst (save_new_articles rt bk user source newArticles w) = Ret tt /\
  (exists added,
     articles (snd (save_new_articles rt bk user source newArticles w)) =
     articles w ++ added) /\
  (forall a, In a newArticles ->
     In (fingerprint (Article.title a) (Article.description a))
        (hashes_of (user_id user)
           (articles (snd (save_new_articles rt bk user source newArticles w))))).
Proof.
  intro Hrel. revert w.
  induction newArticles as [|a rest IH]; intro w.
  - split; [reflexivity|]. split; [exists []; symmetry; apply app_nil_r|].
    intros a [].
  - rewrite save_new_articles_cons.
    pose proof (save_if_new_reliable rt bk user source a w Hrel) as [Hret Hcase].
    cbv zeta in Hcase.
    destruct (save_if_new rt bk user source a w) as [[[]|e] w1];
      cbn [fst snd] in *; [|discriminate Hret].
    destruct (IH w1) as (Hr & (added & Hadd) & Hall).
    assert (Hnow : In (fingerprint (Article.title a) (Article.description a))
                      (hashes_of (user_id user) (articles w1))).
    { destruct (owned_with_hash (user_id user)
                  (fingerprint (Article.title a) (Article.description a))
                  (articles w)) as [|r l] eqn:Eo.
      - destruct Hcase as (row & (Hu & Hh & _) & ->).
        rewrite hashes_of_app. apply in_or_app. right.
        unfold hashes_of. cbn [filter]. rewrite Hu, eqb_refl. left. exact Hh.
      - rewrite Hcase.
        destruct (in_dec (list_eq_dec Z.eq_dec)
                    (fingerprint (Article.title a) (Article.description a))
                    (hashes_of (user_id user) (articles w))) as [Hin|Hout];
          [exact Hin|].
        apply owned_with_hash_none in Hout. congruence. }
    split; [exact Hr|]. split.
    + assert (exists added1, articles w1 = articles w ++ added1) as [added1 H1].
      { destruct (owned_with_hash _ _ (articles w)).
        - destruct Hcase as (row & _ & ->). eexists. reflexivity.
        - exists []. rewrite Hcase. symmetry. apply app_nil_r. }
      exists (added1 ++ added). rewrite Hadd, H1. symmetry. apply app_assoc.
    + intros b [<- | Hb]; [|apply Hall; exact Hb].
      rewrite Hadd. apply hashes_of_incl. exact Hnow.
Qed.

(** Candidates whose fingerprints the user already has are all skipped,
    whatever the backend does. *)
Lemma save_new_articles_known (user : User) (source : SourceRow.t)
    (newArticles : list Article.t) (w : World) :
  (forall a, In a newArticles ->
     In (fingerprint (Article.title a) (Article.description a))
        (hashes_of (user_id user) (articles w))) ->
  articles (snd (save_new_articles rt bk user source newArticles w)) =
  articles w.
Proof.
  revert w. induction newArticles as [|a rest IH]; intros w Hall;
    [reflexivity|].
  rewrite save_new_articles_cons.
  pose proof (save_if_new_articles rt bk user source a w) as Hcase.
  cbv zeta in Hcase.
  destruct Hcase as [Hsame | (Hnone & _)].
  - destruct (save_if_new rt bk user source a w) as [[[]|e] w1];
      cbn [snd] in *; [|exact Hsame].
    rewrite IH; [exact Hsame|].
    intros b Hb. rewrite Hsame. apply Hall. right. exact Hb.
  - apply owned_with_hash_none in Hnone. exfalso. apply Hnone.
    apply Hall. left. reflexivity.
Qed.

Lemma save_new_articles_app user source l1 l2 w :
  save_new_articles rt bk user source (l1 ++ l2) w =
  match save_new_articles rt bk user source l1 w with
  | (Ret _, w') => save_new_articles rt bk user source l2 w'
  | (Throw e, w') => (Throw e, w')
  end.
Proof.
  revert w. induction l1 as [|a l1 IH]; intro w.
  - reflexivity.
  - cbn [app]. rewrite !save_new_articles_cons.
    destruct (save_if_new rt bk user source a w) as [[[]|e] w1];
      [apply IH | reflexivity].
Qed.

End DedupRuns.

Section Idempotence.

Context (rt : Runtime) (bk : Backend).

Lemma save_if_new_sources (user : User) (source : SourceRow.t)
    (a : Article.t) (w : World) :
  newsSources (snd (save_if_new rt bk user source a w)) = newsSources w.
Proof.
  destruct (save_if_new rt bk user source a w) as [o w'] eqn:E. cbn [snd].
  unfold save_if_new in E. cbv zeta in E. unfold bind at 1 in E.
  rewrite list_owned_with_hash_run in E.
  destruct (db_fault bk (tick w)); [injection E as <- <-; reflexivity|].
  destruct (owned_with_hash _ _ _) as [|r l];
    [|injection E as <- <-; reflexivity].
  cbn [List.length Nat.eqb] in E.
  unfold Date_now_string, Math_random_base36, new_Date_toISOString in E.
  unfold bind, next_tick, ret in E.
  destruct (truthy (Article.publishedAt a)); cbv beta iota in E;
    rewrite db_articles_create_run in E;
    match type of E with context [db_fault bk ?t] => destruct (db_fault bk t) end;
    injection E as <- <-; reflexivity.
Qed.

Lemma save_new_articles_sources (user : User) (source : SourceRow.t)
    (newArticles : list Article.t) (w : World) :
  newsSources (snd (save_new_articles rt bk user source newArticles w)) =
  newsSources w.
Proof.
  unfold save_new_articles.
  apply (for_of_invariant (fun w' => newsSources w' = newsSources w));
    [|reflexivity].
  intros [] a w0 H. rewrite save_if_new_sources. exact H.
Qed.

Lemma in_map_key (l1 l2 : list Article.t) (a : Article.t) :
  map candidate_key l1 = map candidate_key l2 -> In a l2 ->
  exists a1, In a1 l1 /\ candidate_key a1 = candidate_key a.
Proof.
  intros Hk Ha. apply (in_map candidate_key) in Ha. rewrite <- Hk in Ha.
  apply in_map_iff in Ha. destruct Ha as (a1 & E & H1). exists a1. auto.
Qed.

Lemma fingerprint_of_key (a b : Article.t) :
  candidate_key a = candidate_key b ->
  fingerprint (Article.title a) (Article.description a) =
  fingerprint (Article.title b) (Article.description b).
Proof. unfold candidate_key. intros [= -> ->]. reflexivity. Qed.

Context (user : User) (feed : jsstring -> outcome jsstring).

Hypothesis static : static_backend bk (Some user) feed.

(** A call by the signed-in user on a source found with a feed url, on a
    static backend: the fetch, then the loop, and no exception. *)
Lemma refreshSourceArticles_static_run (sourceId : jsstring) (w : World)
    (source : SourceRow.t) (rest : list SourceRow.t) :
  owned_sources sourceId (user_id user) (newsSources w) = source :: rest ->
  otruthy (SourceRow.rssUrl source) = true ->
  exists arts wf,
    fetchRSSFeed rt bk (or_else (SourceRow.rssUrl source) [])
      (called (SourcesList [(SourceRow.Fid, sourceId);
                            (SourceRow.FuserId, user_id user)] None)
              (ticked w)) = (Ret arts, wf) /\
    same_rows w wf /\
    refreshSourceArticles rt bk sourceId w =
    (Ret tt, snd (save_new_articles rt bk user source arts wf)).
Proof.
  intros Hsrc Hurl. destruct static as (Hme & Hfeed & Hrel).
  rewrite refreshSourceArticles_run, Hme. unfold try_catch. cbv beta.
  rewrite Hrel. change (newsSources (ticked w)) with (newsSources w).
  rewrite Hsrc, Hurl. cbn [negb]. unfold bind.
  set (w0 := called _ (ticked w)).
  pose proof (store_free_fetchRSSFeed rt bk
                (or_else (SourceRow.rssUrl source) []) w0) as Hs.
  destruct (total_fetchRSSFeed rt bk (or_else (SourceRow.rssUrl source) []) w0)
    as [arts Ha].
  destruct (fetchRSSFeed rt bk (or_else (SourceRow.rssUrl source) []) w0)
    as [[arts'|e] wf]; cbn [fst snd] in *; [|discriminate Ha].
  exists arts', wf. split; [reflexivity|]. split.
  - destruct Hs as (H1 & H2 & _). split; [exact H1 | exact H2].
  - destruct (save_new_articles_reliable rt bk user source arts' wf Hrel)
      as (Hret & _).
    destruct (save_new_articles rt bk user source arts' wf) as [[[]|e] w2];
      cbn [fst] in Hret; [reflexivity | discriminate Hret].
Qed.

End Idempotence.

(** C1.  Sequential ingestion keeps the deduplication invariant: if no
    user owns two articles with the same fingerprint, then after any
    sequence of [refreshSourceArticles] calls, whatever the backend
    answers, still none does; in particular this holds from a store with
    no article.  On a backend whose feed and signed-in user do not change
    and whose store is reliable, a second run on the same source persists
    nothing.  On a reliable store a candidate with the title and
    description of an earlier candidate of the same batch is skipped, and
    of two such candidates new to the user only the first is persisted. *)
Theorem ingest_never_duplicates (rt : Runtime) (bk : Backend) :
  (forall (sourceIds : list jsstring) (w : World),
     dedup_invariant (articles w) ->
     dedup_invariant (articles (refresh_all rt bk sourceIds w))) /\
  (forall (sourceIds : list jsstring) (sources : list SourceRow.t) (t : nat),
     dedup_invariant
       (articles (refresh_all rt bk sourceIds (mkWorld sources [] t [] [])))) /\
  (forall (me : option User) (feed : jsstring -> outcome jsstring)
          (sourceId : jsstring) (w : World),
     static_backend bk me feed ->
     articles (snd (refreshSourceArticles rt bk sourceId
                      (snd (refreshSourceArticles rt bk sourceId w)))) =
     articles (snd (refreshSourceArticles rt bk sourceId w))) /\
  (forall (user : User) (source : SourceRow.t) (batch : list Article.t)
          (a1 a2 : Article.t) (w : World),
     store_reliable bk ->
     In a1 batch ->
     candidate_key a2 = candidate_key a1 ->
     articles (snd (save_new_articles rt bk user source (batch ++ [a2]) w)) =
     articles (snd (save_new_articles rt bk user source batch w))) /\
  (forall (user : User) (source : SourceRow.t) (a1 a2 : Article.t) (w : World),
     store_reliable bk ->
     candidate_key a2 = candidate_key a1 ->
     ~ In (fingerprint (Article.title a1) (Article.description a1))
          (hashes_of (user_id user) (articles w)) ->
     exists row,
       row_of user a1 row /\
       articles (snd (save_new_articles rt bk user source [a1; a2] w)) =
       articles w ++ [row]).
Proof.
  assert (Hskip : forall user source batch a1 a2 w,
            store_reliable bk -> In a1 batch ->
            candidate_key a2 = candidate_key a1 ->
            articles (snd (save_new_articles rt bk user source (batch ++ [a2]) w)) =
            articles (snd (save_new_articles rt bk user source batch w))).
  { intros user source batch a1 a2 w Hrel Hin Hkey.
    rewrite save_new_articles_app.
    destruct (save_new_articles_reliable rt bk user source batch w Hrel)
      as (Hret & _ & Hall).
    destruct (save_new_articles rt bk user source batch w) as [[[]|e] w1];
      cbn [fst snd] in *; [|discriminate Hret].
    apply save_new_articles_known.
    intros b [<- | []]. rewrite (fingerprint_of_key _ _ Hkey).
    apply Hall. exact Hin. }
  split; [|split; [|split; [|split]]].
  - intros sourceIds w. apply refresh_all_invariant.
  - intros sourceIds sources t. apply refresh_all_invariant.
    apply dedup_invariant_nil.
  - intros me feed sourceId w Hstatic.
    pose proof Hstatic as (Hme & Hfeed & Hrel).
    destruct me as [user|].
    + destruct (owned_sources sourceId (user_id user) (newsSources w))
        as [|source rest] eqn:Hsrc.
      * pose proof (refreshSourceArticles_no_feed rt bk sourceId
                      (snd (refreshSourceArticles rt bk sourceId w))) as Hnone.
        pose proof (refreshSourceArticles_no_feed rt bk sourceId w) as Hnone0.
        destruct (Hnone0 user (Hme _) (or_introl Hsrc)) as [[Hs0 Ha0] _].
        destruct (Hnone user (Hme _)) as [[_ Ha] _]; [|exact Ha].
        left. rewrite Hs0. exact Hsrc.
      * destruct (otruthy (SourceRow.rssUrl source)) eqn:Hurl.
        -- destruct (refreshSourceArticles_static_run rt bk user feed Hstatic
                       sourceId w source rest Hsrc Hurl)
             as (arts1 & wf1 & Ef1 & [Hs1 Ha1] & ->).
           cbn [snd].
           set (w1 := snd (save_new_articles rt bk user source arts1 wf1)).
           assert (Hsrc1 : owned_sources sourceId (user_id user)
                             (newsSources w1) = source :: rest).
           { unfold w1. rewrite save_new_articles_sources, Hs1. exact Hsrc. }
           destruct (refreshSourceArticles_static_run rt bk user feed Hstatic
                       sourceId w1 source rest Hsrc1 Hurl)
             as (arts2 & wf2 & Ef2 & [Hs2 Ha2] & ->).
           cbn [snd].
           rewrite save_new_articles_known; [exact Ha2|].
           intros a Ha.
           destruct (fetchRSSFeed_keys rt bk (Some user) feed Hstatic
                       (or_else (SourceRow.rssUrl source) [])
                       (called (SourcesList [(SourceRow.Fid, sourceId);
                                             (SourceRow.FuserId, user_id user)]
                                            None) (ticked w))
                       (called (SourcesList [(SourceRow.Fid, sourceId);
                                             (SourceRow.FuserId, user_id user)]
                                            None) (ticked w1)))
             as (b1 & v1 & b2 & v2 & E1 & E2 & Hk).
           rewrite Ef1 in E1. rewrite Ef2 in E2.
           injection E1 as <- <-. injection E2 as <- <-.
           destruct (in_map_key _ _ a Hk Ha) as (a1 & Hin1 & Hkey).
           rewrite <- (fingerprint_of_key _ _ Hkey), Ha2.
           apply (save_new_articles_reliable rt bk user source arts1 wf1 Hrel).
           exact Hin1.
        -- pose proof (refreshSourceArticles_no_feed rt bk sourceId
                         (snd (refreshSourceArticles rt bk sourceId w))) as Hnone.
           pose proof (refreshSourceArticles_no_feed rt bk sourceId w) as Hnone0.
           destruct (Hnone0 user (Hme _)) as [[Hs0 Ha0] _].
           { right. exists source, rest. split; [exact Hsrc | exact Hurl]. }
           destruct (Hnone user (Hme _)) as [[_ Ha] _]; [|exact Ha].
           right. exists source, rest. rewrite Hs0.
           split; [exact Hsrc | exact Hurl].
    + destruct (refreshSourceArticles_signed_out rt bk sourceId
                  (snd (refreshSourceArticles rt bk sourceId w)) (Hme _))
        as (_ & Ha & _).
      exact Ha.
  - exact Hskip.
  - intros user source a1 a2 w Hrel Hkey Hfresh.
    change [a1; a2] with ([a1] ++ [a2]).
    rewrite (Hskip user source [a1] a1 a2 w Hrel (or_introl eq_refl) Hkey).
    rewrite save_new_articles_cons.
    pose proof (save_if_new_reliable rt bk user source a1 w Hrel) as [Hret Hcase].
    cbv zeta in Hcase. apply owned_with_hash_none in Hfresh.
    rewrite Hfresh in Hcase.
    destruct (save_if_new rt bk user source a1 w) as [[[]|e] w1];
      cbn [fst snd] in *; [|discriminate Hret].
    exact Hcase.
Qed.

Lemma ingest_never_duplicates_witness :
  let bk := Sample.backend (Some Sample.alice) (Ret [])
              (fun _ => Ret Sample.two_lines) in
  let w := mkWorld
             [Sample.source_row "s1" "alice" (Some (lit "https://example.org/rss"))]
             [] 0 [] [] in
  dedup_invariant
    (articles (refresh_all Sample.runtime bk [lit "s1"; lit "s1"] w)) /\
  articles (snd (refreshSourceArticles Sample.runtime bk (lit "s1")
                   (snd (refreshSourceArticles Sample.runtime bk (lit "s1") w)))) =
  articles (snd (refreshSourceArticles Sample.runtime bk (lit "s1") w)) /\
  List.length (articles (refresh_all Sample.runtime bk [lit "s1"; lit "s1"] w))
    = 1%nat.
Proof.
  intros bk w. split; [|split].
  - apply (proj1 (ingest_never_duplicates Sample.runtime bk)).
    intro uid. simpl. constructor.
  - apply (proj1 (proj2 (proj2 (ingest_never_duplicates Sample.runtime bk)))
             (Some Sample.alice) (fun _ => Ret Sample.two_lines)).
    split; [|split]; [intro t | intros t u | intro t]; reflexivity.
  - vm_compute. reflexivity.
Defined.

(** Scenario 4 on a whole call: a feed that carries the same title and
    link twice leaves one article in the store. *)
Example same_candidate_twice_in_one_feed :
  let feed := Sample.two_lines ++ Sample.lf ++ Sample.two_lines in
  let bk := Sample.backend (Some Sample.alice) (Ret []) (fun _ => Ret feed) in
  let w := mkWorld
             [Sample.source_row "s1" "alice" (Some (lit "https://example.org/rss"))]
             [] 0 [] [] in
  (exists a b, fst (parseRSSContent Sample.runtime feed [] w) = Ret [a; b]) /\
  map ArticleRow.title
      (articles (snd (refreshSourceArticles Sample.runtime bk (lit "s1") w))) =
  [lit "Example Article Title"].
Proof.
  intros feed bk w. split.
  - do 2 eexists. vm_compute. reflexivity.
  - vm_compute. reflexivity.
Qed.

(** ** More on the parser *)

Section ParserShape.

Context (rt : Runtime).

(** What [emit] appends, field by field. *)
Lemma emit_shape (cur : Partial.t) (arts : list Article.t) (w : World) :
  exists st' w',
    emit rt (cur, arts) w = (Ret st', w') /\
    (st' = (cur, arts) \/
     exists a, st' = (Partial.empty, arts ++ [a]) /\
               blank_candidate a /\
               Article.description a = or_else (Partial.description cur) [] /\
               otruthy (Partial.url cur) = true /\
               otruthy (Partial.title cur) = true).
Proof.
  unfold emit.
  destruct (otruthy (Partial.title cur) && otruthy (Partial.url cur)
            && (List.length arts <? 20)%nat) eqn:C.
  - apply andb_true_iff in C as C'. destruct C' as [C' _].
    apply andb_true_iff in C'. destruct C' as [T U].
    unfold Date_now_string, Math_random_string, new_Date_toISOString.
    unfold bind, next_tick, ret.
    destruct (otruthy (Partial.publishedAt cur)); cbv beta iota;
      (do 2 eexists; split; [reflexivity|]; right; eexists;
       split; [reflexivity|]; split; [repeat split|]; split; [reflexivity|];
       split; assumption).
  - do 2 eexists. split; [reflexivity|]. left. reflexivity.
Qed.

(** The scan of one line, taken apart: the three pure scans, the date
    scan, then [emit]. *)
Lemma scan_line_steps (cur : Partial.t) (arts : list Article.t)
    (line : jsstring) (w : World) :
  exists cur1 w1,
    partial_key cur1 =
      partial_key (scan_link line (scan_description line (scan_title line cur))) /\
    scan_line rt (cur, arts) line w = emit rt (cur1, arts) w1.
Proof.
  unfold scan_line, bind.
  destruct (scan_date_returns rt line
              (scan_link line (scan_description line (scan_title line cur))) w)
    as (cur1 & w1 & E & K & _).
  rewrite E. exists cur1, w1. split; [exact K | reflexivity].
Qed.

(** A property of the scanner state that every line keeps holds when the
    scan ends. *)
Lemma scan_lines_invariant (P : Partial.t * list Article.t -> Prop) :
  (forall st line w st' w',
     P st -> scan_line rt st line w = (Ret st', w') -> P st') ->
  forall lines st w,
    P st -> P (fst (fst (scan_lines rt lines st w))).
Proof.
  intros Hstep lines.
  induction lines as [|line lines IH]; intros st w Hst; [exact Hst|].
  cbn [scan_lines].
  destruct (scan_line rt st line w) as [[st'|e] w'] eqn:E.
  - apply IH. eapply Hstep; eassumption.
  - exact Hst.
Qed.

Lemma bounded_scan_description (line : jsstring) (cur : Partial.t) :
  bounded_partial cur -> bounded_partial (scan_description line cur).
Proof.
  intro Hb. unfold scan_description.
  destruct (includes line (lit "<description>") || includes line (lit "<summary>"));
    [|exact Hb].
  cbv zeta.
  destruct (truthy (trim (strip_tags line))); [|exact Hb]. cbn [andb].
  destruct (20 <? List.length (trim (strip_tags line)))%nat eqn:L; [|exact Hb].
  apply Nat.ltb_lt in L.
  assert (Hlen : (20 < List.length (substring0 300 (trim (strip_tags line))) <= 300)%nat).
  { unfold substring0. rewrite length_firstn. lia. }
  remember (substring0 300 (trim (strip_tags line))) as s eqn:Es.
  intros d Hd. cbn [Partial.with_description Partial.description] in Hd.
  injection Hd as <-. exact Hlen.
Qed.

Lemma parse_result (content sourceUrl : jsstring) (w : World) :
  exists arts,
    fst (parseRSSContent rt content sourceUrl w) = Ret arts /\
    arts = snd (fst (fst (scan_lines rt (split_lf content) (Partial.empty, []) w))).
Proof.
  unfold parseRSSContent.
  destruct (scan_lines_returns rt (split_lf content) _ w clean_state_initial)
    as ([cur arts] & w' & E & _).
  rewrite E. exists arts. split; reflexivity.
Qed.

End ParserShape.

(** X1.  Every candidate that [parseRSSContent] returns has a description
    that is empty or has between 21 and 300 code units, and carries no
    owner, no source, no content, no image, no fingerprint, the category
    "general" and both flags false. *)
Theorem parseRSSContent_candidate_shape (rt : Runtime)
    (content sourceUrl : jsstring) (w : World) :
  exists arts,
    fst (parseRSSContent rt content sourceUrl w) = Ret arts /\
    Forall (fun a => bounded_description a /\ blank_candidate a) arts.
Proof.
  destruct (parse_result rt content sourceUrl w) as (arts & E & ->).
  eexists. split; [exact E|].
  apply (scan_lines_invariant rt
           (fun st => bounded_partial (fst st) /\
                      Forall (fun a => bounded_description a /\ blank_candidate a)
                             (snd st))).
  - intros [cur arts] line w0 st' w' [Hb Hf] Hrun. cbn [fst snd] in *.
    destruct (scan_line_steps rt cur arts line w0) as (cur1 & w1 & K & E1).
    rewrite E1 in Hrun.
    assert (Hb1 : bounded_partial cur1).
    { intros d Hd. unfold partial_key in K. injection K as _ Kd _.
      rewrite Kd in Hd. revert d Hd.
      destruct (scan_link_cases line (scan_description line (scan_title line cur)))
        as [-> | [-> _]]; cbn [Partial.with_url Partial.description];
        apply bounded_scan_description;
        destruct (scan_title_cases line cur) as [-> | [-> _]]; exact Hb. }
    destruct (emit_shape rt cur1 arts w1) as (st1 & w2 & E2 & Hcase).
    rewrite E2 in Hrun. injection Hrun as <- <-.
    destruct Hcase as [-> | (a & -> & Hblank & Hd & _)]; cbn [fst snd].
    + split; assumption.
    + split; [intros d Hd'; discriminate Hd'|].
      apply Forall_app. split; [exact Hf|]. constructor; [|constructor].
      split; [|exact Hblank]. unfold bounded_description.
      destruct (Partial.description cur1) as [[|c d]|] eqn:Ed;
        rewrite Hd; cbn [or_else];
        [left; reflexivity | right | left; reflexivity].
      exact (Hb1 _ Ed).
  - split; [intros d Hd; discriminate Hd | constructor].
Qed.

Section ParserCount.

Context (rt : Runtime).

Lemma scan_link_by_test (line : jsstring) (cur : Partial.t) :
  scan_link line cur =
  if is_link_line line then Partial.with_url (trim (strip_tags line)) cur
  else cur.
Proof.
  unfold scan_link, is_link_line.
  destruct (includes line (lit "<link>") && negb (includes line (lit "</link>")));
    [|reflexivity].
  cbv zeta. cbn [andb]. reflexivity.
Qed.

Lemma scan_title_by_test (line : jsstring) (cur : Partial.t) :
  scan_title line cur =
  if is_title_line line then Partial.with_title (trim (strip_tags line)) cur
  else cur.
Proof.
  unfold scan_title, is_title_line.
  destruct (includes line (lit "<title>") && negb (includes line (lit "<![CDATA[")));
    [|reflexivity].
  cbv zeta. cbn [andb]. reflexivity.
Qed.

Lemma scan_description_keeps (line : jsstring) (cur : Partial.t) :
  Partial.title (scan_description line cur) = Partial.title cur /\
  Partial.url (scan_description line cur) = Partial.url cur.
Proof.
  destruct (scan_description_cases line cur) as [-> | ->]; split; reflexivity.
Qed.

(** Candidates emitted plus a url in progress never exceed the link lines
    read, and likewise for titles. *)
Lemma scan_lines_count (lines : list jsstring)
    (st : Partial.t * list Article.t) (w : World) :
  let st' := fst (fst (scan_lines rt lines st w)) in
  (List.length (snd st') +
     match Partial.url (fst st') with Some _ => 1 | None => 0 end <=
   List.length (snd st) +
     match Partial.url (fst st) with Some _ => 1 | None => 0 end +
   count_lines is_link_line lines)%nat /\
  (List.length (snd st') +
     match Partial.title (fst st') with Some _ => 1 | None => 0 end <=
   List.length (snd st) +
     match Partial.title (fst st) with Some _ => 1 | None => 0 end +
   count_lines is_title_line lines)%nat.
Proof.
  cbv zeta. revert st w.
  induction lines as [|line lines IH]; intros [cur arts] w.
  - cbn. lia.
  - cbn [scan_lines].
    destruct (scan_line_steps rt cur arts line w) as (cur1 & w1 & K & E1).
    rewrite E1.
    destruct (emit_shape rt cur1 arts w1) as (st1 & w2 & E2 & Hcase).
    rewrite E2. specialize (IH st1 w2). destruct IH as [IHl IHt].
    unfold partial_key in K. injection K as Kt _ Ku.
    rewrite scan_link_by_test in Kt, Ku.
    unfold count_lines in *. cbn [filter fst snd] in *.
    assert (Hu : (match Partial.url cur1 with Some _ => 1 | None => 0 end <=
                  match Partial.url cur with Some _ => 1 | None => 0 end +
                  (if is_link_line line then 1 else 0))%nat).
    { rewrite Ku. destruct (is_link_line line).
      - cbn. lia.
      - rewrite (proj2 (scan_description_keeps line _)).
        rewrite scan_title_by_test.
        destruct (is_title_line line); cbn; lia. }
    assert (Ht : (match Partial.title cur1 with Some _ => 1 | None => 0 end <=
                  match Partial.title cur with Some _ => 1 | None => 0 end +
                  (if is_title_line line then 1 else 0))%nat).
    { rewrite Kt.
      assert (Hk : Partial.title
                     (if is_link_line line
                      then Partial.with_url (trim (strip_tags line))
                             (scan_description line (scan_title line cur))
                      else scan_description line (scan_title line cur)) =
                   Partial.title (scan_title line cur)).
      { destruct (is_link_line line); cbn [Partial.with_url Partial.title];
          apply scan_description_keeps. }
      rewrite Hk, scan_title_by_test.
      destruct (is_title_line line); cbn; lia. }
    destruct Hcase as [-> | (a & -> & _ & _ & HU & HT)]; cbn [fst snd] in *.
    + destruct (is_link_line line), (is_title_line line);
        cbn [List.length] in *; lia.
    + apply otruthy_some in HU. destruct HU as (u & Eu & _).
      apply otruthy_some in HT. destruct HT as (t & Et & _).
      rewrite Eu in Hu. rewrite Et in Ht.
      rewrite length_app in IHl, IHt. cbn [List.length Partial.empty
        Partial.url Partial.title] in *.
      destruct (is_link_line line), (is_title_line line);
        cbn [List.length] in *; lia.
Qed.

End ParserCount.

(** X2.  [parseRSSContent] returns at most one candidate per line from
    which a url is taken and at most one per line from which a title is
    taken; a content with no such link line, or no such title line, gives
    no candidate. *)
Theorem parseRSSContent_count (rt : Runtime) (content sourceUrl : jsstring)
    (w : World) :
  exists arts,
    fst (parseRSSContent rt content sourceUrl w) = Ret arts /\
    (List.length arts <= count_lines is_link_line (split_lf content))%nat /\
    (List.length arts <= count_lines is_title_line (split_lf content))%nat /\
    (count_lines is_link_line (split_lf content) = 0%nat \/
     count_lines is_title_line (split_lf content) = 0%nat -> arts = []).
Proof.
  destruct (parse_result rt content sourceUrl w) as (arts & E & Ea).
  exists arts. split; [exact E|].
  pose proof (scan_lines_count rt (split_lf content) (Partial.empty, []) w)
    as [Hl Ht].
  cbv zeta in Hl, Ht. rewrite <- Ea in Hl, Ht. cbn in Hl, Ht.
  split; [lia|]. split; [lia|].
  intros [H0 | H0]; destruct arts; try reflexivity; cbn in *; lia.
Qed.

Lemma parseRSSContent_count_witness :
  fst (parseRSSContent Sample.runtime Sample.scenario1 [] Sample.empty_world)
  = Ret [].
Proof.
  destruct (parseRSSContent_count Sample.runtime Sample.scenario1 []
              Sample.empty_world) as (arts & E & _ & _ & Hnone).
  rewrite E. f_equal. apply Hnone. left. reflexivity.
Defined.

(** ** More on the fingerprint *)

Section FingerprintFacts.

Lemma hash_step_ToInt32 (h : Z) (c : code_unit) :
  hash_step h c = ToInt32 (h * 31 + c).
Proof.
  rewrite hash_step_reference. unfold spec_hash_step, ToInt32. reflexivity.
Qed.

Lemma fold_left_one {A B} (f : A -> B -> A) (x : B) (l : list B) (a : A) :
  fold_left f (x :: l) a = fold_left f l (f a x).
Proof. reflexivity. Qed.

Lemma fold_hash_range (s : jsstring) (h : Z) :
  - 2 ^ 31 <= h < 2 ^ 31 ->
  - 2 ^ 31 <= fold_left hash_step s h < 2 ^ 31.
Proof.
  revert h. induction s as [|c s IH]; intros h Hh; [exact Hh|].
  rewrite fold_left_one. apply IH. rewrite hash_step_ToInt32.
  apply ToInt32_range.
Qed.

Lemma ToInt32_step_mod (x b : Z) :
  (ToInt32 x * 31 + b) mod 2 ^ 32 = (x * 31 + b) mod 2 ^ 32.
Proof.
  rewrite <- Zplus_mod_idemp_l, <- Zmult_mod_idemp_l, ToInt32_mod.
  rewrite Zmult_mod_idemp_l, Zplus_mod_idemp_l. reflexivity.
Qed.

(** Raising a code unit by one and lowering the next by 31 leaves the
    accumulator as it was. *)
Lemma hash_step_shift (h : Z) (a b : code_unit) :
  hash_step (hash_step h (a + 1)) (b - 31) = hash_step (hash_step h a) b.
Proof.
  rewrite !hash_step_ToInt32. apply ToInt32_congr.
  rewrite !ToInt32_step_mod. f_equal. ring.
Qed.

End FingerprintFacts.

(** X3.  The fingerprint is the decimal rendering of a signed 32-bit
    integer, whatever the content. *)
Theorem generateContentHash_range (content : jsstring) :
  exists z : Z,
    generateContentHash content = Number_toString z /\
    - 2 ^ 31 <= z < 2 ^ 31.
Proof.
  exists (fold_left hash_step content 0). split; [reflexivity|].
  apply fold_hash_range. lia.
Qed.

(** X4.  The fingerprint is not injective: in any content, raising one
    code unit by one and lowering the next by 31 gives a different content
    with the same fingerprint. *)
Theorem generateContentHash_collision (pre post : jsstring) (a b : code_unit) :
  pre ++ (a + 1) :: (b - 31) :: post <> pre ++ a :: b :: post /\
  generateContentHash (pre ++ (a + 1) :: (b - 31) :: post) =
  generateContentHash (pre ++ a :: b :: post).
Proof.
  split.
  - intro E. apply app_inv_head in E. injection E as E _. lia.
  - unfold generateContentHash. f_equal.
    rewrite !fold_left_app, !fold_left_one, hash_step_shift.
    reflexivity.
Qed.

(** ** More on ingestion *)

Section IngestRows.

Context (rt : Runtime) (bk : Backend).

Lemma or_str_nil (s : jsstring) : or_str s [] = s.
Proof. destruct s; reflexivity. Qed.

(** One candidate, whatever the backend does: nothing changes, or one row
    is appended that ingestion fills as [ingested_row] says. *)
Lemma save_if_new_row (user : User) (source : SourceRow.t)
    (a : Article.t) (w : World) :
  let w' := snd (save_if_new rt bk user source a w) in
  articles w' = articles w \/
  exists row,
    row_of user a row /\ ingested_row user source row /\
    articles w' = articles w ++ [row].
Proof.
  cbv zeta.
  destruct (save_if_new rt bk user source a w) as [o w'] eqn:E. cbn [snd].
  unfold save_if_new in E. cbv zeta in E. unfold bind at 1 in E.
  rewrite list_owned_with_hash_run in E.
  destruct (db_fault bk (tick w)); [injection E as <- <-; left; reflexivity|].
  destruct (owned_with_hash _ _ _) as [|r l];
    [|injection E as <- <-; left; reflexivity].
  cbn [List.length Nat.eqb] in E.
  unfold Date_now_string, Math_random_base36, new_Date_toISOString in E.
  unfold bind, next_tick, ret in E.
  destruct (truthy (Article.publishedAt a)); cbv beta iota in E;
    rewrite db_articles_create_run in E;
    (match type of E with context [db_fault bk ?t] => destruct (db_fault bk t) end;
     [injection E as <- <-; left; reflexivity|]);
    injection E as <- <-;
    right; eexists; (split; [|split; [|reflexivity]]);
    unfold row_of, ingested_row, fingerprint;
    cbn [ArticleRow.userId ArticleRow.contentHash ArticleRow.title
         ArticleRow.description ArticleRow.url ArticleRow.sourceId
         ArticleRow.category ArticleRow.isBookmarked ArticleRow.isRead];
    rewrite ?or_str_nil; repeat split.
Qed.

(** The loop, whatever the backend does: it only appends, at most one row
    per candidate, each filled by ingestion from one of the candidates. *)
Lemma save_new_articles_rows (user : User) (source : SourceRow.t)
    (newArticles : list Article.t) (w : World) :
  exists added,
    articles (snd (save_new_articles rt bk user source newArticles w)) =
      articles w ++ added /\
    (List.length added <= List.length newArticles)%nat /\
    Forall (fun row => ingested_row user source row /\
                       exists a, In a newArticles /\ row_of user a row) added.
Proof.
  revert w. induction newArticles as [|a rest IH]; intro w.
  - exists []. split; [symmetry; apply app_nil_r|]. split; [cbn; lia | constructor].
  - rewrite save_new_articles_cons.
    pose proof (save_if_new_row user source a w) as Hcase. cbv zeta in Hcase.
    destruct (save_if_new rt bk user source a w) as [[[]|e] w1];
      cbn [snd] in Hcase.
    + destruct (IH w1) as (added & Hadd & Hlen & Hall).
      assert (Hall' : Forall (fun row => ingested_row user source row /\
                         exists b, In b (a :: rest) /\ row_of user b row) added).
      { eapply Forall_impl; [|exact Hall].
        intros row (Hi & b & Hb & Hr). split; [exact Hi|].
        exists b. split; [right; exact Hb | exact Hr]. }
      destruct Hcase as [Hsame | (row & Hr & Hi & Happ)].
      * exists added. rewrite Hadd, Hsame. split; [reflexivity|].
        split; [cbn; lia | exact Hall'].
      * exists (row :: added). rewrite Hadd, Happ, <- app_assoc.
        split; [reflexivity|]. split; [cbn; lia|].
        constructor; [|exact Hall'].
        split; [exact Hi|]. exists a. split; [left; reflexivity | exact Hr].
    + cbn [snd]. destruct Hcase as [Hsame | (row & Hr & Hi & Happ)].
      * exists []. rewrite Hsame, app_nil_r. split; [reflexivity|].
        split; [cbn; lia | constructor].
      * exists [row]. split; [exact Happ|]. split; [cbn; lia|].
        constructor; [|constructor].
        split; [exact Hi|]. exists a. split; [left; reflexivity | exact Hr].
Qed.

Lemma existsb_eqb_In (h : jsstring) (l : list jsstring) :
  existsb (JS.eqb h) l = true <-> In h l.
Proof.
  rewrite existsb_exists. split.
  - intros (x & Hx & E). apply eqb_eq in E. subst x. exact Hx.
  - intro H. exists h. split; [exact H | apply eqb_refl].
Qed.

(** On a reliable store the loop persists the new fingerprints of the
    batch, each once, in the order of the batch. *)
Lemma save_new_articles_first_new (user : User) (source : SourceRow.t)
    (newArticles : list Article.t) (w : World) :
  store_reliable bk ->
  hashes_of (user_id user)
    (articles (snd (save_new_articles rt bk user source newArticles w))) =
  hashes_of (user_id user) (articles w) ++
  first_new (hashes_of (user_id user) (articles w))
            (map candidate_fingerprint newArticles).
Proof.
  intro Hrel. revert w. induction newArticles as [|a rest IH]; intro w.
  - cbn. symmetry. apply app_nil_r.
  - rewrite save_new_articles_cons.
    pose proof (save_if_new_reliable rt bk user source a w Hrel) as [Hret Hcase].
    cbv zeta in Hcase.
    destruct (save_if_new rt bk user source a w) as [[[]|e] w1];
      cbn [fst snd] in *; [|discriminate Hret].
    rewrite IH. cbn [map first_new]. unfold candidate_fingerprint at 2.
    destruct (owned_with_hash (user_id user)
                (fingerprint (Article.title a) (Article.description a))
                (articles w)) as [|r l] eqn:Eo.
    + destruct Hcase as (row & (Hu & Hh & _) & ->).
      assert (Hnot : existsb (JS.eqb (fingerprint (Article.title a)
                                         (Article.description a)))
                       (hashes_of (user_id user) (articles w)) = false).
      { destruct (existsb _ _) eqn:Ex; [|reflexivity].
        apply existsb_eqb_In in Ex. apply owned_with_hash_none in Eo.
        contradiction. }
      rewrite Hnot. rewrite hashes_of_app.
      assert (Hone : hashes_of (user_id user) [row] =
                     [fingerprint (Article.title a) (Article.description a)]).
      { unfold hashes_of. cbn [filter]. rewrite Hu, eqb_refl. cbn [map].
        rewrite Hh. reflexivity. }
      rewrite Hone, <- app_assoc. reflexivity.
    + rewrite Hcase.
      assert (Hyes : existsb (JS.eqb (fingerprint (Article.title a)
                                         (Article.description a)))
                       (hashes_of (user_id user) (articles w)) = true).
      { apply existsb_eqb_In.
        destruct (in_dec (list_eq_dec Z.eq_dec)
                    (fingerprint (Article.title a) (Article.description a))
                    (hashes_of (user_id user) (articles w))) as [Hin|Hout];
          [exact Hin|].
        apply owned_with_hash_none in Hout. congruence. }
      rewrite Hyes. reflexivity.
Qed.

End IngestRows.

Section FetchFacts.

Context (rt : Runtime) (bk : Backend).

(** The fetch, whatever the backend answers: the candidates of the parser
    when the content is served, none when the fetch throws. *)
Lemma fetchRSSFeed_cases (url : jsstring) (w : World) :
  match data_extractFromUrl bk (tick w) url with
  | Ret content =>
      fetchRSSFeed rt bk url w = parseRSSContent rt content url (ticked w)
  | Throw e =>
      fetchRSSFeed rt bk url w =
      (Ret [], mkWorld (newsSources w) (articles w) (S (tick w))
                 (console w ++ [(lit "Error fetching RSS feed:", e)]) (calls w))
  end.
Proof.
  destruct (data_extractFromUrl bk (tick w) url) as [content|e] eqn:Ex;
    unfold fetchRSSFeed, try_catch; unfold bind at 1;
    rewrite blink_data_extractFromUrl_run, Ex; [|reflexivity].
  unfold bind.
  destruct (parseRSSContent_returns rt content url (ticked w))
    as (arts & w' & E & _).
  rewrite E. reflexivity.
Qed.

Lemma fetchRSSFeed_bound (url : jsstring) (w : World) :
  exists arts w',
    fetchRSSFeed rt bk url w = (Ret arts, w') /\
    (List.length arts <= 20)%nat /\ Forall well_formed_candidate arts /\
    same_store w w'.
Proof.
  pose proof (fetchRSSFeed_cases url w) as Hc.
  destruct (data_extractFromUrl bk (tick w) url) as [content|e]; rewrite Hc.
  - destruct (parseRSSContent_returns rt content url (ticked w))
      as (arts & w' & E & Hl & Hf & Hs).
    exists arts, w'. split; [exact E|]. split; [exact Hl|]. split.
    + eapply Forall_impl; [|exact Hf]. intros a (L & _ & U).
      split; [|exact U]. intro E0. rewrite E0 in L. cbn in L. lia.
    + exact Hs.
  - do 2 eexists. split; [reflexivity|]. split; [cbn; lia|].
    split; [constructor|]. repeat split.
Qed.

(** A call of [refreshSourceArticles], whatever the backend does: no row
    changes, or the signed-in user's source is found and the loop runs
    over at most 20 fetched candidates. *)
Lemma refreshSourceArticles_cases (sourceId : jsstring) (w : World) :
  same_rows w (snd (refreshSourceArticles rt bk sourceId w)) \/
  exists user source rest newArticles w1,
    auth_me bk (tick w) = Ret (Some user) /\
    owned_sources sourceId (user_id user) (newsSources w) = source :: rest /\
    (List.length newArticles <= 20)%nat /\
    same_rows w w1 /\
    same_rows (snd (save_new_articles rt bk user source newArticles w1))
              (snd (refreshSourceArticles rt bk sourceId w)).
Proof.
  rewrite refreshSourceArticles_run. unfold try_catch.
  destruct (auth_me bk (tick w)) as [[user|]|e];
    [|left; split; reflexivity|left; split; reflexivity].
  cbv beta. destruct (db_fault bk (tick (ticked w)));
    [left; split; reflexivity|].
  change (newsSources (ticked w)) with (newsSources w).
  destruct (owned_sources sourceId (user_id user) (newsSources w))
    as [|source rest] eqn:Hsrc; [left; split; reflexivity|].
  destruct (negb (otruthy (SourceRow.rssUrl source)));
    [left; split; reflexivity|].
  right. unfold bind.
  set (w0 := called _ (ticked w)).
  destruct (fetchRSSFeed_bound (or_else (SourceRow.rssUrl source) []) w0)
    as (arts & w1 & E & Hl & _ & (Hs1 & Hs2 & _)).
  rewrite E.
  exists user, source, rest, arts, w1.
  split; [reflexivity|]. split; [exact Hsrc|]. split; [exact Hl|].
  split; [split; [exact Hs1 | exact Hs2]|].
  destruct (save_new_articles rt bk user source arts w1) as [[[]|e] w2];
    split; reflexivity.
Qed.

Lemma owned_sources_head (sourceId uid : jsstring) (l : list SourceRow.t)
    (source : SourceRow.t) (rest : list SourceRow.t) :
  owned_sources sourceId uid l = source :: rest ->
  In source l /\ SourceRow.id source = sourceId /\
  SourceRow.userId source = uid.
Proof.
  intro H.
  assert (Hin : In source (owned_sources sourceId uid l))
    by (rewrite H; left; reflexivity).
  unfold owned_sources in Hin. apply filter_In in Hin.
  destruct Hin as [Hin Hm]. apply andb_true_iff in Hm. destruct Hm as [H1 H2].
  apply eqb_eq in H1. apply eqb_eq in H2. auto.
Qed.

Lemma foreign_rows_app (uid : jsstring) (l l' : list ArticleRow.t) :
  foreign_rows uid (l ++ l') = foreign_rows uid l ++ foreign_rows uid l'.
Proof. apply filter_app. Qed.

Lemma foreign_rows_owned (uid : jsstring) (l : list ArticleRow.t) :
  Forall (fun row => ArticleRow.userId row = uid) l -> foreign_rows uid l = [].
Proof.
  intro H. apply filter_none. intros row Hrow.
  rewrite Forall_forall in H. rewrite (H row Hrow), eqb_refl. reflexivity.
Qed.

End FetchFacts.

(** X5.  [fetchRSSFeed] never raises and makes no store call.  When the
    fetch of the url throws it returns no candidate and logs the error;
    otherwise it returns what [parseRSSContent] makes of the content; in
    both cases at most 20 candidates, each with a non-empty title and an
    http url. *)
Theorem fetchRSSFeed_total (rt : Runtime) (bk : Backend) (url : jsstring)
    (w : World) :
  exists arts,
    fst (fetchRSSFeed rt bk url w) = Ret arts /\
    (List.length arts <= 20)%nat /\ Forall well_formed_candidate arts /\
    same_store w (snd (fetchRSSFeed rt bk url w)) /\
    (forall e, data_extractFromUrl bk (tick w) url = Throw e ->
       arts = [] /\
       console (snd (fetchRSSFeed rt bk url w)) =
         console w ++ [(lit "Error fetching RSS feed:", e)]) /\
    (forall content, data_extractFromUrl bk (tick w) url = Ret content ->
       fst (parseRSSContent rt content url (ticked w)) = Ret arts).
Proof.
  destruct (fetchRSSFeed_bound rt bk url w) as (arts & w' & E & Hl & Hf & Hs).
  pose proof (fetchRSSFeed_cases rt bk url w) as Hc.
  exists arts. rewrite E. cbn [fst snd].
  split; [reflexivity|]. split; [exact Hl|]. split; [exact Hf|].
  split; [exact Hs|]. split.
  - intros e He. rewrite He in Hc. rewrite Hc in E.
    injection E as <- <-. split; reflexivity.
  - intros content Hcnt. rewrite Hcnt in Hc. rewrite <- Hc, E. reflexivity.
Qed.

Lemma fetchRSSFeed_total_witness :
  fst (fetchRSSFeed Sample.runtime
         (Sample.backend None (Ret []) (fun _ => Throw (Error (lit "404"))))
         (lit "https://example.org/rss") Sample.empty_world) = Ret [].
Proof.
  destruct (fetchRSSFeed_total Sample.runtime
              (Sample.backend None (Ret []) (fun _ => Throw (Error (lit "404"))))
              (lit "https://example.org/rss") Sample.empty_world)
    as (arts & E & _ & _ & _ & Hthrow & _).
  rewrite E. f_equal. apply (Hthrow (Error (lit "404"))). reflexivity.
Defined.

(** X6.  On a reliable store the loop of [refreshSourceArticles] returns
    and persists exactly the fingerprints of the batch that the user does
    not have yet, each once and in feed order: after the loop the user's
    fingerprints are those before it followed by the new ones. *)
Theorem save_new_articles_exact (rt : Runtime) (bk : Backend) (user : User)
    (source : SourceRow.t) (newArticles : list Article.t) (w : World) :
  store_reliable bk ->
  fst (save_new_articles rt bk user source newArticles w) = Ret tt /\
  hashes_of (user_id user)
    (articles (snd (save_new_articles rt bk user source newArticles w))) =
  hashes_of (user_id user) (articles w) ++
  first_new (hashes_of (user_id user) (articles w))
            (map candidate_fingerprint newArticles).
Proof.
  intro Hrel. split.
  - apply (save_new_articles_reliable rt bk user source newArticles w Hrel).
  - apply save_new_articles_first_new. exact Hrel.
Qed.

(** X7.  Whatever the backend does, a call of [refreshSourceArticles]
    only appends articles, at most 20 of them, and leaves the sources as
    they are; every appended row belongs to the user signed in at the
    call and to a source of that user with the given id, takes its
    category from that source, has both flags "0", and carries the
    fingerprint of its own title and description. *)
Theorem refreshSourceArticles_appends (rt : Runtime) (bk : Backend)
    (sourceId : jsstring) (w : World) :
  exists added,
    articles (snd (refreshSourceArticles rt bk sourceId w)) =
      articles w ++ added /\
    newsSources (snd (refreshSourceArticles rt bk sourceId w)) = newsSources w /\
    (List.length added <= 20)%nat /\
    Forall (fun row =>
              exists user source,
                auth_me bk (tick w) = Ret (Some user) /\
                In source (newsSources w) /\
                SourceRow.id source = sourceId /\
                SourceRow.userId source = user_id user /\
                ingested_row user source row) added.
Proof.
  destruct (refreshSourceArticles_cases rt bk sourceId w)
    as [[Hs Ha] | (user & source & rest & arts & w1 & Hme & Hsrc & Hl &
                   [Hs1 Ha1] & [Hs2 Ha2])].
  - exists []. rewrite app_nil_r. split; [exact Ha|]. split; [exact Hs|].
    split; [cbn; lia | constructor].
  - destruct (save_new_articles_rows rt bk user source arts w1)
      as (added & Hadd & Hlen & Hall).
    exists added. split; [rewrite Ha2, Hadd, Ha1; reflexivity|].
    split; [rewrite Hs2, save_new_articles_sources; exact Hs1|].
    split; [lia|].
    eapply Forall_impl; [|exact Hall].
    intros row (Hi & _). exists user, source.
    destruct (owned_sources_head _ _ _ _ _ Hsrc) as (Hin & Hid & Hu).
    repeat split; try assumption; apply Hi.
Qed.

(** X8.  Whatever the backend does, [refreshSourceArticles] changes no
    article of a user other than the one signed in at the call. *)
Theorem refreshSourceArticles_keeps_foreign_rows (rt : Runtime) (bk : Backend)
    (sourceId : jsstring) (w : World) (user : User) :
  auth_me bk (tick w) = Ret (Some user) ->
  foreign_rows (user_id user)
    (articles (snd (refreshSourceArticles rt bk sourceId w))) =
  foreign_rows (user_id user) (articles w).
Proof.
  intro Hme.
  destruct (refreshSourceArticles_cases rt bk sourceId w)
    as [[_ ->] | (user' & source & rest & arts & w1 & Hme' & _ & _ &
                  [_ Ha1] & [_ ->])]; [reflexivity|].
  rewrite Hme in Hme'. injection Hme' as <-.
  destruct (save_new_articles_rows rt bk user source arts w1)
    as (added & -> & _ & Hall).
  rewrite foreign_rows_app, (foreign_rows_owned (user_id user) added), Ha1.
  - apply app_nil_r.
  - eapply Forall_impl; [|exact Hall].
    intros row ((Hu & _) & _). exact Hu.
Qed.

(** ** More on discovery and on adding a source *)

Section DiscoveryFacts.

Context (rt : Runtime) (bk : Backend).

(** A probe answers with a url only if one of the paths resolves to it
    and the backend served it. *)
Lemma probe_paths_found (paths : list jsstring) (websiteUrl : jsstring)
    (w : World) :
  exists r,
    fst (probe_paths rt bk paths websiteUrl w) = Ret r /\
    forall u, r = Some u ->
      exists path, In path paths /\
                   URL_toString rt path websiteUrl = Ret u /\
                   exists t c, data_extractFromUrl bk t u = Ret c.
Proof.
  revert w. induction paths as [|path paths IH]; intro w.
  - exists None. split; [reflexivity|]. intros u Hu. discriminate Hu.
  - cbn [probe_paths]. unfold bind at 1. unfold try_catch.
    unfold bind at 1. unfold lift at 1.
    destruct (URL_toString rt path websiteUrl) as [testUrl|e] eqn:Eu.
    + unfold bind at 1. rewrite blink_data_extractFromUrl_run.
      destruct (data_extractFromUrl bk (tick w) testUrl) as [c|e] eqn:Ex.
      * exists (Some testUrl). split; [reflexivity|].
        intros u [= <-]. exists path. split; [left; reflexivity|].
        split; [exact Eu|]. exists (tick w), c. exact Ex.
      * cbn [ret]. destruct (IH (ticked w)) as (r & Hr & Hfound).
        exists r. split; [exact Hr|]. intros u Hu.
        destruct (Hfound u Hu) as (p & Hp & Hrest).
        exists p. split; [right; exact Hp | exact Hrest].
    + cbn [ret]. destruct (IH w) as (r & Hr & Hfound).
      exists r. split; [exact Hr|]. intros u Hu.
      destruct (Hfound u Hu) as (p & Hp & Hrest).
      exists p. split; [right; exact Hp | exact Hrest].
Qed.

End DiscoveryFacts.

(** X9.  [discoverRSSFeed] never raises and makes no store call, whatever
    the backend does.  A url it returns is the resolution against the site
    of the non-empty target of a scraped link that passes the test of
    lines 26-32, or the resolution of one of the five common paths that
    the backend served at some call. *)
Theorem discoverRSSFeed_sound (rt : Runtime) (bk : Backend)
    (websiteUrl : jsstring) (w : World) :
  exists r,
    fst (discoverRSSFeed rt bk websiteUrl w) = Ret r /\
    same_store w (snd (discoverRSSFeed rt bk websiteUrl w)) /\
    forall u, r = Some u ->
      (exists links link h,
         data_scrape bk (tick w) websiteUrl = Ret links /\
         In link links /\ is_rss_link rt link = true /\
         href link = Some h /\ h <> [] /\
         URL_toString rt h websiteUrl = Ret u) \/
      (exists path,
         In path commonPaths /\ URL_toString rt path websiteUrl = Ret u /\
         exists t c, data_extractFromUrl bk t u = Ret c).
Proof.
  pose proof (store_free_discoverRSSFeed rt bk websiteUrl w) as Hs.
  destruct (discoverRSSFeed rt bk websiteUrl w) as [o w'] eqn:E.
  cbn [fst snd] in *.
  unfold discoverRSSFeed, try_catch in E. unfold bind at 1 in E.
  rewrite blink_data_scrape_run in E.
  destruct (data_scrape bk (tick w) websiteUrl) as [links|e].
  - destruct (find (is_rss_link rt) links) as [link|] eqn:Ef.
    + destruct (href link) as [[|c h]|] eqn:Eh; cbn [otruthy truthy] in E.
      * destruct (probe_paths_found rt bk commonPaths websiteUrl (ticked w))
          as (r & Hr & Hfound).
        destruct (probe_paths rt bk commonPaths websiteUrl (ticked w))
          as [o' w2]. cbn [fst] in Hr. subst o'. injection E as <- <-.
        exists r. split; [reflexivity|]. split; [exact Hs|].
        intros u Hu. right. exact (Hfound u Hu).
      * cbn [or_else] in E. unfold bind, lift in E.
        destruct (URL_toString rt (c :: h) websiteUrl) as [u0|e] eqn:Eu;
          cbn in E; injection E as <- <-.
        -- exists (Some u0). split; [reflexivity|]. split; [exact Hs|].
           intros u [= <-]. left. exists links, link, (c :: h).
           apply find_some in Ef. destruct Ef as [Hin Hp].
           repeat split; try assumption. discriminate.
        -- exists None. split; [reflexivity|]. split; [exact Hs|].
           intros u Hu. discriminate Hu.
      * destruct (probe_paths_found rt bk commonPaths websiteUrl (ticked w))
          as (r & Hr & Hfound).
        destruct (probe_paths rt bk commonPaths websiteUrl (ticked w))
          as [o' w2]. cbn [fst] in Hr. subst o'. injection E as <- <-.
        exists r. split; [reflexivity|]. split; [exact Hs|].
        intros u Hu. right. exact (Hfound u Hu).
    + cbn [otruthy] in E.
      destruct (probe_paths_found rt bk commonPaths websiteUrl (ticked w))
        as (r & Hr & Hfound).
      destruct (probe_paths rt bk commonPaths websiteUrl (ticked w))
        as [o' w2]. cbn [fst] in Hr. subst o'. injection E as <- <-.
      exists r. split; [reflexivity|]. split; [exact Hs|].
      intros u Hu. right. exact (Hfound u Hu).
  - cbn in E. injection E as <- <-.
    exists None. split; [reflexivity|]. split; [exact Hs|].
    intros u Hu. discriminate Hu.
Qed.

Section AddSource.

Context (rt : Runtime) (bk : Backend).

Lemma refreshSourceArticles_sources (sourceId : jsstring) (w : World) :
  newsSources (snd (refreshSourceArticles rt bk sourceId w)) = newsSources w.
Proof.
  destruct (refreshSourceArticles_cases rt bk sourceId w)
    as [[Hs _] | (user & source & rest & arts & w1 & _ & _ & _ &
                  [Hs1 _] & [Hs2 _])]; [exact Hs|].
  rewrite Hs2, save_new_articles_sources. exact Hs1.
Qed.

Lemma db_newsSources_create_run (row : SourceRow.t) (w : World) :
  db_newsSources_create bk row w =
  match db_fault bk (tick w) with
  | Some e => (Throw e, called (SourcesCreate row) w)
  | None =>
      (Ret tt,
       mkWorld (newsSources w ++ [row]) (articles w) (S (tick w)) (console w)
               (calls w ++ [SourcesCreate row]))
  end.
Proof.
  unfold db_newsSources_create, bind. rewrite db_call_run.
  destruct (db_fault bk (tick w)); reflexivity.
Qed.

End AddSource.

(** X10.  [addNewsSource] persists a source exactly when it returns one.
    If it returns a source, a user was signed in, the store has gained
    exactly one source row, appended, with the id, owner, name, url, feed
    url and category of the returned source, a non-empty feed url and the
    active flag "1", and no other source row has changed; an error during
    the first ingestion does not undo this.  If it throws, neither
    collection has changed, and the error was logged before it was
    raised again. *)
Theorem addNewsSource_persists_iff_returns (rt : Runtime) (bk : Backend)
    (name url category : jsstring) (w : World) :
  match fst (addNewsSource rt bk name url category w) with
  | Ret source =>
      NewsSource.name source = name /\ NewsSource.url source = url /\
      NewsSource.category source = category /\
      otruthy (NewsSource.rssUrl source) = true /\
      (exists user, auth_me bk (tick w) = Ret (Some user) /\
                    NewsSource.userId source = user_id user) /\
      exists row,
        persisted_as source row /\
        newsSources (snd (addNewsSource rt bk name url category w)) =
          newsSources w ++ [row]
  | Throw e =>
      same_rows w (snd (addNewsSource rt bk name url category w)) /\
      exists earlier,
        console (snd (addNewsSource rt bk name url category w)) =
          earlier ++ [(lit "Error adding news source:", e)]
  end.
Proof.
  destruct (addNewsSource rt bk name url category w) as [o w'] eqn:E.
  cbn [fst snd].
  unfold addNewsSource, try_catch in E. unfold bind at 1 in E.
  rewrite blink_auth_me_run in E.
  destruct (auth_me bk (tick w)) as [[user|]|e] eqn:Hme.
  - unfold bind at 1 in E.
    pose proof (store_free_discoverRSSFeed rt bk url (ticked w)) as Hs.
    destruct (total_discoverRSSFeed rt bk url (ticked w)) as [r Hr].
    destruct (discoverRSSFeed rt bk url (ticked w)) as [[r'|e] w1];
      cbn [fst snd] in *; [|discriminate Hr].
    destruct Hs as (Hs1 & Hs2 & _). cbn [ticked newsSources articles] in Hs1, Hs2.
    destruct (otruthy r') eqn:Hfeed; cbn [negb] in E.
    + unfold Date_now_string, Math_random_base36, new_Date_toISOString in E.
      unfold bind, next_tick, ret in E. cbv beta iota in E.
      rewrite db_newsSources_create_run in E.
      match type of E with context [db_fault bk ?t] =>
        destruct (db_fault bk t) as [e|] end.
      * cbn in E. injection E as <- <-. cbn.
        split; [split; assumption|]. eexists. reflexivity.
      * match type of E with context [refreshSourceArticles rt bk ?sid ?w0] =>
          pose proof (refreshSourceArticles_sources rt bk sid w0) as Hsrc;
          destruct (total_refreshSourceArticles rt bk sid w0) as [[] Hret];
          destruct (refreshSourceArticles rt bk sid w0) as [[[]|e] w2]
        end; cbn [fst snd] in *; [|discriminate Hret].
        injection E as <- <-.
        cbn [NewsSource.name NewsSource.url NewsSource.category
             NewsSource.rssUrl NewsSource.userId].
        split; [reflexivity|]. split; [reflexivity|]. split; [reflexivity|].
        split; [exact Hfeed|].
        split; [exists user; split; reflexivity|].
        eexists. split; [|rewrite Hsrc, Hs1; reflexivity].
        repeat split.
    + cbn in E. injection E as <- <-. cbn.
      split; [split; assumption|]. eexists. reflexivity.
  - cbn in E. injection E as <- <-. cbn.
    split; [split; reflexivity|]. eexists. reflexivity.
  - cbn in E. injection E as <- <-. cbn.
    split; [split; reflexivity|]. eexists. reflexivity.
Qed.

(** ** More on bookmarks and read marks *)

Section Flags.

Context (rt : Runtime) (bk : Backend).

(** A call of [toggleBookmark], whatever the backend does: no row changes,
    or the signed-in user owns an article with this id and the rows with
    this id take "0" or "1" as bookmark flag. *)
Lemma toggleBookmark_cases (articleId : jsstring) (w : World) :
  let w' := snd (toggleBookmark rt bk articleId w) in
  fst (toggleBookmark rt bk articleId w) = Ret tt /\
  newsSources w' = newsSources w /\
  (articles w' = articles w \/
   exists user article rest v,
     auth_me bk (tick w) = Ret (Some user) /\
     owned_articles articleId (user_id user) (articles w) = article :: rest /\
     v = (if Number_gt0 rt (ArticleRow.isBookmarked article)
          then lit "0" else lit "1") /\
     articles w' =
       map (fun r => if JS.eqb (ArticleRow.id r) articleId
                     then ArticleRow.set ArticleRow.FisBookmarked v r else r)
           (articles w)).
Proof.
  cbv zeta.
  destruct (toggleBookmark rt bk articleId w) as [o w'] eqn:E. cbn [fst snd].
  unfold toggleBookmark, try_catch in E. unfold bind at 1 in E.
  rewrite blink_auth_me_run in E.
  destruct (auth_me bk (tick w)) as [[user|]|e] eqn:Hme;
    [|injection E as <- <-; repeat split; left; reflexivity
     |injection E as <- <-; repeat split; left; reflexivity].
  unfold bind at 1 in E. rewrite list_owned_articles_run in E.
  destruct (db_fault bk (tick (ticked w)));
    [injection E as <- <-; repeat split; left; reflexivity|].
  change (articles (ticked w)) with (articles w) in E.
  destruct (owned_articles articleId (user_id user) (articles w))
    as [|article rest] eqn:Eo;
    [injection E as <- <-; repeat split; left; reflexivity|].
  cbv zeta in E. rewrite db_articles_update_run in E.
  match type of E with context [db_fault bk ?t] =>
    destruct (db_fault bk t) end;
    [injection E as <- <-; repeat split; left; reflexivity|].
  injection E as <- <-. split; [reflexivity|]. split; [reflexivity|].
  right. exists user, article, rest. eexists.
  split; [reflexivity|]. split; [exact Eo|]. split; reflexivity.
Qed.

Lemma Forall2_same {A} (R : A -> A -> Prop) (l : list A) :
  (forall x, R x x) -> Forall2 R l l.
Proof. intro H. induction l; constructor; auto. Qed.

Lemma Forall2_map_r {A} (R : A -> A -> Prop) (f : A -> A) (l : list A) :
  (forall x, R x (f x)) -> Forall2 R l (map f l).
Proof. intro H. induction l; cbn [map]; constructor; auto. Qed.

Lemma without_bookmark_set (v : jsstring) (r : ArticleRow.t) :
  without_bookmark (ArticleRow.set ArticleRow.FisBookmarked v r) =
  without_bookmark r.
Proof. destruct r. reflexivity. Qed.

Lemma without_read_set (v : jsstring) (r : ArticleRow.t) :
  without_read (ArticleRow.set ArticleRow.FisRead v r) = without_read r.
Proof. destruct r. reflexivity. Qed.

(** A call of [markAsRead], whatever the backend does. *)
Lemma markAsRead_cases (articleId : jsstring) (w : World) :
  let w' := snd (markAsRead bk articleId w) in
  fst (markAsRead bk articleId w) = Ret tt /\
  newsSources w' = newsSources w /\
  (articles w' = articles w \/
   ((exists user, auth_me bk (tick w) = Ret (Some user)) /\
    articles w' = marked_read articleId (articles w))).
Proof.
  cbv zeta.
  destruct (markAsRead bk articleId w) as [o w'] eqn:E. cbn [fst snd].
  unfold markAsRead, try_catch in E. unfold bind at 1 in E.
  rewrite blink_auth_me_run in E.
  destruct (auth_me bk (tick w)) as [[user|]|e] eqn:Hme;
    [|injection E as <- <-; repeat split; left; reflexivity
     |injection E as <- <-; repeat split; left; reflexivity].
  rewrite db_articles_update_run in E.
  destruct (db_fault bk (tick (ticked w)));
    injection E as <- <-; (split; [reflexivity|]); (split; [reflexivity|]);
    [left; reflexivity|].
  right. split; [exists user; reflexivity | reflexivity].
Qed.

Lemma marked_read_idem (articleId : jsstring) (l : list ArticleRow.t) :
  marked_read articleId (marked_read articleId l) = marked_read articleId l.
Proof.
  unfold marked_read. rewrite map_map. apply map_ext. intro r.
  destruct (JS.eqb (ArticleRow.id r) articleId) eqn:E.
  - change (ArticleRow.id (ArticleRow.set ArticleRow.FisRead (lit "1") r))
      with (ArticleRow.id r).
    rewrite E. destruct r. reflexivity.
  - rewrite E. reflexivity.
Qed.

End Flags.

(** X11.  Whatever the backend does, [toggleBookmark] returns normally,
    leaves the sources alone and changes nothing in the articles but
    bookmark flags: no row is added, removed or reordered and every other
    field stays.  It changes a flag only when the signed-in user owns an
    article with the given id, and the flag it writes is "0" or "1". *)
Theorem toggleBookmark_only_flags (rt : Runtime) (bk : Backend)
    (articleId : jsstring) (w : World) :
  let w' := snd (toggleBookmark rt bk articleId w) in
  fst (toggleBookmark rt bk articleId w) = Ret tt /\
  newsSources w' = newsSources w /\
  map without_bookmark (articles w') = map without_bookmark (articles w) /\
  (articles w' <> articles w ->
   exists user article,
     auth_me bk (tick w) = Ret (Some user) /\
     In article (articles w) /\ ArticleRow.id article = articleId /\
     ArticleRow.userId article = user_id user) /\
  Forall2 (fun r r' =>
             r' = r \/
             ArticleRow.isBookmarked r' = lit "0" \/
             ArticleRow.isBookmarked r' = lit "1")
          (articles w) (articles w').
Proof.
  cbv zeta.
  destruct (toggleBookmark_cases rt bk articleId w)
    as (Hret & Hsrc & [Hsame | (user & article & rest & v & Hme & Ho & Hv & Hmap)]).
  - split; [exact Hret|]. split; [exact Hsrc|]. rewrite Hsame.
    split; [reflexivity|]. split; [intro H; contradiction|].
    apply Forall2_same. intro r. left. reflexivity.
  - split; [exact Hret|]. split; [exact Hsrc|]. rewrite Hmap.
    split; [|split].
    + rewrite map_map. apply map_ext. intro r.
      destruct (JS.eqb (ArticleRow.id r) articleId);
        [apply without_bookmark_set | reflexivity].
    + intros _. exists user, article. split; [exact Hme|].
      assert (Hin : In article (owned_articles articleId (user_id user) (articles w)))
        by (rewrite Ho; left; reflexivity).
      unfold owned_articles in Hin. apply filter_In in Hin.
      destruct Hin as [Hin Hm]. apply andb_true_iff in Hm.
      destruct Hm as [H1 H2]. apply eqb_eq in H1. apply eqb_eq in H2. auto.
    + apply Forall2_map_r. intro r.
      destruct (JS.eqb (ArticleRow.id r) articleId); [right|left; reflexivity].
      change (ArticleRow.isBookmarked (ArticleRow.set ArticleRow.FisBookmarked v r))
        with v.
      rewrite Hv. destruct (Number_gt0 rt (ArticleRow.isBookmarked article));
        [left | right]; reflexivity.
Qed.

(** X12.  Whatever the backend does, [markAsRead] returns normally, leaves
    the sources alone and changes nothing in the articles but read flags,
    which it only ever sets to "1"; it changes nothing when no user is
    signed in.  On a backend where a user stays signed in and the store is
    reliable, a second call changes nothing more. *)
Theorem markAsRead_only_sets_read (bk : Backend) (articleId : jsstring)
    (w : World) :
  let w' := snd (markAsRead bk articleId w) in
  fst (markAsRead bk articleId w) = Ret tt /\
  newsSources w' = newsSources w /\
  map without_read (articles w') = map without_read (articles w) /\
  Forall2 (fun r r' => r' = r \/ ArticleRow.isRead r' = lit "1")
          (articles w) (articles w') /\
  (auth_me bk (tick w) = Ret None -> articles w' = articles w) /\
  (forall user,
     (forall t, auth_me bk t = Ret (Some user)) -> store_reliable bk ->
     articles w' = marked_read articleId (articles w) /\
     articles (snd (markAsRead bk articleId w')) = articles w').
Proof.
  cbv zeta.
  destruct (markAsRead_cases bk articleId w)
    as (Hret & Hsrc & Hcase).
  split; [exact Hret|]. split; [exact Hsrc|].
  split; [|split; [|split]].
  - destruct Hcase as [-> | [_ ->]]; [reflexivity|].
    unfold marked_read. rewrite map_map. apply map_ext. intro r.
    destruct (JS.eqb (ArticleRow.id r) articleId);
      [apply without_read_set | reflexivity].
  - destruct Hcase as [-> | [_ ->]].
    + apply Forall2_same. intro r. left. reflexivity.
    + unfold marked_read. apply Forall2_map_r. intro r.
      destruct (JS.eqb (ArticleRow.id r) articleId);
        [right; reflexivity | left; reflexivity].
  - intro Hnone. destruct Hcase as [H | [[user Hu] _]]; [exact H|].
    rewrite Hnone in Hu. discriminate Hu.
  - intros user Hme Hrel.
    assert (Hrun : forall w0, articles (snd (markAsRead bk articleId w0)) =
                              marked_read articleId (articles w0)).
    { intro w0. rewrite (markAsRead_run bk articleId user w0 (Hme _) (Hrel _)).
      reflexivity. }
    split; [apply Hrun|]. rewrite !Hrun. apply marked_read_idem.
Qed.

(** ** The read operations *)

Section Queries.

Context {R : Type} (key : R -> option jsstring) (dir : direction).

Lemma In_insert_sorted (a x : R) (l : list R) :
  In x (insert_sorted key dir a l) <-> x = a \/ In x l.
Proof.
  induction l as [|b l IH]; cbn [insert_sorted].
  - cbn. intuition.
  - destruct (in_order key dir a b); cbn [In]; [intuition|].
    rewrite IH. intuition.
Qed.

Lemma In_sort_rows (x : R) (l : list R) :
  In x (sort_rows key dir l) <-> In x l.
Proof.
  unfold sort_rows. induction l as [|a l IH]; cbn [fold_right]; [tauto|].
  rewrite In_insert_sorted, IH. cbn. intuition.
Qed.

End Queries.

Section Reads.

Context (rt : Runtime) (bk : Backend).

Lemma In_order_rows {R F} (get : F -> R -> option jsstring)
    (orderBy : option (F * direction)) (x : R) (l : list R) :
  In x (order_rows get orderBy l) <-> In x l.
Proof.
  destruct orderBy as [[f d]|]; [apply In_sort_rows | tauto].
Qed.

Lemma In_limit_rows {R} (limit : option nat) (x : R) (l : list R) :
  In x (limit_rows limit l) -> In x l.
Proof.
  destruct limit as [n|]; [|tauto]. cbn [limit_rows]. intro H.
  rewrite <- (firstn_skipn n l). apply in_or_app. left. exact H.
Qed.

Lemma length_limit_rows {R} (n : nat) (l : list R) :
  (List.length (limit_rows (Some n) l) <= n)%nat.
Proof. cbn [limit_rows]. rewrite length_firstn. lia. Qed.

Lemma db_articles_list_run (where_ : ArticleRow.fields)
    (orderBy : option (ArticleRow.field * direction)) (limit : option nat)
    (w : World) :
  db_articles_list bk where_ orderBy limit w =
  (match db_fault bk (tick w) with
   | Some e => Throw e
   | None =>
       Ret (limit_rows limit
              (order_rows (fun f r => Some (ArticleRow.get f r)) orderBy
                 (filter (ArticleRow.matches where_) (articles w))))
   end,
   called (ArticlesList where_ orderBy limit) w).
Proof.
  unfold db_articles_list, bind. rewrite db_call_run.
  destruct (db_fault bk (tick w)); reflexivity.
Qed.

Lemma db_newsSources_list_run (where_ : SourceRow.fields)
    (orderBy : option (SourceRow.field * direction)) (w : World) :
  db_newsSources_list bk where_ orderBy w =
  (match db_fault bk (tick w) with
   | Some e => Throw e
   | None =>
       Ret (order_rows SourceRow.get orderBy
              (filter (SourceRow.matches where_) (newsSources w)))
   end,
   called (SourcesList where_ orderBy) w).
Proof.
  unfold db_newsSources_list, bind. rewrite db_call_run.
  destruct (db_fault bk (tick w)); reflexivity.
Qed.

(** A row that an article query returns is a row of the store that has
    every field of the [where] clause. *)
Lemma article_query_sound (where_ : ArticleRow.fields)
    (orderBy : option (ArticleRow.field * direction)) (limit : option nat)
    (l : list ArticleRow.t) (r : ArticleRow.t) :
  In r (limit_rows limit
          (order_rows (fun f r => Some (ArticleRow.get f r)) orderBy
             (filter (ArticleRow.matches where_) l))) ->
  In r l /\ forall f v, In (f, v) where_ -> ArticleRow.get f r = v.
Proof.
  intro H. apply In_limit_rows in H. apply In_order_rows in H.
  apply filter_In in H. destruct H as [Hin Hm]. split; [exact Hin|].
  intros f v Hfv. unfold ArticleRow.matches in Hm.
  rewrite forallb_forall in Hm. specialize (Hm _ Hfv).
  apply eqb_eq in Hm. exact Hm.
Qed.

Lemma source_query_iff (where_ : SourceRow.fields)
    (orderBy : option (SourceRow.field * direction))
    (l : list SourceRow.t) (r : SourceRow.t) :
  In r (order_rows SourceRow.get orderBy (filter (SourceRow.matches where_) l))
  <-> In r l /\ SourceRow.matches where_ r = true.
Proof. rewrite In_order_rows. apply filter_In. Qed.

Lemma matches_owned_active (uid : jsstring) (r : SourceRow.t) :
  SourceRow.matches [(SourceRow.FuserId, uid); (SourceRow.FisActive, lit "1")] r
    = true <->
  SourceRow.userId r = uid /\ SourceRow.isActive r = lit "1".
Proof.
  cbn [SourceRow.matches forallb fst snd SourceRow.get].
  rewrite andb_true_r, andb_true_iff, !eqb_eq. tauto.
Qed.

End Reads.

(** X13.  [getUserSources] never raises and changes no row.  Every source
    it returns is the image of a stored row that the signed-in user owns
    and whose active flag is "1"; with nobody signed in it returns no
    source.  When a user is signed in and the store answers, every such
    row is returned. *)
Theorem getUserSources_scoped (rt : Runtime) (bk : Backend) (w : World) :
  exists sources,
    fst (getUserSources rt bk w) = Ret sources /\
    same_rows w (snd (getUserSources rt bk w)) /\
    (forall s, In s sources ->
       exists user row,
         auth_me bk (tick w) = Ret (Some user) /\
         In row (newsSources w) /\
         SourceRow.userId row = user_id user /\
         SourceRow.isActive row = lit "1" /\
         s = to_NewsSource rt row) /\
    (forall user row,
       auth_me bk (tick w) = Ret (Some user) ->
       db_fault bk (S (tick w)) = None ->
       In row (newsSources w) ->
       SourceRow.userId row = user_id user ->
       SourceRow.isActive row = lit "1" ->
       In (to_NewsSource rt row) sources).
Proof.
  destruct (getUserSources rt bk w) as [o w'] eqn:E. cbn [fst snd].
  unfold getUserSources, try_catch in E. unfold bind at 1 in E.
  rewrite blink_auth_me_run in E.
  destruct (auth_me bk (tick w)) as [[user|]|e] eqn:Hme.
  - unfold bind at 1 in E. rewrite db_newsSources_list_run in E.
    change (tick (ticked w)) with (S (tick w)) in E.
    change (newsSources (ticked w)) with (newsSources w) in E.
    destruct (db_fault bk (S (tick w))) as [e|].
    + cbn in E. injection E as <- <-. exists []. split; [reflexivity|].
      split; [split; reflexivity|]. split; [intros s []|].
      intros user' row _ Hf. discriminate Hf.
    + cbn [ret] in E. injection E as <- <-. eexists. split; [reflexivity|].
      split; [split; reflexivity|]. split.
      * intros s Hs. apply in_map_iff in Hs. destruct Hs as (row & <- & Hrow).
        apply (source_query_iff _ (Some (SourceRow.FcreatedAt, desc))) in Hrow.
        destruct Hrow as [Hin Hm].
        apply matches_owned_active in Hm. destruct Hm as [Hu Ha].
        exists user, row. repeat split; assumption.
      * intros user' row [= <-] _ Hin Hu Ha. apply in_map.
        apply (source_query_iff _ (Some (SourceRow.FcreatedAt, desc))).
        split; [exact Hin|].
        apply matches_owned_active. split; assumption.
  - cbn in E. injection E as <- <-. exists []. split; [reflexivity|].
    split; [split; reflexivity|]. split; [intros s []|].
    intros user row Hf. discriminate Hf.
  - cbn in E. injection E as <- <-. exists []. split; [reflexivity|].
    split; [split; reflexivity|]. split; [intros s []|].
    intros user row Hf. discriminate Hf.
Qed.

(** X14.  [getUserArticles] never raises and changes no row.  It returns
    at most [limit] articles (50 when no limit is given), each the image
    of a stored article that the signed-in user owns, and, when a
    non-empty category other than "all" is given, of that category.  The
    category "all" and the empty category filter nothing. *)
Theorem getUserArticles_scoped (rt : Runtime) (bk : Backend)
    (category : option jsstring) (limit : option nat) (w : World) :
  (exists res,
     fst (getUserArticles rt bk category limit w) = Ret res /\
     same_rows w (snd (getUserArticles rt bk category limit w)) /\
     (List.length res <= match limit with Some n => n | None => 50 end)%nat /\
     forall a, In a res ->
       exists user row,
         auth_me bk (tick w) = Ret (Some user) /\
         In row (articles w) /\
         ArticleRow.userId row = user_id user /\
         a = to_Article rt row /\
         (forall c, category = Some c -> c <> [] -> c <> lit "all" ->
                    ArticleRow.category row = c)) /\
  getUserArticles rt bk (Some (lit "all")) limit w =
    getUserArticles rt bk None limit w /\
  getUserArticles rt bk (Some []) limit w = getUserArticles rt bk None limit w.
Proof.
  split; [|split; reflexivity].
  destruct (getUserArticles rt bk category limit w) as [o w'] eqn:E.
  cbn [fst snd].
  unfold getUserArticles, try_catch in E. cbv zeta in E.
  unfold bind at 1 in E. rewrite blink_auth_me_run in E.
  destruct (auth_me bk (tick w)) as [[user|]|e] eqn:Hme.
  - unfold bind at 1 in E. rewrite db_articles_list_run in E.
    change (tick (ticked w)) with (S (tick w)) in E.
    change (articles (ticked w)) with (articles w) in E.
    destruct (db_fault bk (S (tick w))) as [e|].
    + cbn in E. injection E as <- <-. exists []. split; [reflexivity|].
      split; [split; reflexivity|]. split; [cbn; lia | intros a []].
    + match type of E with context [limit_rows ?lim ?l] =>
        remember (limit_rows lim l) as rows eqn:Erows end.
      cbn [ret] in E. injection E as <- <-. eexists. split; [reflexivity|].
      split; [split; reflexivity|]. split.
      * rewrite length_map, Erows. apply length_limit_rows.
      * intros a Ha. apply in_map_iff in Ha. destruct Ha as (row & <- & Hrow).
        rewrite Erows in Hrow.
        apply article_query_sound in Hrow. destruct Hrow as [Hin Hw].
        exists user, row. split; [reflexivity|]. split; [exact Hin|].
        split; [|split; [reflexivity|]].
        -- apply (Hw ArticleRow.FuserId).
           destruct (otruthy category && _);
             [apply in_or_app; left|]; left; reflexivity.
        -- intros c -> Hne Hall.
           apply (Hw ArticleRow.Fcategory).
           assert (Ht : otruthy (Some c) = true)
             by (destruct c; [contradiction | reflexivity]).
           assert (Hor : or_else (Some c) [] = c) by (destruct c; reflexivity).
           rewrite Ht, Hor. apply eqb_neq in Hall. rewrite Hall. cbn [andb negb].
           apply in_or_app. right. left. reflexivity.
  - cbn in E. injection E as <- <-. exists []. split; [reflexivity|].
    split; [split; reflexivity|]. split; [cbn; lia | intros a []].
  - cbn in E. injection E as <- <-. exists []. split; [reflexivity|].
    split; [split; reflexivity|]. split; [cbn; lia | intros a []].
Qed.

Lemma getUserArticles_scoped_witness :
  let w := mkWorld []
             [Sample.article_row "a1" "alice" (lit "1") (lit "0");
              Sample.article_row "a2" "bob" (lit "2") (lit "0")] 0 [] [] in
  exists res,
    fst (getUserArticles Sample.runtime
           (Sample.backend (Some Sample.alice) (Ret []) (fun _ => Ret []))
           (Some (lit "technology")) None w) = Ret res /\
    Forall (fun a => Article.category a = lit "technology") res.
Proof.
  intro w.
  destruct (proj1 (getUserArticles_scoped Sample.runtime
              (Sample.backend (Some Sample.alice) (Ret []) (fun _ => Ret []))
              (Some (lit "technology")) None w))
    as (res & E & _ & _ & Hall).
  exists res. split; [exact E|]. apply Forall_forall. intros a Ha.
  destruct (Hall a Ha) as (user & row & _ & _ & _ & -> & Hcat).
  apply (Hcat (lit "technology") eq_refl); discriminate.
Defined.

(** X15.  [searchArticles] never raises and changes no row.  It returns at
    most 100 articles, each the image of a stored article that the
    signed-in user owns and whose title or description, in lower case,
    contains the query in lower case. *)
Theorem searchArticles_scoped (rt : Runtime) (bk : Backend)
    (query : jsstring) (w : World) :
  exists res,
    fst (searchArticles rt bk query w) = Ret res /\
    same_rows w (snd (searchArticles rt bk query w)) /\
    (List.length res <= 100)%nat /\
    forall a, In a res ->
      exists user row,
        auth_me bk (tick w) = Ret (Some user) /\
        In row (articles w) /\
        ArticleRow.userId row = user_id user /\
        a = to_Article rt row /\
        (includes (toLowerCase rt (ArticleRow.title row)) (toLowerCase rt query) ||
         includes (toLowerCase rt (ArticleRow.description row))
                  (toLowerCase rt query)) = true.
Proof.
  destruct (searchArticles rt bk query w) as [o w'] eqn:E. cbn [fst snd].
  unfold searchArticles, try_catch in E. unfold bind at 1 in E.
  rewrite blink_auth_me_run in E.
  destruct (auth_me bk (tick w)) as [[user|]|e] eqn:Hme.
  - unfold bind at 1 in E. rewrite db_articles_list_run in E.
    change (tick (ticked w)) with (S (tick w)) in E.
    change (articles (ticked w)) with (articles w) in E.
    destruct (db_fault bk (S (tick w))) as [e|].
    + cbn in E. injection E as <- <-. exists []. split; [reflexivity|].
      split; [split; reflexivity|]. split; [cbn; lia | intros a []].
    + match type of E with context [limit_rows ?lim ?l] =>
        remember (limit_rows lim l) as rows eqn:Erows end.
      cbv zeta in E. cbn [ret] in E. injection E as <- <-.
      eexists. split; [reflexivity|].
      split; [split; reflexivity|]. split.
      * rewrite length_map.
        etransitivity; [apply filter_length_le|].
        rewrite Erows. apply length_limit_rows.
      * intros a Ha. apply in_map_iff in Ha. destruct Ha as (row & <- & Hrow).
        apply filter_In in Hrow. destruct Hrow as [Hrow Hmatch].
        rewrite Erows in Hrow.
        apply article_query_sound in Hrow. destruct Hrow as [Hin Hw].
        exists user, row. split; [reflexivity|]. split; [exact Hin|].
        split; [|split; [reflexivity | exact Hmatch]].
        apply (Hw ArticleRow.FuserId). left. reflexivity.
  - cbn in E. injection E as <- <-. exists []. split; [reflexivity|].
    split; [split; reflexivity|]. split; [cbn; lia | intros a []].
  - cbn in E. injection E as <- <-. exists []. split; [reflexivity|].
    split; [split; reflexivity|]. split; [cbn; lia | intros a []].
Qed.

(** ** The bookmark handler of the application component *)

Section Handler.

Context (rt : Runtime) (bk : Backend).

(** One call of [toggleBookmark] on an article the signed-in user owns, in
    a reliable store with unique ids. *)
Lemma toggleBookmark_owned_run (user : User) (pre post : list ArticleRow.t)
    (a : ArticleRow.t) (w : World) :
  (forall t, auth_me bk t = Ret (Some user)) ->
  store_reliable bk ->
  articles w = pre ++ a :: post ->
  NoDup (map ArticleRow.id (articles w)) ->
  ArticleRow.userId a = user_id user ->
  fst (toggleBookmark rt bk (ArticleRow.id a) w) = Ret tt /\
  articles (snd (toggleBookmark rt bk (ArticleRow.id a) w)) =
    pre ++ ArticleRow.set ArticleRow.FisBookmarked
             (if Number_gt0 rt (ArticleRow.isBookmarked a)
              then lit "0" else lit "1") a :: post.
Proof.
  intros Hme Hrel Hw Hnd Hown.
  rewrite Hw in Hnd.
  pose proof (unique_id_elsewhere pre post a Hnd) as Hother.
  rewrite (toggleBookmark_run rt bk _ user w (Hme _) Hrel).
  assert (Hfilter : owned_articles (ArticleRow.id a) (user_id user)
                      (articles w) = [a]).
  { rewrite Hw. unfold owned_articles. rewrite filter_app. cbn [filter].
    rewrite eqb_refl, Hown, eqb_refl. cbn [andb].
    rewrite !filter_none; [reflexivity | |];
      intros r Hr; rewrite Hother by auto; reflexivity. }
  rewrite Hfilter. cbv zeta. cbn [fst snd articles].
  split; [reflexivity|].
  rewrite Hw, map_app. cbn [map]. rewrite eqb_refl.
  unfold ArticleRow.patch. cbn [fold_left fst snd].
  rewrite !map_unchanged; [reflexivity | |];
    intros r Hr; rewrite Hother by auto; reflexivity.
Qed.

(** The service call never throws, so the handler always takes the first
    branch. *)
Lemma handleBookmark_run (articleId : jsstring) (st : AppState) (w : World) :
  handleBookmark rt bk articleId st w =
  (Ret (setSearchResults (flip_bookmark_of articleId (app_searchResults st))
          (setArticles (flip_bookmark_of articleId (app_articles st)) st)),
   snd (toggleBookmark rt bk articleId w)).
Proof.
  unfold handleBookmark, try_catch, bind.
  pose proof (toggleBookmark_cases rt bk articleId w) as (Hret & _).
  destruct (toggleBookmark rt bk articleId w) as [[[]|e] w'];
    cbn [fst] in Hret; [|discriminate Hret].
  cbn [snd ret]. f_equal. f_equal.
  destruct st as [u srcs arts results busy toasts opened].
  destruct results; reflexivity.
Qed.

Lemma flip_bookmark_of_other (articleId : jsstring) (l : list ArticleRow.t) :
  (forall r, In r l -> JS.eqb (ArticleRow.id r) articleId = false) ->
  flip_bookmark_of articleId (map (to_Article rt) l) = map (to_Article rt) l.
Proof.
  intro H. unfold flip_bookmark_of. rewrite map_map. apply map_ext_in.
  intros r Hr. cbn [to_Article Article.id]. rewrite (H r Hr). reflexivity.
Qed.

Lemma flip_bookmark_of_app (articleId : jsstring) (l l' : list Article.t) :
  flip_bookmark_of articleId (l ++ l') =
  flip_bookmark_of articleId l ++ flip_bookmark_of articleId l'.
Proof. apply map_app. Qed.

Lemma flip_bookmark_of_cons (articleId : jsstring) (x : Article.t)
    (l : list Article.t) :
  flip_bookmark_of articleId (x :: l) =
  (if JS.eqb (Article.id x) articleId then flip_isBookmarked x else x)
  :: flip_bookmark_of articleId l.
Proof. reflexivity. Qed.

End Handler.

(** X16.  When the articles on display are the images of rows of the
    store (all of them or any selection, in any order) and the signed-in
    user bookmarks one of their articles (unique ids, flag "0" or "1",
    reliable store), [handleBookmark] changes the store and the display
    alike: the store's rows and the rows on display go through the same
    update, so the display is still the image of the rows it showed, as
    they now are in the store. *)
Theorem handleBookmark_agrees_with_store (rt : Runtime) (bk : Backend)
    (user : User) (pre post shown : list ArticleRow.t) (a : ArticleRow.t)
    (st : AppState) (w : World) :
  Number_gt0 rt (lit "0") = false ->
  Number_gt0 rt (lit "1") = true ->
  (forall t, auth_me bk t = Ret (Some user)) ->
  store_reliable bk ->
  articles w = pre ++ a :: post ->
  NoDup (map ArticleRow.id (articles w)) ->
  ArticleRow.userId a = user_id user ->
  ArticleRow.isBookmarked a = lit "0" \/ ArticleRow.isBookmarked a = lit "1" ->
  incl shown (articles w) ->
  app_articles st = map (to_Article rt) shown ->
  let update := fun r =>
    if JS.eqb (ArticleRow.id r) (ArticleRow.id a)
    then ArticleRow.set ArticleRow.FisBookmarked
           (flipped (ArticleRow.isBookmarked a)) r
    else r in
  exists st',
    fst (handleBookmark rt bk (ArticleRow.id a) st w) = Ret st' /\
    articles (snd (handleBookmark rt bk (ArticleRow.id a) st w)) =
      map update (articles w) /\
    app_articles st' = map (to_Article rt) (map update shown).
Proof.
  intros H0 H1 Hme Hrel Hw Hnd Hown Hflag Hshown Hst update.
  rewrite handleBookmark_run. cbn [fst snd]. eexists. split; [reflexivity|].
  cbn [app_articles].
  pose proof Hnd as Hnd'. rewrite Hw in Hnd'.
  pose proof (unique_id_elsewhere pre post a Hnd') as Hother.
  assert (Hnew : (if Number_gt0 rt (ArticleRow.isBookmarked a)
                  then lit "0" else lit "1") =
                 flipped (ArticleRow.isBookmarked a)).
  { destruct Hflag as [-> | ->]; [rewrite H0 | rewrite H1]; reflexivity. }
  split.
  - destruct (toggleBookmark_owned_run rt bk user pre post a w Hme Hrel Hw Hnd Hown)
      as [_ ->].
    rewrite Hnew, Hw, map_app. cbn [map]. unfold update at 2.
    rewrite eqb_refl.
    rewrite !map_unchanged; [reflexivity | |];
      intros r Hr; unfold update; rewrite Hother by auto; reflexivity.
  - rewrite Hst. unfold flip_bookmark_of. rewrite !map_map.
    apply map_ext_in. intros r Hr. cbn [to_Article Article.id].
    unfold update.
    destruct (JS.eqb (ArticleRow.id r) (ArticleRow.id a)) eqn:Eid;
      [|reflexivity].
    assert (Hra : r = a).
    { apply Hshown in Hr. rewrite Hw in Hr. apply in_app_or in Hr.
      destruct Hr as [Hr | [Hr | Hr]].
      - rewrite (Hother r (or_introl Hr)) in Eid. discriminate Eid.
      - symmetry. exact Hr.
      - rewrite (Hother r (or_intror Hr)) in Eid. discriminate Eid. }
    subst r. unfold flip_isBookmarked, to_Article.
    cbn [Article.id Article.userId Article.sourceId Article.title
         Article.description Article.content Article.url Article.imageUrl
         Article.publishedAt Article.category Article.isBookmarked
         Article.isRead Article.contentHash Article.createdAt].
    destruct a as [i u s t d c l im p cat b r h cr].
    cbn [ArticleRow.set ArticleRow.id ArticleRow.userId ArticleRow.sourceId
         ArticleRow.title ArticleRow.description ArticleRow.content
         ArticleRow.url ArticleRow.imageUrl ArticleRow.publishedAt
         ArticleRow.category ArticleRow.isBookmarked ArticleRow.isRead
         ArticleRow.contentHash ArticleRow.createdAt] in *.
    f_equal.
    destruct Hflag as [-> | ->].
    + change (flipped (lit "0")) with (lit "1"). rewrite H0, H1. reflexivity.
    + change (flipped (lit "1")) with (lit "0"). rewrite H1, H0. reflexivity.
Qed.

(** X17.  [handleBookmark] flips the bookmark of the article on display
    and in the search results whatever the service call did, and shows
    no toast: the service call never throws.  In particular, with nobody
    signed in the store keeps its rows while the display changes. *)
Theorem handleBookmark_flips_display (rt : Runtime) (bk : Backend)
    (articleId : jsstring) (st : AppState) (w : World) :
  (exists st',
     fst (handleBookmark rt bk articleId st w) = Ret st' /\
     app_articles st' = flip_bookmark_of articleId (app_articles st) /\
     app_searchResults st' = flip_bookmark_of articleId (app_searchResults st) /\
     app_toasts st' = app_toasts st) /\
  (auth_me bk (tick w) = Ret None ->
   articles (snd (handleBookmark rt bk articleId st w)) = articles w).
Proof.
  rewrite handleBookmark_run. cbn [fst snd]. split.
  - eexists. split; [reflexivity|]. repeat split.
  - intro Hnone.
    destruct (toggleBookmark_cases rt bk articleId w)
      as (_ & _ & [H | (user & _ & _ & _ & Hme & _)]); [exact H|].
    rewrite Hnone in Hme. discriminate Hme.
Qed.

(** ** The share text *)

(** X18.  For the platform "twitter" (in any case) the share text ends
    with a space and the whole url; when the url has at most 276 code
    units the text has at most 280; a message that fits beside the url
    (message, three spare units and url within 280) is kept whole, and a
    longer one is cut and ends with "...". *)
Theorem generateShareText_twitter (rt : Runtime) (article : Article.t)
    (platform : jsstring) (customMessage : option jsstring) :
  toLowerCase rt platform = lit "twitter" ->
  let baseMessage := or_else customMessage (Article.title article) in
  let url := Article.url article in
  let text := generateShareText rt article platform customMessage in
  (exists shown, text = shown ++ lit " " ++ url /\
     ((List.length baseMessage + List.length url <= 277)%nat ->
      shown = baseMessage) /\
     ((277 < List.length baseMessage + List.length url)%nat ->
      exists kept, shown = kept ++ lit "..." /\
                   kept = firstn (274 - List.length url) baseMessage)) /\
  ((List.length url <= 276)%nat -> (List.length text <= 280)%nat).
Proof.
  intros Hp. cbv zeta. unfold generateShareText. cbv zeta.
  rewrite Hp, eqb_refl, or_str_nil.
  set (base := or_else customMessage (Article.title article)).
  set (url := Article.url article).
  destruct (280 - Z.of_nat (List.length url) - 3 <? Z.of_nat (List.length base))
    eqn:Hcut.
  - apply Z.ltb_lt in Hcut.
    assert (Hn : Z.to_nat (280 - Z.of_nat (List.length url) - 3 - 3) =
                 (274 - List.length url)%nat) by lia.
    unfold substring0. rewrite Hn. split.
    + eexists. split; [reflexivity|]. split; [intro; lia|].
      intros _. eexists. split; reflexivity.
    + intro Hu. rewrite !length_app, length_firstn. cbn [List.length lit map
        list_ascii_of_string]. lia.
  - apply Z.ltb_ge in Hcut. split.
    + exists base. split; [reflexivity|]. split; [reflexivity | intro; lia].
    + intro Hu. rewrite !length_app. cbn [List.length lit map
        list_ascii_of_string]. lia.
Qed.

Lemma generateShareText_twitter_witness :
  (List.length
     (generateShareText Sample.runtime
        (Article.mk [] [] [] (lit "A headline that is long enough") [] []
           (lit "http://x.com/a") [] [] [] false false [] [])
        (lit "Twitter") None) <= 280)%nat.
Proof.
  apply (generateShareText_twitter Sample.runtime
           (Article.mk [] [] [] (lit "A headline that is long enough") [] []
              (lit "http://x.com/a") [] [] [] false false [] [])
           (lit "Twitter") None).
  - reflexivity.
  - cbn. lia.
Defined.

(** X19.  Whatever the platform and the message, the share text ends with
    the whole url of the article: no branch cuts or drops the link. *)
Theorem generateShareText_ends_with_url (rt : Runtime) (article : Article.t)
    (platform : jsstring) (customMessage : option jsstring) :
  exists before,
    generateShareText rt article platform customMessage =
    before ++ Article.url article.
Proof.
  unfold generateShareText. cbv zeta. rewrite or_str_nil.
  repeat match goal with
         | |- context [if ?c then _ else _] => destruct c
         end;
    repeat rewrite app_assoc; eexists; reflexivity.
Qed.

(** ** Errors in the middle of a batch and before discovery *)

(** X20.  When the loop of [refreshSourceArticles] throws, it threw on one
    candidate after the candidates before it went through, and the world
    is left as it was at that throw: no candidate after the failing one
    is looked up or saved. *)
Theorem save_new_articles_aborts (rt : Runtime) (bk : Backend) (user : User)
    (source : SourceRow.t) (newArticles : list Article.t) (w : World)
    (e : exn) :
  fst (save_new_articles rt bk user source newArticles w) = Throw e ->
  exists before a after,
    newArticles = before ++ a :: after /\
    fst (save_new_articles rt bk user source before w) = Ret tt /\
    save_new_articles rt bk user source newArticles w =
    save_if_new rt bk user source a
      (snd (save_new_articles rt bk user source before w)).
Proof.
  revert w. induction newArticles as [|a rest IH]; intros w Hthrow.
  - discriminate Hthrow.
  - rewrite save_new_articles_cons in Hthrow |- *.
    destruct (save_if_new rt bk user source a w) as [[[]|e'] w1] eqn:Ea.
    + destruct (IH w1 Hthrow) as (before & b & after & -> & Hret & Hrun).
      exists (a :: before), b, after. split; [reflexivity|].
      rewrite save_new_articles_cons, Ea. split; [exact Hret | exact Hrun].
    + exists [], a, rest. split; [reflexivity|]. split; [reflexivity|].
      cbn [save_new_articles for_of ret snd]. symmetry. exact Ea.
Qed.

Lemma save_new_articles_aborts_witness :
  let bk := {| auth_me := fun _ => Ret (Some Sample.alice);
               data_scrape := fun _ _ => Ret [];
               data_extractFromUrl := fun _ _ => Ret [];
               db_fault := fun t => if (t =? 0)%nat
                                    then Some (Error (lit "offline"))
                                    else None |} in
  let a := Article.mk [] [] [] (lit "A headline that is long enough") [] []
             (lit "http://x.com/a") [] [] [] false false [] [] in
  exists before b after,
    [a; a] = before ++ b :: after /\
    fst (save_new_articles Sample.runtime bk Sample.alice
           (Sample.source_row "s1" "alice" None) before Sample.empty_world)
      = Ret tt /\
    save_new_articles Sample.runtime bk Sample.alice
      (Sample.source_row "s1" "alice" None) [a; a] Sample.empty_world =
    save_if_new Sample.runtime bk Sample.alice
      (Sample.source_row "s1" "alice" None) b
      (snd (save_new_articles Sample.runtime bk Sample.alice
              (Sample.source_row "s1" "alice" None) before Sample.empty_world)).
Proof.
  intros bk a.
  apply (save_new_articles_aborts Sample.runtime bk Sample.alice
           (Sample.source_row "s1" "alice" None) [a; a]
           Sample.empty_world (Error (lit "offline"))).
  vm_compute. reflexivity.
Defined.

(** X21.  With nobody signed in [addNewsSource] raises "User not
    authenticated" and does nothing else than ask who is signed in: no
    scrape, no fetch, no store call; when that question itself throws, the
    error is raised to the caller. *)
Theorem addNewsSource_signed_out (rt : Runtime) (bk : Backend)
    (name url category : jsstring) (w : World) :
  (auth_me bk (tick w) = Ret None ->
   fst (addNewsSource rt bk name url category w) =
     Throw (Error (lit "User not authenticated")) /\
   same_store w (snd (addNewsSource rt bk name url category w)) /\
   tick (snd (addNewsSource rt bk name url category w)) = S (tick w)) /\
  (forall e, auth_me bk (tick w) = Throw e ->
   fst (addNewsSource rt bk name url category w) = Throw e /\
   same_store w (snd (addNewsSource rt bk name url category w)) /\
   tick (snd (addNewsSource rt bk name url category w)) = S (tick w)).
Proof.
  split; [intro Hme | intros e Hme];
    (destruct (addNewsSource rt bk name url category w) as [o w'] eqn:E;
     unfold addNewsSource, try_catch in E; unfold bind at 1 in E;
     rewrite blink_auth_me_run, Hme in E; cbn in E;
     injection E as <- <-; repeat split).
Qed.

Lemma addNewsSource_signed_out_witness :
  fst (addNewsSource Sample.runtime
         (Sample.backend None (Ret []) (fun _ => Ret Sample.two_lines))
         (lit "Test") (lit "https://example.org") (lit "general")
         Sample.empty_world) =
  Throw (Error (lit "User not authenticated")).
Proof.
  apply (proj1 (addNewsSource_signed_out Sample.runtime
           (Sample.backend None (Ret []) (fun _ => Ret Sample.two_lines))
           (lit "Test") (lit "https://example.org") (lit "general")
           Sample.empty_world)).
  reflexivity.
Defined.

(** ** A feed that grows *)

Section ParserPrefix.

Context (rt : Runtime).

Lemma split_lf_nonempty (s : jsstring) : split_lf s <> [].
Proof.
  destruct s as [|c s]; cbn [split_lf]; [discriminate|].
  destruct (c =? 10); [discriminate|].
  destruct (split_lf s); discriminate.
Qed.

(** A line feed between two strings separates their lines. *)
Lemma split_lf_app (s t : jsstring) :
  split_lf (s ++ 10 :: t) = split_lf s ++ split_lf t.
Proof.
  induction s as [|c s IH]; [reflexivity|].
  cbn [app split_lf]. rewrite IH.
  destruct (c =? 10); [reflexivity|].
  pose proof (split_lf_nonempty s) as Hne.
  destruct (split_lf s) as [|l ls]; [contradiction | reflexivity].
Qed.

(** The scan of two lists of lines is the scan of the first, then, unless
    it threw, the scan of the second from where the first ended. *)
Lemma scan_lines_app (l1 l2 : list jsstring)
    (st : Partial.t * list Article.t) (w : World) :
  scan_lines rt (l1 ++ l2) st w =
  match scan_lines rt l1 st w with
  | (st', None, w') => scan_lines rt l2 st' w'
  | r => r
  end.
Proof.
  revert st w. induction l1 as [|line l1 IH]; intros st w; [reflexivity|].
  cbn [app scan_lines].
  destruct (scan_line rt st line w) as [[st'|e] w']; [apply IH | reflexivity].
Qed.

(** The scan only ever appends to the candidates it holds. *)
Lemma scan_lines_grows (lines : list jsstring) (cur : Partial.t)
    (arts : list Article.t) (w : World) :
  exists more,
    snd (fst (fst (scan_lines rt lines (cur, arts) w))) = arts ++ more.
Proof.
  revert cur arts w.
  induction lines as [|line lines IH]; intros cur arts w.
  - exists []. cbn. rewrite app_nil_r. reflexivity.
  - cbn [scan_lines].
    destruct (scan_line_steps rt cur arts line w) as (cur1 & w1 & _ & E).
    rewrite E.
    destruct (emit_shape rt cur1 arts w1)
      as (st' & w' & E' & [-> | (a & -> & _)]); rewrite E'.
    + apply IH.
    + destruct (IH Partial.empty (arts ++ [a]) w') as [more Hm].
      exists (a :: more). rewrite Hm, <- app_assoc. reflexivity.
Qed.

(** In one world, the candidates of a text come first among those of the
    text followed by a line feed and more text. *)
Lemma parseRSSContent_prefix (s t url1 url2 : jsstring) (w : World) :
  exists arts more,
    fst (parseRSSContent rt s url1 w) = Ret arts /\
    fst (parseRSSContent rt (s ++ 10 :: t) url2 w) = Ret (arts ++ more).
Proof.
  unfold parseRSSContent. rewrite split_lf_app, scan_lines_app.
  destruct (scan_lines_returns rt (split_lf s) _ w clean_state_initial)
    as ([cur arts] & w1 & E1 & H1 & _).
  rewrite E1.
  destruct (scan_lines_returns rt (split_lf t) _ w1 H1)
    as ([cur2 arts2] & w2 & E2 & _).
  destruct (scan_lines_grows (split_lf t) cur arts w1) as [more Hm].
  rewrite E2 in *. cbn [fst snd] in *.
  exists arts, more. split; [reflexivity | rewrite Hm; reflexivity].
Qed.

(** One line, scanned from two states that agree on what is taken from
    the text, in any two worlds. *)
Lemma scan_line_fields (st1 st2 : Partial.t * list Article.t) (line : jsstring)
    (w1 w2 : World) :
  fields_sim st1 st2 ->
  exists st1' w1' st2' w2',
    scan_line rt st1 line w1 = (Ret st1', w1') /\
    scan_line rt st2 line w2 = (Ret st2', w2') /\
    fields_sim st1' st2'.
Proof.
  destruct st1 as [c1 a1], st2 as [c2 a2]. intros [Hk Ha]. cbn [fst snd] in Hk, Ha.
  unfold scan_line, bind.
  pose proof (scan_link_key line _ _
                (scan_description_key line _ _ (scan_title_key line _ _ Hk)))
    as Hk'.
  destruct (scan_date_returns rt line
              (scan_link line (scan_description line (scan_title line c1))) w1)
    as (d1 & v1 & E1 & K1 & _).
  destruct (scan_date_returns rt line
              (scan_link line (scan_description line (scan_title line c2))) w2)
    as (d2 & v2 & E2 & K2 & _).
  rewrite E1, E2.
  assert (Hd : partial_key d1 = partial_key d2) by congruence.
  assert (Hlen : List.length a1 = List.length a2).
  { rewrite <- (length_map candidate_fields a1), Ha. apply length_map. }
  destruct (emit_returns rt d1 a1 v1) as (s1 & x1 & F1 & _ & C1).
  destruct (emit_returns rt d2 a2 v2) as (s2 & x2 & F2 & _ & C2).
  exists s1, x1, s2, x2. split; [exact F1|]. split; [exact F2|].
  unfold partial_key in Hd. injection Hd as Ht Hdesc Hu.
  rewrite Ht, Hu, Hlen in C1.
  destruct C1 as [[-> N1] | (Y1 & b1 & -> & T1 & U1 & D1)];
    destruct C2 as [[-> N2] | (Y2 & b2 & -> & T2 & U2 & D2)];
    try congruence.
  - split; cbn [fst snd]; [|exact Ha]. unfold partial_key. congruence.
  - split; cbn [fst snd]; [reflexivity|].
    rewrite !map_app, Ha. f_equal. cbn [map]. f_equal.
    unfold candidate_fields. f_equal; [f_equal|]; congruence.
Qed.

Lemma scan_lines_fields (lines : list jsstring)
    (st1 st2 : Partial.t * list Article.t) (w1 w2 : World) :
  fields_sim st1 st2 ->
  exists st1' w1' st2' w2',
    scan_lines rt lines st1 w1 = (st1', None, w1') /\
    scan_lines rt lines st2 w2 = (st2', None, w2') /\
    fields_sim st1' st2'.
Proof.
  revert st1 st2 w1 w2.
  induction lines as [|line lines IH]; intros st1 st2 w1 w2 Hsim.
  - exists st1, w1, st2, w2. repeat split; apply Hsim.
  - destruct (scan_line_fields st1 st2 line w1 w2 Hsim)
      as (s1 & v1 & s2 & v2 & E1 & E2 & Hs).
    cbn [scan_lines]. rewrite E1, E2. apply IH. exact Hs.
Qed.

(** Two parses of one text, in any two worlds, give candidates with the
    same titles, descriptions and urls, in the same order. *)
Lemma parseRSSContent_fields (content url1 url2 : jsstring) (w1 w2 : World) :
  exists arts1 arts2,
    fst (parseRSSContent rt content url1 w1) = Ret arts1 /\
    fst (parseRSSContent rt content url2 w2) = Ret arts2 /\
    map candidate_fields arts1 = map candidate_fields arts2.
Proof.
  unfold parseRSSContent.
  destruct (scan_lines_fields (split_lf content) (Partial.empty, [])
              (Partial.empty, []) w1 w2)
    as ([c1 a1] & v1 & [c2 a2] & v2 & E1 & E2 & [_ Ha]).
  { split; reflexivity. }
  rewrite E1, E2. exists a1, a2. repeat split. exact Ha.
Qed.

End ParserPrefix.

(** X22.  Lines added after a feed text never change what the candidates
    already found in it take from the text.  Whenever the two texts are
    parsed, in any two states of the clock and the random generator, the
    candidates of a text followed by a line feed and more text start with
    as many candidates as the text alone gives, with the same titles,
    descriptions and urls, in the same order.  Their ids and dates come
    from the clock and the generator and may differ. *)
Theorem parseRSSContent_extends (rt : Runtime) (s t url1 url2 : jsstring)
    (w1 w2 : World) :
  exists arts kept more,
    fst (parseRSSContent rt s url1 w1) = Ret arts /\
    fst (parseRSSContent rt (s ++ 10 :: t) url2 w2) = Ret (kept ++ more) /\
    map candidate_fields kept = map candidate_fields arts.
Proof.
  destruct (parseRSSContent_prefix rt s t url2 url2 w2)
    as (kept & more & Hk & Hfull).
  destruct (parseRSSContent_fields rt s url1 url2 w1 w2)
    as (arts & kept' & Ha & Hk' & Hf).
  rewrite Hk in Hk'. injection Hk' as <-.
  exists arts, kept, more.
  split; [exact Ha|]. split; [exact Hfull | symmetry; exact Hf].
Qed.

(** ** The refresh handler of the application component *)

Section Refresh.

Context (rt : Runtime) (bk : Backend).

(** The loop of [handleRefresh] is one ingestion per source, in order,
    and never throws. *)
Lemma for_of_refresh (l : list NewsSource.t) (w : World) :
  for_of l (fun _ source => refreshSourceArticles rt bk (NewsSource.id source))
    tt w =
  (Ret tt, refresh_all rt bk (map NewsSource.id l) w).
Proof.
  revert w. induction l as [|source l IH]; intro w; [reflexivity|].
  cbn [for_of map refresh_all]. unfold bind.
  destruct (total_refreshSourceArticles rt bk (NewsSource.id source) w)
    as [u Hu].
  destruct (refreshSourceArticles rt bk (NewsSource.id source) w)
    as [[[]|e] w1]; cbn [fst snd] in *; [apply IH | discriminate Hu].
Qed.

Lemma refresh_all_sources (sourceIds : list jsstring) (w : World) :
  newsSources (refresh_all rt bk sourceIds w) = newsSources w.
Proof.
  revert w. induction sourceIds as [|sourceId rest IH]; intro w;
    [reflexivity|].
  cbn [refresh_all]. rewrite IH. apply refreshSourceArticles_sources.
Qed.

(** [getUserArticles] returns, changes no row, and returns images of
    stored rows only. *)
Lemma getUserArticles_rows (category : option jsstring) (limit : option nat)
    (w : World) :
  exists res,
    fst (getUserArticles rt bk category limit w) = Ret res /\
    same_rows w (snd (getUserArticles rt bk category limit w)) /\
    forall a, In a res ->
      exists row, In row (articles w) /\ a = to_Article rt row.
Proof.
  destruct (getUserArticles rt bk category limit w) as [o w'] eqn:E.
  cbn [fst snd].
  unfold getUserArticles, try_catch in E. cbv zeta in E.
  unfold bind at 1 in E. rewrite blink_auth_me_run in E.
  destruct (auth_me bk (tick w)) as [[user|]|e].
  - unfold bind at 1 in E. rewrite db_articles_list_run in E.
    change (tick (ticked w)) with (S (tick w)) in E.
    change (articles (ticked w)) with (articles w) in E.
    destruct (db_fault bk (S (tick w))) as [e|].
    + cbn in E. injection E as <- <-. exists []. split; [reflexivity|].
      split; [split; reflexivity | intros a []].
    + match type of E with context [limit_rows ?lim ?l] =>
        remember (limit_rows lim l) as rows eqn:Erows end.
      cbn [ret] in E. injection E as <- <-. eexists. split; [reflexivity|].
      split; [split; reflexivity|].
      intros a Ha. apply in_map_iff in Ha. destruct Ha as (row & <- & Hrow).
      rewrite Erows in Hrow.
      apply article_query_sound in Hrow. destruct Hrow as [Hin _].
      exists row. split; [exact Hin | reflexivity].
  - cbn in E. injection E as <- <-. exists []. split; [reflexivity|].
    split; [split; reflexivity | intros a []].
  - cbn in E. injection E as <- <-. exists []. split; [reflexivity|].
    split; [split; reflexivity | intros a []].
Qed.

End Refresh.

(** X23.  With a user in the component, [handleRefresh] never raises and
    always ends with the "Refreshed" toast and the indicator cleared,
    whatever the backend does: the "Refresh Error" toast is never shown,
    because neither [refreshSourceArticles] nor [getUserArticles] lets an
    error out.  The store ends as after one ingestion per source on
    display, in order: no source row changes, and the deduplication
    invariant is kept.  The articles then on display are images of rows
    of that store; the user, the sources and the search results of the
    component stay as they were. *)
Theorem handleRefresh_always_reports_success (rt : Runtime) (bk : Backend)
    (user : User) (st : AppState) (w : World) :
  app_user st = Some user ->
  exists st',
    fst (handleRefresh rt bk st w) = Ret st' /\
    app_isRefreshing st' = false /\
    app_toasts st' =
      app_toasts st ++
      [(lit "Refreshed", lit "Your news feed has been updated")] /\
    (app_user st' = app_user st /\ app_sources st' = app_sources st /\
     app_searchResults st' = app_searchResults st) /\
    same_rows (refresh_all rt bk (map NewsSource.id (app_sources st)) w)
              (snd (handleRefresh rt bk st w)) /\
    newsSources (snd (handleRefresh rt bk st w)) = newsSources w /\
    (dedup_invariant (articles w) ->
     dedup_invariant (articles (snd (handleRefresh rt bk st w)))) /\
    (forall a, In a (app_articles st') ->
       exists row,
         In row (articles (snd (handleRefresh rt bk st w))) /\
         a = to_Article rt row).
Proof.
  intro Hu.
  destruct (handleRefresh rt bk st w) as [o wf] eqn:E. cbn [fst snd].
  unfold handleRefresh in E. rewrite Hu in E. cbv zeta in E.
  unfold bind at 1, try_catch in E. unfold bind at 1 in E.
  change (app_sources (setIsRefreshing true st)) with (app_sources st) in E.
  rewrite for_of_refresh in E.
  set (w1 := refresh_all rt bk (map NewsSource.id (app_sources st)) w) in *.
  unfold bind at 1 in E.
  destruct (getUserArticles_rows rt bk None None w1)
    as (res & Hres & [Hs Ha] & Hin).
  destruct (getUserArticles rt bk None None w1) as [o2 w2].
  cbn [fst snd] in Hres, Hs, Ha. subst o2.
  cbn [ret] in E. injection E as <- <-.
  eexists. split; [reflexivity|].
  split; [reflexivity|]. split; [reflexivity|].
  split; [repeat split|].
  split; [split; assumption|].
  split; [rewrite Hs; apply refresh_all_sources|].
  split.
  - intro Hinv. rewrite Ha. apply refresh_all_invariant. exact Hinv.
  - intros a Hin'. rewrite Ha. apply Hin. exact Hin'.
Qed.

Lemma handleRefresh_always_reports_success_witness :
  let row := Sample.source_row "s1" "alice" (Some (lit "http://x.com/feed")) in
  let bk := Sample.backend (Some Sample.alice) (Ret [])
              (fun _ => Ret Sample.two_lines) in
  let w := mkWorld [row] [] 0 [] [] in
  let st := mkAppState (Some Sample.alice)
              [to_NewsSource Sample.runtime row] [] [] false [] [] in
  exists st',
    fst (handleRefresh Sample.runtime bk st w) = Ret st' /\
    app_isRefreshing st' = false /\
    app_toasts st' =
      [(lit "Refreshed", lit "Your news feed has been updated")].
Proof.
  intros row bk w st.
  destruct (handleRefresh_always_reports_success Sample.runtime bk
              Sample.alice st w eq_refl)
    as (st' & H1 & H2 & H3 & _).
  exists st'. split; [exact H1|]. split; [exact H2 | exact H3].
Defined.

(** ** The other handlers of the application component *)

Section Handlers.

Context (rt : Runtime) (bk : Backend).

(** What [addNewsSource] does to the source rows, by outcome. *)
Lemma addNewsSource_outcome (name url category : jsstring) (w : World) :
  match fst (addNewsSource rt bk name url category w) with
  | Ret source =>
      exists row,
        persisted_as source row /\
        newsSources (snd (addNewsSource rt bk name url category w)) =
          newsSources w ++ [row]
  | Throw e =>
      same_rows w (snd (addNewsSource rt bk name url category w)) /\
      (auth_me bk (tick w) = Ret None ->
       e = Error (lit "User not authenticated"))
  end.
Proof.
  destruct (addNewsSource rt bk name url category w) as [o w'] eqn:E.
  cbn [fst snd].
  unfold addNewsSource, try_catch in E. unfold bind at 1 in E.
  rewrite blink_auth_me_run in E.
  destruct (auth_me bk (tick w)) as [[user|]|e] eqn:Hme.
  - unfold bind at 1 in E.
    pose proof (store_free_discoverRSSFeed rt bk url (ticked w)) as Hs.
    destruct (total_discoverRSSFeed rt bk url (ticked w)) as [r Hr].
    destruct (discoverRSSFeed rt bk url (ticked w)) as [[r'|e] w1];
      cbn [fst snd] in *; [|discriminate Hr].
    destruct Hs as (Hs1 & Hs2 & _). cbn [ticked newsSources articles] in Hs1, Hs2.
    destruct (otruthy r') eqn:Hfeed; cbn [negb] in E.
    + unfold Date_now_string, Math_random_base36, new_Date_toISOString in E.
      unfold bind, next_tick, ret in E. cbv beta iota in E.
      rewrite db_newsSources_create_run in E.
      match type of E with context [db_fault bk ?t] =>
        destruct (db_fault bk t) as [e|] end.
      * cbn in E. injection E as <- <-. cbn.
        split; [split; assumption | intro H; discriminate H].
      * match type of E with context [refreshSourceArticles rt bk ?sid ?w0] =>
          pose proof (refreshSourceArticles_sources rt bk sid w0) as Hsrc;
          destruct (total_refreshSourceArticles rt bk sid w0) as [[] Hret];
          destruct (refreshSourceArticles rt bk sid w0) as [[[]|e] w2]
        end; cbn [fst snd] in *; [|discriminate Hret].
        injection E as <- <-.
        eexists. split; [|rewrite Hsrc, Hs1; reflexivity].
        repeat split.
    + cbn in E. injection E as <- <-. cbn.
      split; [split; assumption | intro H; discriminate H].
  - cbn in E. injection E as <- <-. cbn.
    split; [split; reflexivity | intros _; reflexivity].
  - cbn in E. injection E as <- <-. cbn.
    split; [split; reflexivity | intro H; discriminate H].
Qed.

(** The read mark on a row and on its image. *)
Lemma to_Article_read (r : ArticleRow.t) :
  Number_gt0 rt (lit "1") = true ->
  to_Article rt (ArticleRow.set ArticleRow.FisRead (lit "1") r) =
  set_isRead (to_Article rt r).
Proof.
  intro H1. destruct r. unfold to_Article, set_isRead. cbn -[lit].
  rewrite H1. reflexivity.
Qed.

Lemma read_mark_of_images (articleId : jsstring) (shown : list ArticleRow.t) :
  Number_gt0 rt (lit "1") = true ->
  map (to_Article rt) (marked_read articleId shown) =
  read_mark_of articleId (map (to_Article rt) shown).
Proof.
  intro H1. unfold marked_read, read_mark_of. rewrite !map_map.
  apply map_ext. intro r.
  change (Article.id (to_Article rt r)) with (ArticleRow.id r).
  destruct (JS.eqb (ArticleRow.id r) articleId);
    [apply to_Article_read; exact H1 | reflexivity].
Qed.

End Handlers.

(** X24.  [handleAddSource] never raises, and the sources on display
    follow the store.  Either the store has gained one source row,
    appended, the display has gained the source it was persisted from,
    the "Source Added" toast names it, and the articles then on display
    are images of stored rows; or no row of the store has changed, the
    sources and the articles on display are as they were, and the one
    toast shown is an "Error" toast, which reads "User not authenticated"
    when nobody is signed in. *)
Theorem handleAddSource_follows_store (rt : Runtime) (bk : Backend)
    (name url category : jsstring) (st : AppState) (w : World) :
  exists st',
    fst (handleAddSource rt bk name url category st w) = Ret st' /\
    ((exists source row,
        persisted_as source row /\
        newsSources (snd (handleAddSource rt bk name url category st w)) =
          newsSources w ++ [row] /\
        app_sources st' = app_sources st ++ [source] /\
        app_toasts st' =
          app_toasts st ++
          [(lit "Source Added",
            name ++ lit " has been added to your news sources")] /\
        forall a, In a (app_articles st') ->
          exists r,
            In r (articles (snd (handleAddSource rt bk name url category st w)))
            /\ a = to_Article rt r)
     \/
     (exists message,
        same_rows w (snd (handleAddSource rt bk name url category st w)) /\
        app_sources st' = app_sources st /\
        app_articles st' = app_articles st /\
        app_toasts st' = app_toasts st ++ [(lit "Error", message)] /\
        (auth_me bk (tick w) = Ret None ->
         message = lit "User not authenticated"))).
Proof.
  destruct (handleAddSource rt bk name url category st w) as [o wf] eqn:E.
  cbn [fst snd].
  unfold handleAddSource in E. cbv zeta in E.
  unfold try_catch at 1 in E. unfold bind at 1 in E.
  pose proof (addNewsSource_outcome rt bk name url category w) as Ho.
  destruct (addNewsSource rt bk name url category w) as [[source|e] w1];
    cbn [fst snd] in Ho.
  - destruct Ho as (row & Hp & Hn).
    unfold try_catch in E. unfold bind at 1 in E.
    destruct (getUserArticles_rows rt bk None None w1)
      as (res & Hres & [Hs Ha] & Hin).
    destruct (getUserArticles rt bk None None w1) as [o2 w2].
    cbn [fst snd] in Hres, Hs, Ha. subst o2.
    cbn [ret] in E. injection E as <- <-.
    eexists. split; [reflexivity|]. left. exists source, row.
    split; [exact Hp|]. split; [rewrite Hs; exact Hn|].
    split; [reflexivity|]. split; [reflexivity|].
    intros a Hin'. rewrite Ha. apply Hin. exact Hin'.
  - destruct Ho as [[Hs Ha] Hmsg].
    unfold bind, console_error, ret in E. injection E as <- <-.
    eexists. split; [reflexivity|]. right. exists (error_message e).
    split; [split; assumption|].
    split; [reflexivity|]. split; [reflexivity|]. split; [reflexivity|].
    intro Hme. rewrite (Hmsg Hme). reflexivity.
Qed.

(** X25.  [handleReadArticle] never raises and always opens the article
    in a new tab, last, with no toast.  When the articles on display are
    images of rows, they become the images of those rows with the read
    mark set on the rows of the article's id, whether or not the store
    took the mark: the store makes the same update, or, which is always
    so when nobody is signed in, keeps every row as it was. *)
Theorem handleReadArticle_marks_and_opens (rt : Runtime) (bk : Backend)
    (article : Article.t) (shown : list ArticleRow.t) (st : AppState)
    (w : World) :
  Number_gt0 rt (lit "1") = true ->
  app_articles st = map (to_Article rt) shown ->
  exists st',
    fst (handleReadArticle bk article st w) = Ret st' /\
    app_opened st' = app_opened st ++ [(Article.url article, lit "_blank")] /\
    app_toasts st' = app_toasts st /\
    app_articles st' =
      map (to_Article rt) (marked_read (Article.id article) shown) /\
    newsSources (snd (handleReadArticle bk article st w)) = newsSources w /\
    (articles (snd (handleReadArticle bk article st w)) =
       marked_read (Article.id article) (articles w) \/
     articles (snd (handleReadArticle bk article st w)) = articles w) /\
    (auth_me bk (tick w) = Ret None ->
     articles (snd (handleReadArticle bk article st w)) = articles w).
Proof.
  intros H1 Hshown.
  destruct (handleReadArticle bk article st w) as [o wf] eqn:E.
  cbn [fst snd].
  unfold handleReadArticle in E. unfold bind at 1, try_catch in E.
  unfold bind at 1 in E.
  destruct (markAsRead_cases bk (Article.id article) w) as (Hret & Hsrc & Hart).
  destruct (markAsRead bk (Article.id article) w) as [o1 w1].
  cbn [fst snd] in Hret, Hsrc, Hart. subst o1.
  cbn [ret] in E. injection E as <- <-.
  eexists. split; [reflexivity|].
  split; [reflexivity|]. split; [reflexivity|].
  split.
  { cbn [app_articles window_open setArticles]. rewrite Hshown.
    symmetry. apply read_mark_of_images. exact H1. }
  split; [exact Hsrc|]. split.
  - destruct Hart as [Hart | [_ Hart]]; [right | left]; exact Hart.
  - intro Hme. destruct Hart as [Hart | [[user Hu] _]]; [exact Hart|].
    rewrite Hme in Hu. discriminate Hu.
Qed.

Lemma handleReadArticle_marks_and_opens_witness :
  let bk := Sample.backend None (Ret []) (fun _ => Ret []) in
  let row := Sample.article_row "a1" "alice" (lit "7") (lit "0") in
  let article := to_Article Sample.runtime row in
  let w := mkWorld [] [row] 0 [] [] in
  let st := mkAppState None [] [article] [] false [] [] in
  exists st',
    fst (handleReadArticle bk article st w) = Ret st' /\
    app_opened st' = [(lit "http://x.com/a", lit "_blank")] /\
    map Article.isRead (app_articles st') = [true] /\
    articles (snd (handleReadArticle bk article st w)) = [row].
Proof.
  intros bk row article w st.
  destruct (handleReadArticle_marks_and_opens Sample.runtime bk article
              [row] st w eq_refl eq_refl)
    as (st' & H1 & H2 & _ & H4 & _ & _ & H7).
  exists st'. split; [exact H1|]. split; [exact H2|].
  split; [rewrite H4; reflexivity | apply H7; reflexivity].
Defined.

(** ** The properties above on a concrete store *)

Lemma save_new_articles_exact_witness :
  let bk := Sample.backend (Some Sample.alice) (Ret []) (fun _ => Ret []) in
  let a := Article.mk [] [] [] (lit "A headline that is long enough") [] []
             (lit "http://x.com/a") [] [] [] false false [] [] in
  hashes_of (user_id Sample.alice)
    (articles (snd (save_new_articles Sample.runtime bk Sample.alice
                      (Sample.source_row "s1" "alice" None) [a; a]
                      Sample.empty_world))) =
  [candidate_fingerprint a].
Proof.
  intros bk a.
  rewrite (proj2 (save_new_articles_exact Sample.runtime bk Sample.alice
             (Sample.source_row "s1" "alice" None) [a; a] Sample.empty_world
             (fun t => eq_refl))).
  vm_compute. reflexivity.
Defined.

Lemma refreshSourceArticles_keeps_foreign_rows_witness :
  let bk := Sample.backend (Some Sample.alice) (Ret [])
              (fun _ => Ret Sample.two_lines) in
  let bobs := Sample.article_row "a1" "bob" (lit "1") (lit "0") in
  let w := mkWorld
             [Sample.source_row "s1" "alice" (Some (lit "https://example.org/rss"))]
             [bobs] 0 [] [] in
  foreign_rows (user_id Sample.alice)
    (articles (snd (refreshSourceArticles Sample.runtime bk (lit "s1") w))) =
  [bobs].
Proof.
  intros bk bobs w.
  rewrite (refreshSourceArticles_keeps_foreign_rows Sample.runtime bk
             (lit "s1") w Sample.alice eq_refl).
  reflexivity.
Defined.

Lemma discoverRSSFeed_sound_witness :
  let links := [{| href := Some (lit "/index.rss"); text := None |}] in
  let bk := Sample.backend None (Ret links)
              (fun _ => Throw (Error (lit "404"))) in
  exists link h,
    In link links /\ is_rss_link Sample.runtime link = true /\
    href link = Some h /\
    URL_toString Sample.runtime h (lit "https://example.org") =
      Ret (lit "https://example.org/index.rss").
Proof.
  intros links bk.
  destruct (discoverRSSFeed_sound Sample.runtime bk (lit "https://example.org")
              Sample.empty_world) as (r & E & _ & Hsound).
  vm_compute in E. injection E as <-.
  destruct (Hsound _ eq_refl)
    as [(links' & link & h & Hs & Hin & Ht & Hh & _ & Hu) | (path & Hp & Hu & t & c & Hc)].
  - injection Hs as <-. exists link, h. repeat split; assumption.
  - discriminate Hc.
Defined.

Lemma toggleBookmark_only_flags_witness :
  let bk := Sample.backend (Some Sample.alice) (Ret []) (fun _ => Ret []) in
  let a := Sample.article_row "a1" "alice" (lit "1") (lit "0") in
  let w := mkWorld [] [a] 0 [] [] in
  exists user article,
    auth_me bk (tick w) = Ret (Some user) /\
    In article (articles w) /\ ArticleRow.id article = lit "a1" /\
    ArticleRow.userId article = user_id user.
Proof.
  intros bk a w.
  apply (proj1 (proj2 (proj2 (proj2
           (toggleBookmark_only_flags Sample.runtime bk (lit "a1") w))))).
  vm_compute. discriminate.
Defined.

Lemma markAsRead_only_sets_read_witness :
  let bk := Sample.backend (Some Sample.alice) (Ret []) (fun _ => Ret []) in
  let a := Sample.article_row "a1" "alice" (lit "1") (lit "0") in
  let w := mkWorld [] [a] 0 [] [] in
  articles (snd (markAsRead bk (lit "a1") w)) = marked_read (lit "a1") [a] /\
  articles (snd (markAsRead bk (lit "a1") (snd (markAsRead bk (lit "a1") w)))) =
  articles (snd (markAsRead bk (lit "a1") w)).
Proof.
  intros bk a w.
  apply (proj2 (proj2 (proj2 (proj2 (proj2
           (markAsRead_only_sets_read bk (lit "a1") w))))) Sample.alice).
  - intro t. reflexivity.
  - intro t. reflexivity.
Defined.

Lemma getUserSources_scoped_witness :
  let bk := Sample.backend (Some Sample.alice) (Ret []) (fun _ => Ret []) in
  let mine := Sample.source_row "s1" "alice" None in
  let w := mkWorld [mine; Sample.source_row "s2" "bob" None] [] 0 [] [] in
  exists sources,
    fst (getUserSources Sample.runtime bk w) = Ret sources /\
    In (to_NewsSource Sample.runtime mine) sources /\
    Forall (fun s => NewsSource.userId s = lit "alice") sources.
Proof.
  intros bk mine w.
  destruct (getUserSources_scoped Sample.runtime bk w)
    as (sources & E & _ & Hsound & Hcomplete).
  exists sources. split; [exact E|]. split.
  - apply (Hcomplete Sample.alice mine); try reflexivity. left. reflexivity.
  - apply Forall_forall. intros s Hs.
    destruct (Hsound s Hs) as (user & row & Hme & _ & Hu & _ & ->).
    injection Hme as <-. exact Hu.
Defined.

Lemma searchArticles_scoped_witness :
  let bk := Sample.backend (Some Sample.alice) (Ret []) (fun _ => Ret []) in
  let w := mkWorld []
             [Sample.article_row "a1" "alice" (lit "1") (lit "0");
              Sample.article_row "a2" "bob" (lit "2") (lit "0")] 0 [] [] in
  exists res,
    fst (searchArticles Sample.runtime bk (lit "TITLE") w) = Ret res /\
    Forall (fun a => Article.userId a = lit "alice") res.
Proof.
  intros bk w.
  destruct (searchArticles_scoped Sample.runtime bk (lit "TITLE") w)
    as (res & E & _ & _ & Hall).
  exists res. split; [exact E|]. apply Forall_forall. intros a Ha.
  destruct (Hall a Ha) as (user & row & Hme & _ & Hu & -> & _).
  injection Hme as <-. exact Hu.
Defined.

Lemma handleBookmark_agrees_with_store_witness :
  let bk := Sample.backend (Some Sample.alice) (Ret []) (fun _ => Ret []) in
  let a := Sample.article_row "a1" "alice" (lit "1") (lit "0") in
  let b := Sample.article_row "a2" "bob" (lit "2") (lit "1") in
  let w := mkWorld [] [a; b] 0 [] [] in
  let st := mkAppState (Some Sample.alice) [] (map (to_Article Sample.runtime) [a]) [] false [] [] in
  exists st',
    fst (handleBookmark Sample.runtime bk (lit "a1") st w) = Ret st' /\
    articles (snd (handleBookmark Sample.runtime bk (lit "a1") st w)) =
      [Sample.article_row "a1" "alice" (lit "1") (lit "1"); b] /\
    app_articles st' =
      map (to_Article Sample.runtime)
          [Sample.article_row "a1" "alice" (lit "1") (lit "1")].
Proof.
  intros bk a b w st.
  apply (handleBookmark_agrees_with_store Sample.runtime bk Sample.alice
           [] [b] [a] a st w).
  - reflexivity.
  - reflexivity.
  - intro t. reflexivity.
  - intro t. reflexivity.
  - reflexivity.
  - cbn. constructor.
    + cbn. intros [E | []]. discriminate E.
    + constructor; [intros [] | constructor].
  - reflexivity.
  - left. reflexivity.
  - intros r [<- | []]. left. reflexivity.
  - reflexivity.
Defined.

Lemma handleBookmark_flips_display_witness :
  let bk := Sample.backend None (Ret []) (fun _ => Ret []) in
  let a := Sample.article_row "a1" "alice" (lit "1") (lit "0") in
  let w := mkWorld [] [a] 0 [] [] in
  let st := mkAppState (Some Sample.alice) [] (map (to_Article Sample.runtime) [a]) [] false [] [] in
  articles (snd (handleBookmark Sample.runtime bk (lit "a1") st w)) = [a].
Proof.
  intros bk a w st.
  apply (proj2 (handleBookmark_flips_display Sample.runtime bk (lit "a1") st w)).
  reflexivity.
Defined.
